(** * Heat-risk pipeline: a shallow embedding of [src/ai]

    The two programs of the repository are embedded as pure functions:

    - [weighted_heat_risk_pipeline.py]: [load_data], [prepare_features],
      [run_kmeans_and_risk_levels] and the latest-date extract of [main],
      over an explicit model of a pandas [DataFrame];
    - [fetch_pipeline_data.py]: the getters, [facility_count_to_distance]
      and [main], over the JSON answers of the backend.

    Conventions of the embedding.
    - A cell of a table is a finite number, a string or a null (NaN, NA, an
      empty CSV field).  A float is its exact value, a rational ([Qc]).
      Where the source computes with floats in a way a statement depends
      on (the scaler, the conversions and the arithmetic of the fetch
      script) every operation rounds its exact result to the nearest
      float ([binary64]); the means pandas takes are exact.  Infinities
      are outside the model: a conversion that overflows raises, as in
      Python, and no other operation of the source is given a result
      beyond the range of a float.
    - A [DataFrame] is its ordered list of column names and its list of rows;
      a row maps column names to cells, a missing entry reads as null.
    - Python exceptions are values of [error]; a function that can raise
      returns a [result].  The fetch script has exceptions of its own
      ([exception], [py]).
    - The library calls the source makes (pandas [sort_values], [groupby],
      [rolling], [rank], [concat]; scikit-learn [MinMaxScaler]) are modelled
      by their documented behaviour.  [KMeans.fit_predict], the string
      parsers ([pd.to_numeric], [float], [int]) and the backend are
      parameters of the development. *)

From Stdlib Require Import ZArith QArith Qcanon Lqa.
From stdpp Require Import base numbers list gmap strings sorting.

Local Open Scope Qc_scope.

(** ** Floats

    The floats are the rationals [m * 2^e] with [|m| < 2^53] and
    [-1074 <= e] (IEEE 754 binary64, without its upper bound), and
    [binary64 x] is the float nearest to [x], a tie going to the even
    mantissa, as every operation on floats rounds. *)

(** The nearest integer, a tie going to the even one. *)
Definition round_half_even (x : Qc) : Z :=
  let n := Qnum x in
  let d := Zpos (Qden x) in
  let q := (n `div` d)%Z in
  let r := (n `mod` d)%Z in
  if bool_decide (2 * r < d)%Z then q
  else if bool_decide (d < 2 * r)%Z then (q + 1)%Z
  else if Z.even q then q else (q + 1)%Z.

Definition pow2 (k : Z) : Qc :=
  if bool_decide (0 ≤ k)%Z then Qc_of_Z (2 ^ k) else / Qc_of_Z (2 ^ (- k)).

(** The integer part of the binary logarithm of a positive number. *)
Definition ilog2 (x : Qc) : Z :=
  let k := (Z.log2 (Qnum x) - Z.log2 (Zpos (Qden x)))%Z in
  if bool_decide (pow2 k ≤ x) then k else (k - 1)%Z.

(** The exponent of the last bit of the float a positive number rounds
    to: 53 bits of mantissa, subnormal below [2^-1022]. *)
Definition float_exponent (x : Qc) : Z := Z.max (ilog2 x - 52) (-1074).

Definition round_positive (x : Qc) : Qc :=
  let e := float_exponent x in
  Qc_of_Z (round_half_even (x / pow2 e)) * pow2 e.

Definition binary64 (x : Qc) : Qc :=
  if bool_decide (0 < x) then round_positive x
  else if bool_decide (x < 0) then - round_positive (- x)
  else 0.

(** The operations [+], [-], [*] on floats. *)
Definition fadd (x y : Qc) : Qc := binary64 (x + y).
Definition fsub (x y : Qc) : Qc := binary64 (x - y).
Definition fmul (x y : Qc) : Qc := binary64 (x * y).

(** [x / y] on numpy floats: dividing by zero gives an infinity or NaN
    (and a warning, no exception), here [None]. *)
Definition fdiv (x y : Qc) : option Qc :=
  if bool_decide (y = 0) then None else Some (binary64 (x / y)).

(** [np.finfo(np.float64).eps]. *)
Definition float_eps : Qc := pow2 (-52).

(** ** Cells, rows, tables *)

Inductive cell : Type :=
  | CNum (q : Qc)
  | CStr (s : string)
  | CNull.

Global Instance cell_eq_dec : EqDecision cell.
Proof. solve_decision. Defined.

Global Instance cell_inhabited : Inhabited cell := populate CNull.

Abbreviation row := (gmap string cell).

Record DataFrame : Type := mkDataFrame {
  columns : list string;
  rows : list row;
}.

Global Instance DataFrame_eq_dec : EqDecision DataFrame.
Proof. solve_decision. Defined.

(** [df[c]] at one row. *)
Definition get (r : row) (c : string) : cell := default CNull (r !! c).

(** The Series [df[c]]. *)
Definition column (c : string) (rs : list row) : list cell :=
  (λ r, get r c) <$> rs.

Definition is_null (c : cell) : bool :=
  match c with CNull => true | _ => false end.

Definition is_str (c : cell) : bool :=
  match c with CStr _ => true | _ => false end.

(** The float value of a numeric cell; [None] stands for NaN. *)
Definition num (c : cell) : option Qc :=
  match c with CNum q => Some q | _ => None end.

Definition of_float (o : option Qc) : cell :=
  match o with Some q => CNum q | None => CNull end.

Definition of_nat (n : nat) : cell := CNum (Qc_of_Z (Z.of_nat n)).

(** ** Exceptions *)

Inductive error : Type :=
  | ValueError (msg : string)
  | KeyError (key : string)
  | TypeError (msg : string)
  | DataError (msg : string).

Inductive result (A : Type) : Type :=
  | Ok (a : A)
  | Raise (e : error).
Arguments Ok {A} a.
Arguments Raise {A} e.

Global Instance result_ret : MRet result := λ A a, Ok a.
Global Instance result_bind : MBind result := λ A B f m,
  match m with Ok a => f a | Raise e => Raise e end.

Global Instance error_eq_dec : EqDecision error.
Proof. solve_decision. Defined.

Global Instance result_eq_dec {A} `{!EqDecision A} : EqDecision (result A).
Proof. solve_decision. Defined.

Definition raises {A} (m : result A) : Prop :=
  match m with Ok _ => False | Raise _ => True end.

(** ** Column assignment *)

Definition has_column (df : DataFrame) (c : string) : bool :=
  bool_decide (c ∈ columns df).

(** The column index after [df[c] = ...]: a new name goes last. *)
Definition add_column (c : string) (cols : list string) : list string :=
  if bool_decide (c ∈ cols) then cols else cols ++ [c].

(** [df[c] = v] for a scalar [v]. *)
Definition set_column_const (c : string) (v : cell) (df : DataFrame) : DataFrame :=
  {| columns := add_column c (columns df);
     rows := (λ r, <[c := v]> r) <$> rows df |}.

(** [df[dst] = f(row)], a column computed row by row; [df[dst] = df[src]]
    is [set_column_with dst (λ r, get r src)]. *)
Definition set_column_with (dst : string) (f : row → cell) (df : DataFrame) : DataFrame :=
  {| columns := add_column dst (columns df);
     rows := (λ r, <[dst := f r]> r) <$> rows df |}.

(** [df[c] = values] for an array of values: pandas raises when the lengths
    differ. *)
Definition set_column_list (c : string) (vs : list cell) (df : DataFrame) : result DataFrame :=
  if bool_decide (length vs = length (rows df))
  then Ok {| columns := add_column c (columns df);
             rows := zip_with (λ r v, <[c := v]> r) (rows df) vs |}
  else Raise (ValueError "Length of values does not match length of index").

(** ** Ordering of cells and [sort_values]

    Numbers are ordered by value, strings as Python orders [str] (by code
    point, here by byte), and nulls go last ([na_position="last"]).  With
    more than one key [sort_values] orders each key column through its
    sorted distinct values, which puts numbers before strings in a column
    that mixes them, and does not raise.  [Series.max] on such a column
    does raise [TypeError] ([homogeneous]). *)

Definition cell_leb (a b : cell) : bool :=
  match a, b with
  | _, CNull => true
  | CNull, _ => false
  | CNum x, CNum y => bool_decide (x ≤ y)
  | CNum _, CStr _ => true
  | CStr _, CNum _ => false
  | CStr s, CStr t => String.leb s t
  end.

Definition homogeneous (col : list cell) : bool :=
  forallb (λ c, negb (is_str c)) col || forallb (λ c, is_str c || is_null c) col.

(** Lexicographic comparison of two rows on the sort keys. *)
Fixpoint lex_leb (keys : list string) (r1 r2 : row) : bool :=
  match keys with
  | [] => true
  | k :: keys =>
    if bool_decide (get r1 k = get r2 k) then lex_leb keys r1 r2
    else cell_leb (get r1 k) (get r2 k)
  end.

(** A stable sort: [x] goes before the first element it is not greater
    than, so rows with equal keys keep their order ([np.lexsort]). *)
Fixpoint insert_sorted {A} (leb : A → A → bool) (x : A) (l : list A) : list A :=
  match l with
  | [] => [x]
  | y :: l' => if leb x y then x :: l else y :: insert_sorted leb x l'
  end.

Definition stable_sort {A} (leb : A → A → bool) (l : list A) : list A :=
  foldr (insert_sorted leb) [] l.

Definition require_column (c : string) (df : DataFrame) : result unit :=
  if has_column df c then Ok () else Raise (KeyError c).

Fixpoint require_columns (cs : list string) (df : DataFrame) : result unit :=
  match cs with
  | [] => Ok ()
  | c :: cs => _ ← require_column c df; require_columns cs df
  end.

Definition sort_values (keys : list string) (df : DataFrame) : result DataFrame :=
  _ ← require_columns keys df;
  Ok {| columns := columns df; rows := stable_sort (lex_leb keys) (rows df) |}.

(** ** Means, rolling windows and [groupby(...).transform] *)

Definition sum_list (xs : list Qc) : Qc := foldr Qcplus 0 xs.

Definition mean_list (xs : list Qc) : Qc :=
  sum_list xs / Qc_of_Z (Z.of_nat (length xs)).

(** The mean of the non-null values of a Series; NaN when there is none
    ([skipna=True]). *)
Definition nanmean (xs : list cell) : cell :=
  match omap num xs with
  | [] => CNull
  | vs => CNum (mean_list vs)
  end.

(** The last [w] entries of a list (all of it when it is shorter). *)
Definition trailing {A} (w : nat) (l : list A) : list A :=
  drop (length l - w) l.

(** [x.rolling(window=w, min_periods=1).mean()]: at position [i] the mean
    of the non-null values among the last [w] entries up to [i]. *)
Definition rolling_mean (w : nat) (xs : list cell) : list cell :=
  imap (λ i _, nanmean (trailing w (take (S i) xs))) xs.

(** [df.groupby(key)[val].transform(f)]: [f] is applied to the Series of
    each group (the values of the rows with one key, in table order) and
    its results are put back at the rows of the group.  Rows with a null
    key belong to no group and get NaN.  [transform_groups] works on the
    (key, value) pairs of the rows. *)
Definition transform_groups (f : list cell → list cell) (kvs : list (cell * cell))
    : list cell :=
  imap (λ i kv,
    if is_null kv.1 then CNull
    else
      let group := filter (λ p, p.1 = kv.1) kvs in
      let pos := length (filter (λ p, p.1 = kv.1) (take i kvs)) in
      default CNull (f (snd <$> group) !! pos)) kvs.

Definition groupby_transform (key val : string) (f : list cell → list cell)
    (rs : list row) : list cell :=
  transform_groups f ((λ r, (get r key, get r val)) <$> rs).

(** [Series.nunique()]: the number of distinct non-null values. *)
Definition nunique (col : list cell) : nat :=
  length (remove_dups (filter (λ c, is_null c = false) col)).

(** ** [MinMaxScaler().fit_transform]

    Per column, in float arithmetic: [data_min] and [data_max] ignore NaN,
    [data_range] is their difference, [scale_] is [1 / data_range] with a
    range below [10 * eps] (a constant column) replaced by 1, [min_] is
    [0 - data_min * scale_], and a value [x] becomes [x * scale_ + min_];
    NaN stays NaN.  An array with no sample or with a string raises. *)

Definition Qcmin (a b : Qc) : Qc := if bool_decide (a ≤ b) then a else b.
Definition Qcmax (a b : Qc) : Qc := if bool_decide (a ≤ b) then b else a.

Definition nanmin (col : list (option Qc)) : option Qc :=
  match omap id col with
  | [] => None
  | v :: vs => Some (foldl Qcmin v vs)
  end.

Definition nanmax (col : list (option Qc)) : option Qc :=
  match omap id col with
  | [] => None
  | v :: vs => Some (foldl Qcmax v vs)
  end.

(** [_handle_zeros_in_scale] on an array of ranges: a range below
    [10 * eps] counts as zero and is replaced by 1. *)
Definition handle_zeros_in_scale (range : Qc) : Qc :=
  if bool_decide (range < Qc_of_Z 10 * float_eps) then 1 else range.

Definition scale_column (col : list (option Qc)) : list (option Qc) :=
  let data_min := nanmin col in
  let data_max := nanmax col in
  let data_range := hi ← data_max; lo ← data_min; Some (fsub hi lo) in
  let scale_ := rg ← data_range; fdiv 1 (handle_zeros_in_scale rg) in
  let min_ := lo ← data_min; s ← scale_; Some (fsub 0 (fmul lo s)) in
  (λ x, x ← x; s ← scale_; m ← min_; Some (fadd (fmul x s) m)) <$> col.

(** The rows of an array given by its columns. *)
Definition rows_of_columns {A} (n : nat) (cols : list (list (option A)))
    : list (list (option A)) :=
  (λ i, (λ col, default None (col !! i)) <$> cols) <$> seq 0 n.

Definition fit_transform (n_samples : nat) (features : list (list cell))
    : result (list (list (option Qc))) :=
  if existsb (existsb is_str) features
  then Raise (ValueError "could not convert string to float")
  else if bool_decide (n_samples = 0%nat)
  then Raise (ValueError "Found array with 0 sample(s) while a minimum of 1 is required by MinMaxScaler")
  else Ok (rows_of_columns n_samples (scale_column <$> (fmap num <$> features))).

(** ** More of pandas: comparisons, imputation, group means, ranks, maxima,
    projection and concatenation *)

(** [gt(0)] on one cell: NaN compares false. *)
Definition gt0 (c : cell) : bool :=
  match c with CNum q => bool_decide (0 < q) | _ => false end.

(** [features.fillna(features.mean(numeric_only=True))] on one column: a
    column with no value has mean NaN and stays as it is. *)
Definition fillna_mean (col : list cell) : list cell :=
  let m := nanmean col in
  (λ x, if is_null x then m else x) <$> col.

(** The keys of [df.groupby("cluster")]: the labels that occur, ascending. *)
Definition realized (labels : list nat) : list nat :=
  filter (λ k, k ∈ labels) (seq 0 (S (max_list labels))).

(** The rows of one cluster. *)
Definition members (k : nat) (labels : list nat) (rs : list row) : list row :=
  snd <$> filter (λ p, p.1 = k) (zip labels rs).

(** [df.groupby("cluster")[feature_cols].mean()]: one line per realized
    cluster, the mean of each feature column of [df] over its rows. *)
Definition cluster_mean_row (feature_cols : list string) (labels : list nat)
    (rs : list row) (k : nat) : list cell :=
  (λ c, nanmean (column c (members k labels rs))) <$> feature_cols.

Definition cluster_means (feature_cols : list string) (labels : list nat)
    (rs : list row) : list (list cell) :=
  cluster_mean_row feature_cols labels rs <$> realized labels.

(** One line of [cluster_means.dot(weights)]; NaN propagates. *)
Definition dot (means : list cell) (weights : list Qc) : cell :=
  of_float (foldr (λ p acc, m ← num p.1; a ← acc; Some (m * p.2 + a))
                  (Some 0) (zip means weights)).

(** [Series.rank(method="first", ascending=True)]: one more than the number
    of smaller values, plus the number of equal values that come before. *)
Definition rank_first (ss : list Qc) : list nat :=
  imap (λ i s, S (length (filter (λ t, Qclt t s) ss)
                  + length (filter (λ t, t = s) (take i ss)))) ss.

(** [.astype(int)] after [rank]: a NaN score has a NaN rank, which cannot
    be cast. *)
Fixpoint finite_scores (ss : list cell) : result (list Qc) :=
  match ss with
  | [] => Ok []
  | s :: ss =>
    match num s with
    | Some q => qs ← finite_scores ss; Ok (q :: qs)
    | None => Raise (ValueError "Cannot convert non-finite values (NA or inf) to integer")
    end
  end.

(** [df["cluster"].map(lambda x: int(cluster_rank[x]))]. *)
Fixpoint map_rank (cluster_rank : gmap nat nat) (labels : list nat) : result (list nat) :=
  match labels with
  | [] => Ok []
  | x :: labels =>
    match cluster_rank !! x with
    | Some l => ls ← map_rank cluster_rank labels; Ok (l :: ls)
    | None => Raise (KeyError "cluster")
    end
  end.

(** [Series.max()]: the largest non-null value, NaN when there is none. *)
Definition series_max (col : list cell) : cell :=
  foldr (λ c m, if is_null c then m
                else if is_null m then c
                else if cell_leb m c then c else m) CNull col.

(** [df[cols]] at one row. *)
Definition reindex (cols : list string) (r : row) : row :=
  list_to_map ((λ c, (c, get r c)) <$> cols).

(** [pd.concat([a, b], ignore_index=True)]: the columns of [a], then those
    of [b] that [a] lacks; the rows of [a], then the rows of [b]; a cell of
    a column a table lacks is null. *)
Definition concat (a b : DataFrame) : DataFrame :=
  let cols := columns a ++ filter (λ c, c ∉ columns a) (columns b) in
  {| columns := cols;
     rows := (reindex cols <$> rows a) ++ (reindex cols <$> rows b) |}.

(** ** weighted_heat_risk_pipeline.py

    [prepare_features] is embedded in three parts, [smooth] (lines 51-58),
    [derive] (lines 60-61) and [select_features] (lines 63-69), followed by
    the imputation and the scaler (lines 71-74).  The severity score of a
    cluster is computed as the source does (lines 92-93): from the means of
    the feature columns of the table, which are not scaled; the scaled array
    is what [fit_predict] receives. *)

Module weighted_heat_risk_pipeline.

(** *** [load_data] (lines 25-39)

    The argument of the embedded function is the table [pd.read_csv]
    returned (line 27); reading the file is outside the embedding. *)

Definition required_columns : list string :=
  ["barangay_id"; "date"; "temperature"; "facility_distance"].

Definition load_data (df : DataFrame) : result DataFrame :=
  match List.find (λ col, negb (has_column df col)
                          && negb (String.eqb col "facility_distance"))
                  required_columns with
  | Some col => Raise (ValueError ("Missing required column: " +:+ col))
  | None =>
    df ← (if negb (has_column df "facility_distance") && has_column df "facility_score"
          then Ok (set_column_with "facility_distance" (λ r, get r "facility_score") df)
          else if negb (has_column df "facility_distance")
          then Raise (ValueError "Missing column: facility_distance or facility_score")
          else Ok df);
    let df := if negb (has_column df "density")
              then set_column_const "density" (CNum 0) df else df in
    let df := if negb (has_column df "population")
              then set_column_const "population" (CNum 0) df else df in
    Ok df
  end.

Definition canonical_columns : list string :=
  ["barangay_id"; "date"; "temperature"; "facility_distance"; "population"; "density"].

Definition sort_keys : list string := ["barangay_id"; "date"].

Section Pipeline.

(** The parser [pd.to_numeric] applies to a string: its number, or [None]
    for a string that is not one. *)
Variable parse_float : string → option Qc.

(** [KMeans(n_clusters, random_state).fit_predict]: one label per sample,
    or an exception (for instance on NaN or on fewer samples than
    clusters). *)
Variable fit_predict : nat → Z → list (list (option Qc)) → result (list nat).

(** [pd.to_numeric(x, errors="coerce")] followed by [fillna(0)], on one cell. *)
Definition to_numeric_fillna0 (c : cell) : cell :=
  match c with
  | CNum q => CNum q
  | CStr s => match parse_float s with Some q => CNum q | None => CNum 0 end
  | CNull => CNum 0
  end.

Definition third : Qc := 1 / Qc_of_Z 3.
Definition half : Qc := Q2Qc (1 # 2).

(** Lines 51-58: sort, then the rolling mean of each unit or the raw
    temperature.  The function handed to [transform] runs once for each
    group, the rows of one unit id: where no row has a unit id it never
    runs, and neither the window nor the temperatures are looked at. *)
Definition smooth (df : DataFrame) (use_rolling : bool) (window : Z) : result DataFrame :=
  df ← sort_values sort_keys df;
  if use_rolling && bool_decide (1 < nunique (column "date" (rows df)))%nat
  then
    _ ← require_column "temperature" df;
    let grouped := filter (λ r, is_null (get r "barangay_id") = false) (rows df) in
    if bool_decide (grouped ≠ []) && bool_decide (window < 1)%Z
    then Raise (ValueError "min_periods 1 must be <= window")
    else if existsb is_str (column "temperature" grouped)
    then Raise (DataError "No numeric types to aggregate")
    else set_column_list "temp_rolling"
           (groupby_transform "barangay_id" "temperature"
              (rolling_mean (Z.to_nat window)) (rows df)) df
  else
    _ ← require_column "temperature" df;
    Ok (set_column_with "temp_rolling" (λ r, get r "temperature") df).

(** Lines 60-61: the facility feature and the density coercion. *)
Definition derive (df : DataFrame) : result DataFrame :=
  _ ← require_column "facility_distance" df;
  let df := set_column_with "facility_score" (λ r, get r "facility_distance") df in
  _ ← require_column "density" df;
  Ok (set_column_with "density" (λ r, to_numeric_fillna0 (get r "density")) df).

(** The two assignments of [derive], seen from one row. *)
Definition derive_row (r : row) : row :=
  <["density" := to_numeric_fillna0 (get r "density")]>
    (<["facility_score" := get r "facility_distance"]> r).

(** Lines 63-69: the feature set and its weights, one choice for the run. *)
Definition has_density (df : DataFrame) : bool :=
  existsb gt0 (column "density" (rows df)).

Definition select_features (df : DataFrame) : list string * list Qc :=
  if has_density df
  then (["temp_rolling"; "facility_score"; "density"], [third; third; third])
  else (["temp_rolling"; "facility_score"], [half; half]).

(** The imputed feature columns handed to the scaler (lines 71-72). *)
Definition feature_columns (feature_cols : list string) (df : DataFrame) : list (list cell) :=
  (λ c, fillna_mean (column c (rows df))) <$> feature_cols.

Definition prepare_features (df : DataFrame) (use_rolling : bool) (window : Z)
    : result (DataFrame * list (list (option Qc)) * list string * list Qc) :=
  df ← smooth df use_rolling window;
  df ← derive df;
  let '(feature_cols, weights) := select_features df in
  let features := feature_columns feature_cols df in
  features_scaled ← fit_transform (length (rows df)) features;
  Ok (df, features_scaled, feature_cols, weights).

(** *** [run_kmeans_and_risk_levels] (lines 79-97) *)

Definition severity_scores (feature_cols : list string) (weights : list Qc)
    (labels : list nat) (rs : list row) : list cell :=
  (λ means, dot means weights) <$> cluster_means feature_cols labels rs.

(** Lines 92-95 on the labelled table. *)
Definition risk_levels (feature_cols : list string) (weights : list Qc)
    (labels : list nat) (df : DataFrame) : result (list nat) :=
  _ ← require_columns feature_cols df;
  if existsb (λ c, existsb is_str (column c (rows df))) feature_cols
  then Raise (TypeError "agg function failed [how->mean,dtype->object]")
  else if negb (bool_decide (length feature_cols = length weights))
  then Raise (ValueError "shapes not aligned")
  else
    scores ← finite_scores (severity_scores feature_cols weights labels (rows df));
    let cluster_rank : gmap nat nat :=
      list_to_map (zip (realized labels) (rank_first scores)) in
    map_rank cluster_rank labels.

Definition run_kmeans_and_risk_levels (df : DataFrame)
    (features_scaled : list (list (option Qc))) (feature_cols : list string)
    (weights : list Qc) (n_clusters : nat) (random_state : Z) : result DataFrame :=
  labels ← fit_predict n_clusters random_state features_scaled;
  df ← set_column_list "cluster" (of_nat <$> labels) df;
  levels ← risk_levels feature_cols weights labels df;
  set_column_list "risk_level" (of_nat <$> levels) df.

(** *** [main]: the latest-date extract (lines 140-141) *)

Definition report_columns : list string := ["barangay_id"; "risk_level"; "cluster"].

Definition latest_rows (rs : list row) : list row :=
  let latest_date := series_max (column "date" rs) in
  filter (λ r, get r "date" = latest_date ∧ is_null (get r "date") = false) rs.

Definition latest_extract (df : DataFrame) : result DataFrame :=
  _ ← require_column "date" df;
  if negb (homogeneous (column "date" (rows df)))
  then Raise (TypeError "'>=' not supported between instances of 'str' and 'float'")
  else
    _ ← require_columns report_columns df;
    Ok {| columns := report_columns;
          rows := reindex report_columns <$> latest_rows (rows df) |}.

(** [main], from the loaded table (line 132) to the table written to
    [--output] (line 142). *)
Definition main (df : DataFrame) (no_rolling : bool) (window : Z) (clusters : nat)
    : result DataFrame :=
  df ← load_data df;
  '(df, features_scaled, feature_cols, weights) ← prepare_features df (negb no_rolling) window;
  df ← run_kmeans_and_risk_levels df features_scaled feature_cols weights clusters 42%Z;
  latest_extract df.

End Pipeline.

End weighted_heat_risk_pipeline.

(** ** fetch_pipeline_data.py

    The requests of the script are answered by a [Backend], a parameter of
    the embedding; the getters and [main] are functions of it that return a
    value or raise ([py]).  Printing is left out.  [main] is embedded in two
    parts: [main_rows], up to the table of today's rows (lines 146-238), and
    [main], the end that appends and writes (lines 238-252). *)

Module fetch_pipeline_data.

(** *** The values [r.json()] returns

    [None], a [bool], an [int], a [float], a [str], a [list] or a [dict].
    A [dict] is the list of its items in insertion order.  An [int] is
    unbounded, as in Python.  A [float] is its exact value, as everywhere
    in this development, and finite: an answer in which Python reads NaN
    or an infinity (the literals [NaN] and [Infinity], a float literal
    beyond the range) is outside the model. *)

Inductive json : Type :=
  | JNull
  | JBool (b : bool)
  | JInt (n : Z)
  | JFloat (x : Qc)
  | JStr (s : string)
  | JList (l : list json)
  | JDict (d : list (string * json)).

(** A [dict] with [str] keys. *)
Abbreviation dict V := (list (string * V)).

(** [d.get(k)] on a dict. *)
Fixpoint dict_get {V} (d : dict V) (k : string) : option V :=
  match d with
  | [] => None
  | (k', v) :: d => if bool_decide (k' = k) then Some v else dict_get d k
  end.

(** [d[k] = v]: the value of a key that is there is replaced in place, a
    new key goes last. *)
Fixpoint dict_set {V} (d : dict V) (k : string) (v : V) : dict V :=
  match d with
  | [] => [(k, v)]
  | (k', v') :: d =>
    if bool_decide (k' = k) then (k', v) :: d else (k', v') :: dict_set d k v
  end.

Definition keys {V} (d : dict V) : list string := fst <$> d.

(** *** Exceptions

    [RequestException] stands for every exception of that class that is
    not a [JSONDecodeError]: connection errors, timeouts and the
    [HTTPError] of [raise_for_status].  The [JSONDecodeError] of
    [r.json()] is a [ValueError]; since requests 2.27 it is a
    [RequestException] as well, which the [except] clauses of the script
    tell apart, so the version is a parameter
    ([json_error_is_request_exception]). *)

Inductive exception : Type :=
  | RequestException
  | JSONDecodeError
  | AttributeError
  | TypeError
  | ValueError
  | ZeroDivisionError
  | OverflowError.

#[global] Instance exception_eq_dec : EqDecision exception.
Proof. solve_decision. Defined.

Inductive py (A : Type) : Type :=
  | Value (a : A)
  | Except (e : exception).
Arguments Value {A} a.
Arguments Except {A} e.

#[global] Instance py_ret : MRet py := λ A a, Value a.
#[global] Instance py_bind : MBind py := λ A B f m,
  match m with Value a => f a | Except e => Except e end.

(** [try: m  except <caught>: handler]. *)
Definition try_except {A} (m : py A) (caught : exception → bool) (handler : py A) : py A :=
  match m with
  | Value a => Value a
  | Except e => if caught e then handler else Except e
  end.

(** A [for] loop over a list that updates a state and may raise. *)
Fixpoint for_each {A S} (body : S → A → py S) (s : S) (l : list A) : py S :=
  match l with
  | [] => Value s
  | a :: l => s ← body s a; for_each body s l
  end.

(** A list comprehension whose element expression may raise. *)
Fixpoint comprehension {A B} (f : A → py B) (l : list A) : py (list B) :=
  match l with
  | [] => Value []
  | a :: l => b ← f a; bs ← comprehension f l; Value (b :: bs)
  end.

(** *** Python builtins on JSON values *)

(** Truth value: [None], [False], zero and empty containers are false. *)
Definition py_bool (v : json) : bool :=
  match v with
  | JNull => false
  | JBool b => b
  | JInt n => negb (bool_decide (n = 0%Z))
  | JFloat x => negb (bool_decide (x = 0))
  | JStr s => negb (bool_decide (s = EmptyString))
  | JList l => match l with [] => false | _ => true end
  | JDict d => match d with [] => false | _ => true end
  end.

(** [a or b]. *)
Definition py_or (a b : json) : json := if py_bool a then a else b.

(** [v.get(k, default)]: only a dict has the method. *)
Definition py_get (v : json) (k : string) (default_ : json) : py json :=
  match v with
  | JDict d => Value (default default_ (dict_get d k))
  | _ => Except AttributeError
  end.

(** [v.items()]. *)
Definition py_items (v : json) : py (dict json) :=
  match v with
  | JDict d => Value d
  | _ => Except AttributeError
  end.

(** [isinstance(v, (int, float))]; a [bool] is an [int]. *)
Definition is_int_or_float (v : json) : bool :=
  match v with
  | JBool _ | JInt _ | JFloat _ => true
  | _ => false
  end.

(** [isinstance(v, dict)]. *)
Definition is_dict (v : json) : bool :=
  match v with JDict _ => true | _ => false end.

(** [round(x, ndigits)] on a float: the float nearest to the nearest
    multiple of [10^-ndigits] of its exact value, a tie going to the even
    multiple. *)
Definition py_round (x : Qc) (ndigits : nat) : Qc :=
  let scale := Qc_of_Z (10 ^ Z.of_nat ndigits) in
  binary64 (Qc_of_Z (round_half_even (x * scale)) / scale).

(** The conversion of an [int] to a [float]: the nearest float, and
    [OverflowError] when that is beyond the largest one. *)
Definition float_of_int (n : Z) : py Qc :=
  let x := binary64 (Qc_of_Z n) in
  if bool_decide (pow2 1024 ≤ x) || bool_decide (x ≤ - pow2 1024)
  then Except OverflowError
  else Value x.

(** *** The backend

    One answer per request the script can send.  [requests.get] and
    [requests.post] return a response, which has a status code and a body
    that is JSON or not, or raise a [RequestException] (no connection, a
    timeout): an answer is [None] then. *)

Record Response : Type := mkResponse {
  status_code : Z;
  body : option json;
}.

Record Backend : Type := mkBackend {
  barangay_temperatures : option Response;
  barangay_heat_risk : option Response;
  facilities_by_barangay : string → option Response;
  counts_by_barangays : list string → option Response;
  barangay_population : option Response;
}.

(** [requests.get(url, ...)] and [requests.post(url, ...)]. *)
Definition request (answer : option Response) : py Response :=
  match answer with
  | Some r => Value r
  | None => Except RequestException
  end.

(** [r.raise_for_status()]: [HTTPError] for a status from 400 to 599. *)
Definition raise_for_status (r : Response) : py unit :=
  if bool_decide (400 ≤ status_code r < 600)%Z then Except RequestException else Value ().

(** [r.json()]. *)
Definition json_of (r : Response) : py json :=
  match body r with
  | Some v => Value v
  | None => Except JSONDecodeError
  end.

Section Script.

(** [float(s)] and [int(s)] on a string: the number, or [None] where
    Python raises [ValueError]. *)
Variable float_of_str : string → option Qc.
Variable int_of_str : string → option Z.

(** Whether the installed requests makes [JSONDecodeError] a
    [RequestException] (2.27 and later). *)
Variable json_error_is_request_exception : bool.

(** The order in which [as_completed] yields the futures of the given
    barangay ids: a permutation of them, chosen by the scheduler. *)
Variable as_completed : list string → list string.

(** [datetime.now(timezone.utc).strftime("%Y-%m-%d")]. *)
Variable today : string.

Variable backend : Backend.

(** [float(v)]. *)
Definition py_float (v : json) : py Qc :=
  match v with
  | JBool b => Value (if b then 1 else 0)
  | JInt n => float_of_int n
  | JFloat x => Value x
  | JStr s => match float_of_str s with Some x => Value x | None => Except ValueError end
  | JNull | JList _ | JDict _ => Except TypeError
  end.

(** [int(v)]; a float is truncated towards zero. *)
Definition py_int (v : json) : py Z :=
  match v with
  | JBool b => Value (if b then 1 else 0)%Z
  | JInt n => Value n
  | JFloat x => Value (Qnum x ÷ Zpos (Qden x))%Z
  | JStr s => match int_of_str s with Some n => Value n | None => Except ValueError end
  | JNull | JList _ | JDict _ => Except TypeError
  end.

(** The classes an [except] clause names. *)
Definition is_RequestException (e : exception) : bool :=
  match e with
  | RequestException => true
  | JSONDecodeError => json_error_is_request_exception
  | _ => false
  end.

Definition is_TypeError_or_ValueError (e : exception) : bool :=
  match e with
  | TypeError | ValueError | JSONDecodeError => true
  | _ => false
  end.

(** *** [get_barangay_temperatures] (lines 28-35) *)

Definition get_barangay_temperatures : py (dict Qc) :=
  r ← request (barangay_temperatures backend);
  _ ← raise_for_status r;
  data ← json_of r;
  t ← py_get data "temperatures" JNull;
  items ← py_items (py_or t (JDict []));
  for_each (λ out kv,
              match kv.2 with
              | JNull => Value out
              | v => x ← py_float v; Value (dict_set out kv.1 x)
              end) [] items.

(** *** [get_barangay_heat_risk] (lines 38-64) *)

(** One turn of the loop over [risks.items()]. *)
Definition heat_risk_entry (state : dict Qc * bool) (item : string * json)
    : py (dict Qc * bool) :=
  let '(out, used_hi) := state in
  let '(bid, risk) := item in
  if negb (is_dict risk) then Value (out, used_hi)
  else
    hi ← py_get risk "heat_index_c" JNull;
    temp ← py_get risk "temp_c" JNull;
    if is_int_or_float hi
    then x ← py_float hi; Value (dict_set out bid x, true)
    else if is_int_or_float temp
    then x ← py_float temp; Value (dict_set out bid x, used_hi)
    else Value (out, used_hi).

Definition get_barangay_heat_risk : py (dict Qc * bool * json) :=
  r ← request (barangay_heat_risk backend);
  _ ← raise_for_status r;
  data ← json_of r;
  rk ← py_get data "risks" JNull;
  items ← py_items (py_or rk (JDict []));
  '(out, used_hi) ← for_each heat_risk_entry ([], false) items;
  meta ← py_get data "meta" JNull;
  source ← py_get (py_or meta (JDict [])) "temperaturesSource" JNull;
  Value (out, used_hi, py_or source (JStr "")).

(** *** [get_facility_count] (lines 67-75) *)

Definition get_facility_count (barangay_id : string) : py Z :=
  r ← request (facilities_by_barangay backend barangay_id);
  if bool_decide (status_code r = 404%Z) then Value 0%Z
  else
    _ ← raise_for_status r;
    data ← json_of r;
    total ← py_get data "total" JNull;
    py_int (py_or total (JInt 0)).

(** *** [get_facility_counts_batch] (lines 78-85) *)

Definition get_facility_counts_batch (barangay_ids : list string) : py (dict Z) :=
  r ← request (counts_by_barangays backend barangay_ids);
  _ ← raise_for_status r;
  data ← json_of r;
  c ← py_get data "counts" JNull;
  items ← py_items (py_or c (JDict []));
  for_each (λ out kv, n ← py_int kv.2; Value (dict_set out kv.1 n)) [] items.

(** *** [facility_count_to_distance] (lines 88-90) *)

Definition facility_count_to_distance (facility_count : Z) : py Qc :=
  count ← float_of_int facility_count;
  let denominator := fadd 1 count in
  if bool_decide (denominator = 0) then Except ZeroDivisionError
  else Value (binary64 (1 / denominator)).

(** *** [get_barangay_population_density] (lines 93-112)

    The inner dicts [{"population": pop, "density": dens}] are pairs. *)

Definition population_entry (v : json) : py (Z * Qc) :=
  if negb (is_dict v) then Value (0%Z, 0)
  else
    try_except
      (p ← py_get v "population" (JInt 0);
       pop ← py_int (py_or p (JInt 0));
       d ← py_get v "density" (JInt 0);
       dens ← py_float (py_or d (JInt 0));
       Value (pop, dens))
      is_TypeError_or_ValueError
      (Value (0%Z, 0)).

Definition get_barangay_population_density : py (dict (Z * Qc)) :=
  r ← request (barangay_population backend);
  _ ← raise_for_status r;
  data ← json_of r;
  if negb (is_dict data) then Value []
  else
    items ← py_items data;
    for_each (λ out kv, e ← population_entry kv.2; Value (dict_set out kv.1 e)) [] items.

(** *** [main], up to the table of today's rows (lines 146-238) *)

Definition fetch_heat : py (dict Qc * bool * json) :=
  try_except get_barangay_heat_risk is_RequestException (Value ([], false, JStr "")).

Definition fetch_population : py (dict (Z * Qc)) :=
  try_except get_barangay_population_density
    (λ e, is_RequestException e || bool_decide (e = AttributeError)
          || is_TypeError_or_ValueError e)
    (Value []).

Definition fetch_one (bid : string) : py (string * Z) :=
  try_except (n ← get_facility_count bid; Value (bid, n))
             is_RequestException (Value (bid, 0%Z)).

(** Lines 199-224: the batch request, or one request per barangay when
    the batch request raises a [RequestException]. *)
Definition facility_counts_of (barangay_ids : list string) : py (dict Z) :=
  match get_facility_counts_batch barangay_ids with
  | Value facility_counts =>
    if bool_decide (length facility_counts < length barangay_ids)%nat
    then Value (foldl (λ fc bid, if bool_decide (bid ∈ keys fc) then fc
                                 else dict_set fc bid 0%Z)
                      facility_counts barangay_ids)
    else Value facility_counts
  | Except e =>
    if is_RequestException e
    then for_each (λ fc bid, '(barangay_id, count) ← fetch_one bid;
                             Value (dict_set fc barangay_id count))
                  [] (as_completed barangay_ids)
    else Except e
  end.

(** One dict of the list [rows] (lines 226-236), as the list of its items. *)
Definition record (facility_counts : dict Z) (population_density : dict (Z * Qc))
    (item : string * Qc) : py (list (string * cell)) :=
  let '(barangay_id, temp) := item in
  distance ← facility_count_to_distance (default 0%Z (dict_get facility_counts barangay_id));
  let population := default 0%Z (fst <$> dict_get population_density barangay_id) in
  let density := default 0 (snd <$> dict_get population_density barangay_id) in
  Value [("barangay_id", CStr barangay_id);
         ("date", CStr today);
         ("temperature", CNum (py_round temp 2));
         ("facility_distance", CNum (py_round distance 6));
         ("population", CNum (Qc_of_Z population));
         ("density", CNum (py_round density 4))].

(** [pd.DataFrame(rows)] for a list of dicts: one row per dict, the
    columns being the keys in the order of their first appearance. *)
Definition DataFrame_of_records (records : list (list (string * cell))) : DataFrame :=
  {| columns := foldl (λ cols k, add_column k cols) [] (mjoin (fmap fst <$> records));
     rows := list_to_map <$> records |}.

(** The result is [None] where [main] returns 1 without writing a file. *)
Definition main_rows : py (option DataFrame) :=
  '(temperatures, used_heat_index, temperatures_source) ← fetch_heat;
  population_density ← fetch_population;
  fetched ← (match temperatures with
             | [] => try_except (t ← get_barangay_temperatures; Value (Some t))
                                is_RequestException (Value None)
             | _ => Value (Some temperatures)
             end);
  match fetched with
  | None => Value None
  | Some [] => Value None
  | Some temperatures =>
    let barangay_ids := keys temperatures in
    facility_counts ← facility_counts_of barangay_ids;
    rows ← comprehension (record facility_counts population_density) temperatures;
    Value (Some (DataFrame_of_records rows))
  end.

End Script.

(** The loop [for c in df.columns: if c not in existing.columns:
    existing[c] = pd.NA]. *)
Definition add_missing_columns (new_cols : list string) (existing : DataFrame) : DataFrame :=
  foldl (λ ex c, if has_column ex c then ex else set_column_const c CNull ex)
        existing new_cols.

(** The end of [main] (lines 238-252), from the table [df] of today's rows
    to the table written: [append] is [None] without [--append] (the
    snapshot goes to [--output]), and otherwise holds the table read from
    the append path, if that file exists. *)
Definition main (append : option (option DataFrame)) (df : DataFrame) : DataFrame :=
  match append with
  | Some (Some existing) => concat (add_missing_columns (columns df) existing) df
  | Some None => df
  | None => df
  end.

End fetch_pipeline_data.

Import weighted_heat_risk_pipeline.

(** ** Notions used by the statements *)

(** The schema [load_data] accepts. *)
Definition schema_ok (df : DataFrame) : Prop :=
  "barangay_id" ∈ columns df ∧ "date" ∈ columns df ∧ "temperature" ∈ columns df ∧
  ("facility_distance" ∈ columns df ∨ "facility_score" ∈ columns df).

(** A table with its [facility_score] entries forgotten. *)
Definition erase (r : row) : row := delete "facility_score" r.

Definition erase_df (df : DataFrame) : DataFrame :=
  {| columns := columns df; rows := erase <$> rows df |}.

Definition map_result {A B} (f : A → B) (m : result A) : result B :=
  match m with Ok a => Ok (f a) | Raise e => Raise e end.

(** A check of what a call returned; [false] when it raised. *)
Definition returned {A} (m : result A) (check : A → bool) : bool :=
  match m with Ok a => check a | Raise _ => false end.

Definition py_returned {A} (m : fetch_pipeline_data.py A) (check : A → bool) : bool :=
  match m with fetch_pipeline_data.Value a => check a | fetch_pipeline_data.Except _ => false end.

(** A cell that holds a number. *)
Definition is_number (c : cell) : Prop := ∃ q, c = CNum q.

(** The unit and the date of a row; how many rows of unit [u] carry the
    latest date, from these pairs alone. *)
Definition unit_date (r : row) : cell * cell := (get r "barangay_id", get r "date").

Definition latest_count (u : cell) (uds : list (cell * cell)) : nat :=
  length (filter (λ p, p.1 = u ∧ p.2 = series_max (snd <$> uds) ∧ is_null p.2 = false) uds).


(** *** The answers of the backend *)

(** The integers Python converts to a float: those below [2^1024 - 2^970]
    in absolute value, from where on the nearest float would be [2^1024]. *)
Definition int_fits_float (n : Z) : bool :=
  bool_decide (Z.abs n < 2 ^ 1024 - 2 ^ 970)%Z.

(** The value the loop of [get_barangay_heat_risk] converts for one entry
    of [risks] (lines 52-62): the heat index if it is an [int] or a
    [float] (a [bool] is an [int]), else the air temperature if it is one,
    else none. *)
Definition chosen_number (risk : fetch_pipeline_data.json)
    : option fetch_pipeline_data.json :=
  match risk with
  | fetch_pipeline_data.JDict d =>
    let hi := default fetch_pipeline_data.JNull
                      (fetch_pipeline_data.dict_get d "heat_index_c") in
    let temp := default fetch_pipeline_data.JNull
                        (fetch_pipeline_data.dict_get d "temp_c") in
    if fetch_pipeline_data.is_int_or_float hi then Some hi
    else if fetch_pipeline_data.is_int_or_float temp then Some temp
    else None
  | _ => None
  end.

(** *** Calendar days

    The day number of an ISO date [YYYY-MM-DD] (days since 1970-01-01), to
    state a window measured in days. *)
Definition digit (a : Ascii.ascii) : option Z :=
  let n := Z.of_nat (Ascii.nat_of_ascii a) in
  if bool_decide (48 ≤ n ≤ 57)%Z then Some (n - 48)%Z else None.

Definition dash : Ascii.ascii := Ascii.ascii_of_nat 45.

Definition days_from_civil (y m d : Z) : Z :=
  let y := (if bool_decide (m ≤ 2)%Z then y - 1 else y)%Z in
  let era := (y `div` 400)%Z in
  let yoe := (y - era * 400)%Z in
  let mp := ((m + 9) `mod` 12)%Z in
  let doy := ((153 * mp + 2) `div` 5 + d - 1)%Z in
  let doe := (yoe * 365 + yoe `div` 4 - yoe `div` 100 + doy)%Z in
  (era * 146097 + doe - 719468)%Z.

Definition iso_day (c : cell) : option Z :=
  match c with
  | CStr s =>
    match String.list_ascii_of_string s with
    | [y1; y2; y3; y4; s1; m1; m2; s2; d1; d2] =>
      if bool_decide (s1 = dash ∧ s2 = dash)
      then
        y1 ← digit y1; y2 ← digit y2; y3 ← digit y3; y4 ← digit y4;
        m1 ← digit m1; m2 ← digit m2; d1 ← digit d1; d2 ← digit d2;
        Some (days_from_civil (1000 * y1 + 100 * y2 + 10 * y3 + y4)
                              (10 * m1 + m2) (10 * d1 + d2))%Z
      else None
    | _ => None
    end
  | _ => None
  end.

(** Is row [r'] a row of the unit of [r], dated within the [W] days that end
    at the date of [r]? *)
Definition in_day_window (W : Z) (r r' : row) : bool :=
  bool_decide (get r' "barangay_id" = get r "barangay_id") &&
  match iso_day (get r "date"), iso_day (get r' "date") with
  | Some d, Some d' => bool_decide (d - W < d' ≤ d)%Z
  | _, _ => false
  end.

Definition day_window (W : Z) (r : row) (rs : list row) : list row :=
  filter (λ r', in_day_window W r r' = true) rs.

(** *** The Severity Score of the specification

    Section 3 has it as the weighted sum of the cluster's mean scaled
    feature values: the means run over the rows of the scaled array that
    belong to the cluster, feature by feature. *)
Definition scaled_cluster_mean (fs : list (list (option Qc))) (labels : list nat)
    (k j : nat) : cell :=
  nanmean ((λ frow, of_float (default None (frow !! j)))
             <$> (snd <$> filter (λ p, p.1 = k) (zip labels fs))).

Definition scaled_severity_score (fs : list (list (option Qc))) (w : list Qc)
    (labels : list nat) (k : nat) : cell :=
  dot (scaled_cluster_mean fs labels k <$> seq 0 (length w)) w.

(** *** The statements that do not hold as written *)

(** C2 as written: the cluster with the lowest Severity Score gets
    level 1. *)
Definition lowest_scaled_score_gets_level_1 : Prop :=
  ∀ parse_float fit_predict df use_rolling window n seed prepared fs cols w scored labels,
    prepare_features parse_float df use_rolling window = Ok (prepared, fs, cols, w) →
    run_kmeans_and_risk_levels fit_predict prepared fs cols w n seed = Ok scored →
    fit_predict n seed fs = Ok labels →
    ∀ i k s, labels !! i = Some k →
      scaled_severity_score fs w labels k = CNum s →
      (∀ k' s', k' ∈ labels → scaled_severity_score fs w labels k' = CNum s' → s ≤ s') →
      column "risk_level" (rows scored) !! i = Some (of_nat 1).

(** C4 as written: the maximum of a feature column that is not constant
    scales to 1. *)
Definition maximum_scales_to_1 : Prop :=
  ∀ parse_float df use_rolling window df' fs cols w,
    prepare_features parse_float df use_rolling window = Ok (df', fs, cols, w) →
    ∀ j c lo hi i, cols !! j = Some c →
      nanmin (num <$> fillna_mean (column c (rows df'))) = Some lo →
      nanmax (num <$> fillna_mean (column c (rows df'))) = Some hi →
      lo ≠ hi →
      (num <$> fillna_mean (column c (rows df'))) !! i = Some (Some hi) →
      ((λ frow, default None (frow !! j)) <$> fs) !! i = Some (Some 1).


(** C6 as written: the rolling mean runs over the [W] days that end at the
    row. *)
Definition rolling_over_calendar_days : Prop :=
  ∀ parse_float df W df' fs cols w,
    prepare_features parse_float df true W = Ok (df', fs, cols, w) →
    (1 < nunique (column "date" (rows df)))%nat →
    Forall (λ r, get r "temp_rolling"
                 = nanmean (column "temperature" (day_window W r (rows df'))))
           (rows df').

(** C8 as written: one report row for every unit of the latest date. *)
Definition one_report_row_per_unit : Prop :=
  ∀ parse_float fit_predict df no_rolling W K out,
    main parse_float fit_predict df no_rolling W K = Ok out →
    ∀ u, (∃ r, r ∈ latest_rows (rows df) ∧ get r "barangay_id" = u) →
         length (filter (λ r, get r "barangay_id" = u) (rows out)) = 1%nat.

(** ** Sample tables *)

Definition sample_columns : list string :=
  ["barangay_id"; "date"; "temperature"; "facility_distance"; "population"; "density"].

(** One line [barangay_id,date,temperature,facility_distance,population,density]
    of the CSV the fetch script writes. *)
Definition observation (id date : string) (temperature facility_distance : Q)
    (density : cell) : row :=
  list_to_map [("barangay_id", CStr id); ("date", CStr date);
               ("temperature", CNum (Q2Qc temperature));
               ("facility_distance", CNum (Q2Qc facility_distance));
               ("population", CNum 0); ("density", density)].
Arguments observation id date (temperature facility_distance)%_Q density.

(** Two units on two consecutive days, no density known. *)
Definition two_days : DataFrame :=
  {| columns := sample_columns;
     rows := [observation "B" "2024-01-02" 40 0.2 (CNum 0);
              observation "A" "2024-01-02" 30 0.5 (CNum 0);
              observation "A" "2024-01-01" 10 0.5 (CNum 0);
              observation "B" "2024-01-01" 20 0.25 (CNum 0)] |}.

(** The same with the density of unit B; unit A has none. *)
Definition two_days_density : DataFrame :=
  {| columns := sample_columns;
     rows := [observation "B" "2024-01-02" 40 0.2 (CNum (Q2Qc 5.2));
              observation "A" "2024-01-02" 30 0.5 CNull;
              observation "A" "2024-01-01" 10 0.5 (CStr "n/a");
              observation "B" "2024-01-01" 20 0.25 (CNum (Q2Qc 5.2))] |}.


(** One unit observed on the 1st and on the 20th. *)
Definition gap_days : DataFrame :=
  {| columns := sample_columns;
     rows := [observation "A" "2024-01-01" 10 1 (CNum 0);
              observation "A" "2024-01-20" 30 1 (CNum 0)] |}.

(** The snapshot of the 2nd appended twice: unit A has two rows that day. *)
Definition fetched_twice : DataFrame :=
  {| columns := sample_columns;
     rows := [observation "A" "2024-01-01" 29 1 (CNum 0);
              observation "A" "2024-01-02" 30 1 (CNum 0);
              observation "B" "2024-01-02" 31 0.5 (CNum 0);
              observation "A" "2024-01-02" 30 1 (CNum 0)] |}.

(** Three units on one day: C is the coolest but one and has the best
    access to facilities. *)
Definition three_units : DataFrame :=
  {| columns := sample_columns;
     rows := [observation "A" "2024-01-01" 20 1 (CNum 0);
              observation "B" "2024-01-01" 28 0.25 (CNum 0);
              observation "C" "2024-01-01" 22 0 (CNum 0)] |}.

(** Four units on one day with the temperatures 8, 12, 24 and 48. *)
Definition wide_range : DataFrame :=
  {| columns := sample_columns;
     rows := [observation "A" "2024-01-01" 8 0.5 (CNum 0);
              observation "B" "2024-01-01" 12 0.5 (CNum 0);
              observation "C" "2024-01-01" 24 0.5 (CNum 0);
              observation "D" "2024-01-01" 48 0.5 (CNum 0)] |}.

(** A table with both facility columns. *)
Definition both_facility_columns : DataFrame :=
  {| columns := sample_columns ++ ["facility_score"];
     rows := [<["facility_score" := CNum (Q2Qc 7)]>
                (observation "A" "2024-01-01" 30 1 (CNum 0));
              <["facility_score" := CNum (Q2Qc 9)]>
                (observation "B" "2024-01-01" 31 0.5 (CNum 0))] |}.

(** Two units on one day whose severity scores tie:
    0.5 * 30 + 0.5 * 1 = 0.5 * 30.5 + 0.5 * 0.5. *)
Definition tied_days : DataFrame :=
  {| columns := sample_columns;
     rows := [observation "A" "2024-01-01" 30 1 (CNum 0);
              observation "B" "2024-01-01" 30.5 0.5 (CNum 0)] |}.

(** What [prepare_features] returns for [tied_days] (see
    [tied_days_prepared]): the table, and the scaled array. *)
Definition tied_rows : DataFrame :=
  {| columns := sample_columns ++ ["temp_rolling"; "facility_score"];
     rows := [<["facility_score" := CNum 1]>
                (<["temp_rolling" := CNum (Q2Qc 30)]>
                   (observation "A" "2024-01-01" 30 1 (CNum 0)));
              <["facility_score" := CNum (Q2Qc 0.5)]>
                (<["temp_rolling" := CNum (Q2Qc 30.5)]>
                   (observation "B" "2024-01-01" 30.5 0.5 (CNum 0)))] |}.

Definition tied_scaled : list (list (option Qc)) :=
  [[Some 0; Some 1]; [Some 1; Some 0]].

Definition two_features : list string := ["temp_rolling"; "facility_score"].

(** What [prepare_features] returns for [three_units] (see
    [three_units_prepared]). *)
Definition three_rows : DataFrame :=
  {| columns := sample_columns ++ ["temp_rolling"; "facility_score"];
     rows := [<["facility_score" := CNum 1]>
                (<["temp_rolling" := CNum (Q2Qc 20)]>
                   (observation "A" "2024-01-01" 20 1 (CNum 0)));
              <["facility_score" := CNum (Q2Qc 0.25)]>
                (<["temp_rolling" := CNum (Q2Qc 28)]>
                   (observation "B" "2024-01-01" 28 0.25 (CNum 0)));
              <["facility_score" := CNum 0]>
                (<["temp_rolling" := CNum (Q2Qc 22)]>
                   (observation "C" "2024-01-01" 22 0 (CNum 0)))] |}.

Definition three_scaled : list (list (option Qc)) :=
  [[Some 0; Some 1]; [Some 1; Some (Q2Qc 0.25)]; [Some (Q2Qc 0.25); Some 0]].

(** No string of the sample tables is a number. *)
Definition no_parse (s : string) : option Qc := None.

(** [KMeans(n_clusters=1)]: every sample is in cluster 0. *)
Definition one_cluster (n : nat) (seed : Z) (X : list (list (option Qc))) : result (list nat) :=
  Ok (replicate (length X) 0%nat).

(** A labelling of two samples in two clusters, the first sample in
    cluster 1. *)
Definition labels_10 (n : nat) (seed : Z) (X : list (list (option Qc))) : result (list nat) :=
  Ok [1; 0]%nat.

(** Three samples, each a cluster of its own. *)
Definition labels_012 (n : nat) (seed : Z) (X : list (list (option Qc))) : result (list nat) :=
  Ok [0; 1; 2]%nat.



(** A table with the alias [facility_score] and none of the optional
    columns. *)
Definition alias_only : DataFrame :=
  {| columns := ["barangay_id"; "date"; "temperature"; "facility_score"];
     rows := [list_to_map [("barangay_id", CStr "A"); ("date", CStr "2024-01-01");
                           ("temperature", CNum (Q2Qc 30));
                           ("facility_score", CNum (Q2Qc 0.5))]] |}.

(** A table without rows. *)
Definition no_rows : DataFrame := {| columns := sample_columns; rows := [] |}.

(** ** Sample answers of the backend *)

Module backend_samples.
Import fetch_pipeline_data.

(** Barangay A has a heat index, B only an air temperature, C and D
    neither. *)
Definition heat_answer : json :=
  JDict [("risks",
          JDict [("A", JDict [("heat_index_c", JFloat (Q2Qc 38.456));
                              ("temp_c", JFloat (Q2Qc 31))]);
                 ("B", JDict [("temp_c", JInt 30)]);
                 ("C", JStr "n/a");
                 ("D", JDict [("heat_index_c", JNull)])]);
         ("meta", JDict [("temperaturesSource", JStr "meteosource")])].

(** The population of B is no number. *)
Definition population_answer : json :=
  JDict [("A", JDict [("population", JInt 1200); ("density", JFloat (Q2Qc 5.21))]);
         ("B", JDict [("population", JStr "many"); ("density", JFloat (Q2Qc 3))]);
         ("C", JNull)].

(** The batch answer lists barangay A only. *)
Definition counts_answer : json :=
  JDict [("counts", JDict [("A", JInt 3)])].

Definition sample_backend : Backend :=
  {| barangay_temperatures := None;
     barangay_heat_risk := Some (mkResponse 200 (Some heat_answer));
     facilities_by_barangay := λ _, None;
     counts_by_barangays := λ _, Some (mkResponse 200 (Some counts_answer));
     barangay_population := Some (mkResponse 200 (Some population_answer)) |}.

(** The same backend when the population request is answered by an error. *)
Definition backend_without_population : Backend :=
  {| barangay_temperatures := None;
     barangay_heat_risk := Some (mkResponse 200 (Some heat_answer));
     facilities_by_barangay := λ _, None;
     counts_by_barangays := λ _, Some (mkResponse 200 (Some counts_answer));
     barangay_population := Some (mkResponse 503 None) |}.



(** No string of the sample answers is an integer. *)
Definition no_int (s : string) : option Z := None.

(** The futures complete in the order of their submission. *)
Definition in_order (ids : list string) : list string := ids.

Definition sample_day : string := "2024-01-02".

End backend_samples.

(** * Floats: rounding to the nearest binary64 *)

Lemma Qc_eq_Qeq (x y : Qc) : x = y ↔ (this x == this y)%Q.
Proof. split; [by intros ->|apply Qc_is_canon]. Qed.

(** Goals on [Qc] restated on [Q], for [lra]. *)
Ltac qc_to_q :=
  repeat match goal with
  | H : @eq Qc _ _ |- _ => apply Qc_eq_Qeq in H
  | H : ¬ @eq Qc _ _ |- _ => rewrite Qc_eq_Qeq in H
  | |- @eq Qc _ _ => apply Qc_is_canon
  | |- ¬ @eq Qc _ _ => rewrite Qc_eq_Qeq
  end;
  repeat (progress (unfold Qcle, Qclt, Qcplus, Qcminus, Qcopp, Qcmult, Qcdiv, Qcinv, Q2Qc in *;
                    cbn [this] in *));
  repeat match goal with
  | H : context [Qred ?q] |- _ => rewrite (Qred_correct q) in H
  | |- context [Qred ?q] => rewrite (Qred_correct q)
  end.

Ltac qc_lra := qc_to_q; lra.

Lemma Z2Qc_pos n : (0 < n)%Z → 0 < Qc_of_Z n.
Proof. intros. rewrite <- Z2Qc_inj_0. by apply (proj1 (Z2Qc_inj_lt _ _)). Qed.

Lemma Z2Qc_ne0 n : (0 < n)%Z → Qc_of_Z n ≠ 0.
Proof. intros Hn H0. rewrite <- Z2Qc_inj_0 in H0. apply Z2Qc_inj in H0. lia. Qed.

Lemma Qc_num_den (x : Qc) : x = Qc_of_Z (Qnum x) / Qc_of_Z (Zpos (Qden x)).
Proof.
  apply Qc_is_canon. unfold Qcdiv, Qcmult, Qcinv, Q2Qc. cbn [this].
  rewrite !Qred_correct. destruct x as [[n d] Hc]. cbn [this Qnum Qden].
  unfold Qeq, Qmult, Qinv, inject_Z. simpl. lia.
Qed.

Lemma Qcle_Z_l (a : Z) (x : Qc) : Qc_of_Z a ≤ x ↔ (a * Zpos (Qden x) ≤ Qnum x)%Z.
Proof. unfold Qcle, Qle. simpl. lia. Qed.

Lemma Qcle_Z_r (a : Z) (x : Qc) : x ≤ Qc_of_Z a ↔ (Qnum x ≤ a * Zpos (Qden x))%Z.
Proof. unfold Qcle, Qle. simpl. lia. Qed.

(** ** Powers of two *)

Lemma pow2_nonneg k : (0 ≤ k)%Z → pow2 k = Qc_of_Z (2 ^ k).
Proof. intros. unfold pow2. by rewrite bool_decide_eq_true_2. Qed.

Lemma pow2_pos k : 0 < pow2 k.
Proof.
  unfold pow2. case_bool_decide.
  - apply Z2Qc_pos. apply Z.pow_pos_nonneg; lia.
  - apply Qcinv_pos, Z2Qc_pos. apply Z.pow_pos_nonneg; lia.
Qed.

Lemma pow2_ne0 k : pow2 k ≠ 0.
Proof. pose proof (pow2_pos k) as H. intros H0. rewrite H0 in H. by apply Qclt_not_eq in H. Qed.

Lemma pow2_shift k n :
  (0 ≤ n)%Z → (0 ≤ k + n)%Z → pow2 k * Qc_of_Z (2 ^ n) = Qc_of_Z (2 ^ (k + n)).
Proof.
  intros Hn Hkn. unfold pow2. case_bool_decide as Hk.
  - by rewrite <- Z2Qc_inj_mul, <- Z.pow_add_r.
  - replace n with (- k + (k + n))%Z at 1 by lia.
    rewrite Z.pow_add_r, Z2Qc_inj_mul by lia.
    field. apply Z2Qc_ne0. apply Z.pow_pos_nonneg; lia.
Qed.

Lemma Qcmult_cancel_r (u v c : Qc) : c ≠ 0 → u * c = v * c → u = v.
Proof.
  intros Hc H. rewrite <- (Qcmult_1_r u), <- (Qcmult_1_r v), <- (Qcmult_inv_r c) by done.
  rewrite !Qcmult_assoc. by rewrite H.
Qed.

Lemma pow2_add a b : pow2 (a + b) = pow2 a * pow2 b.
Proof.
  set (n := (Z.abs a + Z.abs b)%Z).
  assert (0 ≤ n ∧ 0 ≤ a + n ∧ 0 ≤ b + n)%Z as (? & ? & ?) by (unfold n; lia).
  clearbody n.
  assert (Qc_of_Z (2 ^ n) ≠ 0) as Hn by (apply Z2Qc_ne0, Z.pow_pos_nonneg; lia).
  apply (Qcmult_cancel_r _ _ (Qc_of_Z (2 ^ n) * Qc_of_Z (2 ^ n))).
  { intros [?|?]%Qcmult_integral; done. }
  transitivity ((pow2 a * Qc_of_Z (2 ^ n)) * (pow2 b * Qc_of_Z (2 ^ n))); [|ring].
  rewrite (pow2_shift a n), (pow2_shift b n) by lia.
  rewrite <- !Z2Qc_inj_mul, <- !Z.pow_add_r by lia.
  rewrite pow2_shift by lia. f_equal. f_equal. lia.
Qed.

Lemma pow2_0 : pow2 0 = 1.
Proof. rewrite pow2_nonneg by done. apply Z2Qc_inj_1. Qed.

Lemma pow2_lt a b : (a < b)%Z → pow2 a < pow2 b.
Proof.
  intros Hab. replace b with (a + (b - a))%Z by lia. rewrite pow2_add.
  rewrite <- (Qcmult_1_r (pow2 a)) at 1.
  apply Qcmult_lt_mono_pos_l; [apply pow2_pos|].
  rewrite pow2_nonneg by lia. rewrite <- Z2Qc_inj_1. apply (proj1 (Z2Qc_inj_lt _ _)).
  apply Z.pow_gt_1; lia.
Qed.

Lemma pow2_le a b : (a ≤ b)%Z → pow2 a ≤ pow2 b.
Proof.
  intros Hab. destruct (decide (a = b)) as [->|Hne]; [apply Qcle_refl|].
  apply Qclt_le_weak, pow2_lt. lia.
Qed.

Lemma pow2_lt_inv a b : pow2 a < pow2 b → (a < b)%Z.
Proof.
  intros Hlt. destruct (decide (a < b)%Z) as [|Hge]; [done|].
  assert (pow2 b ≤ pow2 a) as Hle by (apply pow2_le; lia).
  by apply Qcle_ngt in Hle.
Qed.

(** ** The integer part of the binary logarithm *)

Lemma ilog2_spec (x : Qc) : 0 < x → pow2 (ilog2 x) ≤ x ∧ x < pow2 (ilog2 x + 1).
Proof.
  intros Hx.
  set (n := Qnum x). set (d := Zpos (Qden x)).
  assert (0 < n)%Z as Hn.
  { unfold n. unfold Qclt, Qlt in Hx. simpl in Hx. lia. }
  assert (0 < d)%Z as Hd by done.
  pose proof (Z.log2_spec n Hn) as [Hn1 Hn2].
  pose proof (Z.log2_spec d Hd) as [Hd1 Hd2].
  pose proof (Z.log2_nonneg n) as Han. pose proof (Z.log2_nonneg d) as Hbn.
  set (a := Z.log2 n) in *. set (b := Z.log2 d) in *.
  assert (x * Qc_of_Z d = Qc_of_Z n) as Hxd.
  { rewrite (Qc_num_den x) at 1. fold n d. field. by apply Z2Qc_ne0. }
  assert (x < pow2 (a - b + 1)) as Hup.
  { apply (proj2 (Qcmult_lt_mono_pos_r _ _ (Qc_of_Z d) (Z2Qc_pos d Hd))).
    rewrite Hxd. apply (Qclt_le_trans _ (Qc_of_Z (2 ^ Z.succ a))).
    - apply (proj1 (Z2Qc_inj_lt _ _)). exact Hn2.
    - replace (Z.succ a) with ((a - b + 1) + b)%Z by lia.
      rewrite <- pow2_nonneg by lia. rewrite pow2_add.
      apply Qcmult_le_mono_nonneg_l; [apply Qclt_le_weak, pow2_pos|].
      rewrite pow2_nonneg by lia. by apply (proj1 (Z2Qc_inj_le _ _)). }
  assert (pow2 (a - b - 1) ≤ x) as Hlow.
  { apply (proj2 (Qcmult_le_mono_pos_r _ _ (Qc_of_Z d) (Z2Qc_pos d Hd))).
    rewrite Hxd. apply (Qcle_trans _ (pow2 (a - b - 1) * Qc_of_Z (2 ^ Z.succ b))).
    - apply Qcmult_le_mono_nonneg_l; [apply Qclt_le_weak, pow2_pos|].
      apply (proj1 (Z2Qc_inj_le _ _)). apply Z.lt_le_incl. exact Hd2.
    - rewrite <- pow2_nonneg by lia. rewrite <- pow2_add.
      replace (a - b - 1 + Z.succ b)%Z with a by lia.
      rewrite pow2_nonneg by lia. by apply (proj1 (Z2Qc_inj_le _ _)). }
  unfold ilog2. fold n d a b. case_bool_decide as Hk.
  - done.
  - split; [done|]. replace (a - b - 1 + 1)%Z with (a - b)%Z by lia.
    by apply Qclt_nge.
Qed.

Lemma ilog2_unique (x : Qc) k : pow2 k ≤ x → x < pow2 (k + 1) → ilog2 x = k.
Proof.
  intros Hlo Hhi.
  assert (0 < x) as Hx by (eapply Qclt_le_trans; [apply pow2_pos|done]).
  destruct (ilog2_spec x Hx) as [Hlo' Hhi'].
  assert (ilog2 x < k + 1)%Z.
  { apply pow2_lt_inv. by eapply Qcle_lt_trans. }
  assert (k < ilog2 x + 1)%Z.
  { apply pow2_lt_inv. by eapply Qcle_lt_trans. }
  lia.
Qed.

Lemma ilog2_mono (x y : Qc) : 0 < x → x ≤ y → (ilog2 x ≤ ilog2 y)%Z.
Proof.
  intros Hx Hxy.
  assert (0 < y) as Hy by (by eapply Qclt_le_trans).
  destruct (ilog2_spec x Hx) as [Hlo _], (ilog2_spec y Hy) as [_ Hhi].
  assert (ilog2 x < ilog2 y + 1)%Z; [|lia].
  apply pow2_lt_inv. eapply Qcle_lt_trans; [exact Hlo|]. by eapply Qcle_lt_trans.
Qed.

(** ** Rounding to the nearest integer, ties to even *)

Lemma round_half_even_Z k : round_half_even (Qc_of_Z k) = k.
Proof.
  unfold round_half_even. simpl. rewrite Z.div_1_r, Z.mod_1_r. done.
Qed.

Lemma round_half_even_near (x : Qc) :
  ((2 * round_half_even x - 1) * Zpos (Qden x) ≤ 2 * Qnum x)%Z ∧
  (2 * Qnum x ≤ (2 * round_half_even x + 1) * Zpos (Qden x))%Z.
Proof.
  unfold round_half_even.
  set (n := Qnum x). set (d := Zpos (Qden x)).
  assert (0 < d)%Z as Hd by done.
  pose proof (Z.div_mod n d) as Hdm. pose proof (Z.mod_pos_bound n d Hd) as Hr.
  set (q := (n `div` d)%Z) in *. set (r := (n `mod` d)%Z) in *.
  assert (n = d * q + r)%Z as Hn by lia. clearbody q r n d.
  repeat case_bool_decide; try destruct (Z.even q); nia.
Qed.

Lemma round_half_even_mono (x y : Qc) :
  x ≤ y → (round_half_even x ≤ round_half_even y)%Z.
Proof.
  intros Hxy. destruct (decide (x = y)) as [->|Hne]; [done|].
  destruct (round_half_even_near x) as [Hx _], (round_half_even_near y) as [_ Hy].
  unfold Qcle, Qle in Hxy.
  set (n1 := Qnum x) in *. set (d1 := Zpos (Qden x)) in *.
  set (n2 := Qnum y) in *. set (d2 := Zpos (Qden y)) in *.
  assert (0 < d1)%Z as Hd1 by done. assert (0 < d2)%Z as Hd2 by done.
  destruct (decide (round_half_even x ≤ round_half_even y)%Z) as [|Hgt]; [done|].
  exfalso. apply Hne, Qc_is_canon. unfold Qeq. fold n1 d1 n2 d2.
  set (k := (2 * round_half_even y + 1)%Z) in *.
  assert (k * d1 ≤ 2 * n1)%Z as Ha by nia.
  assert (k * d1 * d2 ≤ 2 * n1 * d2)%Z as Ha' by (apply Z.mul_le_mono_nonneg_r; lia).
  assert (2 * n2 * d1 ≤ k * d2 * d1)%Z as Hb' by (apply Z.mul_le_mono_nonneg_r; lia).
  lia.
Qed.

Lemma round_half_even_lower (x : Qc) k : Qc_of_Z k ≤ x → (k ≤ round_half_even x)%Z.
Proof. intros H%round_half_even_mono. by rewrite round_half_even_Z in H. Qed.

Lemma round_half_even_upper (x : Qc) k : x ≤ Qc_of_Z k → (round_half_even x ≤ k)%Z.
Proof. intros H%round_half_even_mono. by rewrite round_half_even_Z in H. Qed.

(** ** Rounding a positive number *)

Lemma Qcdiv_mult_r (x p : Qc) : p ≠ 0 → x / p * p = x.
Proof. intros. by field. Qed.

Lemma Qcdiv_le_upper (x c p : Qc) : 0 < p → x ≤ c * p → x / p ≤ c.
Proof.
  intros Hp Hx. apply (proj2 (Qcmult_le_mono_pos_r _ _ p Hp)).
  rewrite Qcdiv_mult_r; [done|]. intros ->. by apply Qclt_not_eq in Hp.
Qed.

Lemma Qcdiv_le_lower (x c p : Qc) : 0 < p → c * p ≤ x → c ≤ x / p.
Proof.
  intros Hp Hx. apply (proj2 (Qcmult_le_mono_pos_r _ _ p Hp)).
  rewrite Qcdiv_mult_r; [done|]. intros ->. by apply Qclt_not_eq in Hp.
Qed.

Lemma float_exponent_mono (x y : Qc) :
  0 < x → x ≤ y → (float_exponent x ≤ float_exponent y)%Z.
Proof.
  intros Hx Hxy. pose proof (ilog2_mono x y Hx Hxy). unfold float_exponent. lia.
Qed.

Lemma round_positive_form (x : Qc) :
  0 < x →
  (0 ≤ round_half_even (x / pow2 (float_exponent x)) ≤ 2 ^ 53)%Z ∧
  (-1074 ≤ float_exponent x)%Z ∧
  ((2 ^ 52 ≤ round_half_even (x / pow2 (float_exponent x)))%Z ∨
   float_exponent x = (-1074)%Z).
Proof.
  intros Hx. destruct (ilog2_spec x Hx) as [Hlo Hhi].
  set (e := float_exponent x).
  assert (-1074 ≤ e ∧ ilog2 x - 52 ≤ e)%Z as [He1 He2] by (unfold e, float_exponent; lia).
  pose proof (pow2_pos e) as Hp.
  split; [split|split; [done|]].
  - apply round_half_even_lower. rewrite Z2Qc_inj_0.
    apply Qcdiv_le_lower; [done|]. rewrite Qcmult_0_l. by apply Qclt_le_weak.
  - apply round_half_even_upper. apply Qcdiv_le_upper; [done|].
    rewrite <- pow2_nonneg by lia. rewrite <- pow2_add.
    apply Qclt_le_weak. eapply Qclt_le_trans; [exact Hhi|]. apply pow2_le. lia.
  - destruct (decide (e = (-1074)%Z)) as [|Hne]; [by right|left].
    assert (e = ilog2 x - 52)%Z as Heq by (unfold e, float_exponent in *; lia).
    apply round_half_even_lower. apply Qcdiv_le_lower; [done|].
    rewrite <- pow2_nonneg by lia. rewrite <- pow2_add.
    eapply Qcle_trans; [|exact Hlo]. apply pow2_le. lia.
Qed.

Lemma ilog2_canonical m e :
  (0 < m)%Z → ilog2 (Qc_of_Z m * pow2 e) = (Z.log2 m + e)%Z.
Proof.
  intros Hm. pose proof (Z.log2_spec m Hm) as [H1 H2].
  pose proof (Z.log2_nonneg m) as Hn. pose proof (pow2_pos e) as Hp.
  apply ilog2_unique.
  - rewrite pow2_add, (pow2_nonneg (Z.log2 m)) by lia.
    apply Qcmult_le_mono_nonneg_r; [by apply Qclt_le_weak|].
    by apply (proj1 (Z2Qc_inj_le _ _)).
  - replace (Z.log2 m + e + 1)%Z with (Z.succ (Z.log2 m) + e)%Z by lia.
    rewrite pow2_add, (pow2_nonneg (Z.succ (Z.log2 m))) by lia.
    apply (proj1 (Qcmult_lt_mono_pos_r _ _ _ Hp)).
    by apply (proj1 (Z2Qc_inj_lt _ _)).
Qed.

(** A number [m * 2^e] with a mantissa of at most 53 bits, normalized
    unless the exponent is the least one, is a float. *)
Lemma round_positive_canonical m e :
  (0 < m ≤ 2 ^ 53)%Z → (-1074 ≤ e)%Z → ((2 ^ 52 ≤ m)%Z ∨ e = (-1074)%Z) →
  round_positive (Qc_of_Z m * pow2 e) = Qc_of_Z m * pow2 e.
Proof.
  intros [Hm0 Hm] He Hnorm. unfold round_positive, float_exponent.
  rewrite ilog2_canonical by done.
  pose proof (pow2_ne0 e) as Hp.
  destruct (decide (m = 2 ^ 53)%Z) as [->|Hne].
  - rewrite Z.log2_pow2 by lia.
    replace (Z.max (53 + e - 52) (-1074)) with (e + 1)%Z by lia.
    assert (Qc_of_Z (2 ^ 53) * pow2 e / pow2 (e + 1) = Qc_of_Z (2 ^ 52)) as ->.
    { rewrite pow2_add. change (2 ^ 53)%Z with (2 ^ 52 * 2)%Z.
      rewrite Z2Qc_inj_mul. rewrite (pow2_nonneg 1) by lia.
      change (2 ^ 1)%Z with 2%Z. field. split; [|done]. by apply Z2Qc_ne0. }
    rewrite round_half_even_Z, pow2_add. change (2 ^ 53)%Z with (2 ^ 52 * 2)%Z.
    rewrite Z2Qc_inj_mul. rewrite (pow2_nonneg 1) by lia.
    change (2 ^ 1)%Z with 2%Z. ring.
  - assert (Z.log2 m < 53)%Z as Hlog by (apply Z.log2_lt_pow2; lia).
    assert (Z.max (Z.log2 m + e - 52) (-1074) = e) as ->.
    { destruct Hnorm as [H52| ->]; [|lia].
      assert (52 ≤ Z.log2 m)%Z by (apply Z.log2_le_pow2; lia). lia. }
    assert (Qc_of_Z m * pow2 e / pow2 e = Qc_of_Z m) as -> by (by field).
    by rewrite round_half_even_Z.
Qed.

Lemma round_positive_nonneg (x : Qc) : 0 < x → 0 ≤ round_positive x.
Proof.
  intros Hx. destruct (round_positive_form x Hx) as ([Hm _] & _).
  unfold round_positive. apply Qcmult_nonneg_nonneg; [|apply Qclt_le_weak, pow2_pos].
  rewrite <- Z2Qc_inj_0. by apply (proj1 (Z2Qc_inj_le _ _)).
Qed.

Lemma round_positive_mono (x y : Qc) :
  0 < x → x ≤ y → round_positive x ≤ round_positive y.
Proof.
  intros Hx Hxy. assert (0 < y) as Hy by (by eapply Qclt_le_trans).
  destruct (round_positive_form x Hx) as ([_ Hmx] & _ & _).
  destruct (round_positive_form y Hy) as (_ & Hey & Hmy).
  pose proof (float_exponent_mono x y Hx Hxy) as He.
  unfold round_positive.
  set (ex := float_exponent x) in *. set (ey := float_exponent y) in *.
  destruct (decide (ex = ey)) as [Heq|Hne].
  - rewrite Heq. apply Qcmult_le_mono_nonneg_r; [apply Qclt_le_weak, pow2_pos|].
    apply (proj1 (Z2Qc_inj_le _ _)), round_half_even_mono.
    unfold Qcdiv. apply Qcmult_le_mono_nonneg_r; [|done].
    apply Qclt_le_weak, Qcinv_pos, pow2_pos.
  - destruct Hmy as [Hmy|Hmy]; [|unfold ex, float_exponent in *; lia].
    apply (Qcle_trans _ (Qc_of_Z (2 ^ 53) * pow2 ex)).
    { apply Qcmult_le_mono_nonneg_r; [apply Qclt_le_weak, pow2_pos|].
      by apply (proj1 (Z2Qc_inj_le _ _)). }
    apply (Qcle_trans _ (Qc_of_Z (2 ^ 52) * pow2 ey)).
    { rewrite <- !pow2_nonneg by lia. rewrite <- !pow2_add. apply pow2_le. lia. }
    apply Qcmult_le_mono_nonneg_r; [apply Qclt_le_weak, pow2_pos|].
    by apply (proj1 (Z2Qc_inj_le _ _)).
Qed.

(** ** [binary64] *)

Lemma Qclt_irrefl (x : Qc) : ¬ x < x.
Proof. intros H. by apply Qclt_not_eq in H. Qed.

Lemma Qcopp_pos (x : Qc) : x < 0 → 0 < - x.
Proof. intros. qc_lra. Qed.

Lemma Qcopp_neg (x : Qc) : 0 < x → - x < 0.
Proof. intros. qc_lra. Qed.

Lemma binary64_0 : binary64 0 = 0.
Proof. unfold binary64. by rewrite !bool_decide_eq_false_2 by apply Qclt_irrefl. Qed.

Lemma binary64_pos (x : Qc) : 0 < x → binary64 x = round_positive x.
Proof. intros. unfold binary64. by rewrite bool_decide_eq_true_2. Qed.

Lemma binary64_neg (x : Qc) : x < 0 → binary64 x = - round_positive (- x).
Proof.
  intros Hx. unfold binary64. rewrite bool_decide_eq_false_2, bool_decide_eq_true_2; [done..|].
  intros Hx'. apply (Qclt_irrefl x). by eapply Qclt_trans.
Qed.

Lemma Qc_sign (x : Qc) : x < 0 ∨ x = 0 ∨ 0 < x.
Proof.
  destruct (Qc_dec x 0) as [[?|?]|?]; auto.
Qed.

(** Rounding is odd: the floats are symmetric about 0. *)
Lemma binary64_opp (x : Qc) : binary64 (- x) = - binary64 x.
Proof.
  destruct (Qc_sign x) as [Hx|[->|Hx]].
  - rewrite (binary64_neg x Hx), (binary64_pos (- x)) by (by apply Qcopp_pos).
    by rewrite Qcopp_involutive.
  - change (- 0) with 0. by rewrite binary64_0.
  - rewrite (binary64_pos x Hx), (binary64_neg (- x)) by (by apply Qcopp_neg).
    by rewrite Qcopp_involutive.
Qed.

Lemma binary64_canonical m e :
  (0 ≤ m ≤ 2 ^ 53)%Z → (-1074 ≤ e)%Z → ((2 ^ 52 ≤ m)%Z ∨ e = (-1074)%Z) →
  binary64 (Qc_of_Z m * pow2 e) = Qc_of_Z m * pow2 e.
Proof.
  intros [Hm0 Hm] He Hnorm. destruct (decide (m = 0%Z)) as [->|Hne].
  - rewrite Z2Qc_inj_0, Qcmult_0_l. apply binary64_0.
  - rewrite binary64_pos.
    + apply round_positive_canonical; [lia|done..].
    + apply Qcmult_pos_pos; [apply Z2Qc_pos; lia | apply pow2_pos].
Qed.

(** A float rounds to itself. *)
Lemma binary64_round_positive (x : Qc) :
  0 < x → binary64 (round_positive x) = round_positive x.
Proof.
  intros Hx. destruct (round_positive_form x Hx) as (Hm & He & Hnorm).
  unfold round_positive. by apply binary64_canonical.
Qed.

Lemma binary64_idem (x : Qc) : binary64 (binary64 x) = binary64 x.
Proof.
  destruct (Qc_sign x) as [Hx|[->|Hx]].
  - rewrite (binary64_neg x Hx), binary64_opp.
    by rewrite binary64_round_positive by (by apply Qcopp_pos).
  - by rewrite !binary64_0.
  - rewrite (binary64_pos x Hx). by apply binary64_round_positive.
Qed.

Lemma binary64_nonneg (x : Qc) : 0 ≤ x → 0 ≤ binary64 x.
Proof.
  intros Hx. destruct (Qc_sign x) as [Hneg|[->|Hpos]].
  - by apply Qcle_ngt in Hx.
  - rewrite binary64_0. apply Qcle_refl.
  - rewrite binary64_pos by done. by apply round_positive_nonneg.
Qed.

Lemma binary64_nonpos (x : Qc) : x ≤ 0 → binary64 x ≤ 0.
Proof.
  intros Hx. assert (0 ≤ - x) as Hx' by qc_lra.
  apply binary64_nonneg in Hx'. rewrite binary64_opp in Hx'. qc_lra.
Qed.

(** Rounding keeps the order. *)
Lemma binary64_mono (x y : Qc) : x ≤ y → binary64 x ≤ binary64 y.
Proof.
  intros Hxy. destruct (Qc_sign x) as [Hx|[->|Hx]].
  - destruct (Qc_sign y) as [Hy|[->|Hy]].
    + rewrite (binary64_neg x Hx), (binary64_neg y Hy).
      assert (round_positive (- y) ≤ round_positive (- x)) as Hle.
      { apply round_positive_mono; [by apply Qcopp_pos | qc_lra]. }
      qc_lra.
    + rewrite binary64_0. apply binary64_nonpos. by apply Qclt_le_weak.
    + apply (Qcle_trans _ 0).
      * apply binary64_nonpos. by apply Qclt_le_weak.
      * apply binary64_nonneg. by apply Qclt_le_weak.
  - rewrite binary64_0. by apply binary64_nonneg.
  - assert (0 < y) as Hy by (by eapply Qclt_le_trans).
    rewrite (binary64_pos x Hx), (binary64_pos y Hy). by apply round_positive_mono.
Qed.

Lemma binary64_Z (n : Z) : (Z.abs n ≤ 2 ^ 53)%Z → binary64 (Qc_of_Z n) = Qc_of_Z n.
Proof.
  assert (∀ m, 0 < m ≤ 2 ^ 53 → binary64 (Qc_of_Z m) = Qc_of_Z m)%Z as Hpos.
  { intros m [Hm0 Hm].
    set (k := (52 - Z.log2 m)%Z).
    destruct (decide (m = 2 ^ 53)%Z) as [->|Hne].
    { rewrite <- (Qcmult_1_r (Qc_of_Z (2 ^ 53))), <- pow2_0.
      apply binary64_canonical; lia. }
    assert (Z.log2 m < 53)%Z as Hlog by (apply Z.log2_lt_pow2; lia).
    pose proof (Z.log2_nonneg m) as Hlog0.
    pose proof (Z.log2_spec m Hm0) as [Hl1 Hl2].
    assert (Qc_of_Z m = Qc_of_Z (m * 2 ^ k) * pow2 (- k)) as ->.
    { rewrite Z2Qc_inj_mul, <- pow2_nonneg by (unfold k; lia).
      rewrite <- Qcmult_assoc, <- pow2_add.
      replace (k + - k)%Z with 0%Z by lia. by rewrite pow2_0, Qcmult_1_r. }
    apply binary64_canonical.
    - split; [apply Z.mul_nonneg_nonneg; [lia|apply Z.pow_nonneg; lia]|].
      replace (2 ^ 53)%Z with (2 ^ Z.succ (Z.log2 m) * 2 ^ k)%Z
        by (rewrite <- Z.pow_add_r by (unfold k; lia); f_equal; unfold k; lia).
      apply Z.mul_le_mono_nonneg_r; [apply Z.pow_nonneg; lia|lia].
    - unfold k. lia.
    - left. replace (2 ^ 52)%Z with (2 ^ Z.log2 m * 2 ^ k)%Z
        by (rewrite <- Z.pow_add_r by (unfold k; lia); f_equal; unfold k; lia).
      apply Z.mul_le_mono_nonneg_r; [apply Z.pow_nonneg; unfold k; lia|lia]. }
  intros Hn. destruct (Z.lt_trichotomy n 0) as [Hneg|[->|Hp]].
  - replace n with (- (- n))%Z by lia. rewrite Z2Qc_inj_opp, binary64_opp.
    f_equal. apply Hpos. lia.
  - rewrite Z2Qc_inj_0. apply binary64_0.
  - apply Hpos. lia.
Qed.

Lemma binary64_1 : binary64 1 = 1.
Proof. rewrite <- Z2Qc_inj_1. by apply binary64_Z. Qed.

Lemma binary64_pow2 k : (-1074 ≤ k)%Z → binary64 (pow2 k) = pow2 k.
Proof.
  intros Hk. destruct (decide (k < -1022)%Z) as [Hsub|Hnorm].
  - assert (pow2 k = Qc_of_Z (2 ^ (k + 1074)) * pow2 (-1074)) as ->.
    { rewrite <- pow2_nonneg by lia. rewrite <- pow2_add. f_equal. lia. }
    apply binary64_canonical; [|done|by right].
    split; [apply Z.pow_nonneg; lia|]. apply Z.pow_le_mono_r; lia.
  - assert (pow2 k = Qc_of_Z (2 ^ 52) * pow2 (k - 52)) as ->.
    { rewrite <- pow2_nonneg by lia. rewrite <- pow2_add. f_equal. lia. }
    apply binary64_canonical; [lia|lia|by left].
Qed.

(** A number that is not below the least positive float does not round
    to zero. *)
Lemma binary64_positive (x : Qc) : pow2 (-1074) ≤ x → 0 < binary64 x.
Proof.
  intros Hx. eapply Qclt_le_trans; [apply (pow2_pos (-1074))|].
  rewrite <- (binary64_pow2 (-1074)) by done. by apply binary64_mono.
Qed.

(** ** The conversion of an integer *)

Lemma binary64_overflow :
  binary64 (Qc_of_Z (2 ^ 1024 - 2 ^ 970)) = pow2 1024.
Proof. compute_done. Qed.

Lemma binary64_largest :
  binary64 (Qc_of_Z (2 ^ 1024 - 2 ^ 970 - 1)) < pow2 1024.
Proof. compute_done. Qed.

(** [float(n)] raises exactly from [2^1024 - 2^970] on. *)
Lemma float_of_int_spec n :
  fetch_pipeline_data.float_of_int n =
  if int_fits_float n then fetch_pipeline_data.Value (binary64 (Qc_of_Z n))
  else fetch_pipeline_data.Except fetch_pipeline_data.OverflowError.
Proof.
  unfold fetch_pipeline_data.float_of_int, int_fits_float. cbv zeta.
  set (T := (2 ^ 1024 - 2 ^ 970)%Z).
  assert (∀ m, (T ≤ m)%Z → pow2 1024 ≤ binary64 (Qc_of_Z m)) as Hbig.
  { intros m Hm. rewrite <- binary64_overflow. apply binary64_mono.
    by apply (proj1 (Z2Qc_inj_le _ _)). }
  assert (∀ m, (m < T)%Z → binary64 (Qc_of_Z m) < pow2 1024) as Hsmall.
  { intros m Hm. eapply Qcle_lt_trans; [|apply binary64_largest].
    apply binary64_mono, (proj1 (Z2Qc_inj_le _ _)). unfold T in Hm. lia. }
  destruct (decide (Z.abs n < T)%Z) as [Hfit|Hfit].
  - rewrite (bool_decide_eq_true_2 (Z.abs n < T)%Z) by done.
    rewrite bool_decide_eq_false_2, bool_decide_eq_false_2; [done| |].
    + intros Hle. assert (binary64 (Qc_of_Z (- n)) < pow2 1024) as Hlt
        by (apply Hsmall; lia).
      rewrite Z2Qc_inj_opp, binary64_opp in Hlt.
      generalize dependent (binary64 (Qc_of_Z n)). generalize (pow2 1024).
      intros p b. clear. intros. qc_lra.
    + intros Hle. assert (binary64 (Qc_of_Z n) < pow2 1024) as Hlt
        by (apply Hsmall; lia).
      by apply Qcle_not_lt in Hle.
  - rewrite (bool_decide_eq_false_2 (Z.abs n < T)%Z) by done.
    destruct (decide (0 ≤ n)%Z) as [Hn|Hn].
    + rewrite bool_decide_eq_true_2; [done|]. apply Hbig. lia.
    + rewrite (bool_decide_eq_true_2 (_ ≤ - _)), orb_true_r; [done|].
      assert (pow2 1024 ≤ binary64 (Qc_of_Z (- n))) as Hle by (apply Hbig; lia).
      rewrite Z2Qc_inj_opp, binary64_opp in Hle.
      generalize dependent (binary64 (Qc_of_Z n)). generalize (pow2 1024).
      intros p b. clear. intros. qc_lra.
Qed.

(** * Properties *)

Local Close Scope Qc_scope.

(** ** Exceptions and column assignment *)

Lemma bind_Ok {A B} (m : result A) (f : A → result B) (b : B) :
  m ≫= f = Ok b → ∃ a, m = Ok a ∧ f a = Ok b.
Proof. destruct m as [a|e]; simpl; [eauto | discriminate]. Qed.

Lemma require_column_Ok c df u :
  require_column c df = Ok u → c ∈ columns df.
Proof.
  unfold require_column, has_column. case_bool_decide; [done | discriminate].
Qed.

Lemma require_columns_Ok cs df u :
  require_columns cs df = Ok u → Forall (λ c, c ∈ columns df) cs.
Proof.
  revert u. induction cs as [|c cs IH]; intros u H; [constructor|].
  simpl in H. apply bind_Ok in H as ([] & Hc & Hcs).
  constructor; eauto using require_column_Ok.
Qed.

Lemma get_insert_eq (r : row) c v : get (<[c := v]> r) c = v.
Proof. unfold get. by rewrite lookup_insert_eq. Qed.

Lemma get_insert_ne (r : row) c c' v : c ≠ c' → get (<[c := v]> r) c' = get r c'.
Proof. intros. unfold get. by rewrite lookup_insert_ne. Qed.

Lemma elem_of_add_column c c' cols :
  c' ∈ add_column c cols ↔ c' = c ∨ c' ∈ cols.
Proof.
  unfold add_column. case_bool_decide; [|rewrite elem_of_app, list_elem_of_singleton];
    naive_solver.
Qed.

Lemma column_set_with_eq dst f df :
  column dst (rows (set_column_with dst f df)) = f <$> rows df.
Proof.
  unfold column; simpl. rewrite <- list_fmap_compose. apply list_fmap_ext.
  intros i r _; simpl. apply get_insert_eq.
Qed.

Lemma column_set_with_ne dst f df c :
  dst ≠ c → column c (rows (set_column_with dst f df)) = column c (rows df).
Proof.
  intros. unfold column; simpl. rewrite <- list_fmap_compose. apply list_fmap_ext.
  intros i r _; simpl. by apply get_insert_ne.
Qed.

Lemma column_set_const_ne dst v df c :
  dst ≠ c → column c (rows (set_column_const dst v df)) = column c (rows df).
Proof. apply (column_set_with_ne dst (λ _, v)). Qed.

(** ** The schema check of [load_data] *)

Lemma has_column_true df c : has_column df c = true ↔ c ∈ columns df.
Proof. apply bool_decide_eq_true. Qed.

Lemma has_column_false df c : has_column df c = false ↔ c ∉ columns df.
Proof. apply bool_decide_eq_false. Qed.

Lemma load_data_raises df : raises (load_data df) ↔ ¬ schema_ok df.
Proof.
  unfold load_data, schema_ok, required_columns. simpl List.find.
  rewrite <- !has_column_true.
  destruct (has_column df "barangay_id"), (has_column df "date"),
    (has_column df "temperature"), (has_column df "facility_distance"),
    (has_column df "facility_score"); simpl; naive_solver.
Qed.

(** The optional columns, as [load_data] fills them in. *)
Lemma fill_optional_spec df c v :
  let df' := if negb (has_column df c) then set_column_const c v df else df in
  c ∈ columns df' ∧
  (∀ c', c' ∈ columns df → c' ∈ columns df') ∧
  length (rows df') = length (rows df) ∧
  (c ∉ columns df → Forall (λ r, r !! c = Some v) (rows df')) ∧
  (∀ c', c' ∈ columns df → column c' (rows df') = column c' (rows df)) ∧
  (∀ c', c' ≠ c → ∀ r', r' ∈ rows df' → ∃ r, r ∈ rows df ∧ r' !! c' = r !! c').
Proof.
  destruct (has_column df c) eqn:Hc; simpl.
  - apply has_column_true in Hc. naive_solver.
  - apply has_column_false in Hc. repeat split.
    + apply elem_of_add_column; auto.
    + intros c' ?. apply elem_of_add_column; auto.
    + apply length_fmap.
    + intros _. apply Forall_fmap, Forall_true. intros r; simpl.
      apply lookup_insert_eq.
    + intros c' ?. apply column_set_const_ne. congruence.
    + intros c' ? r' (r & -> & ?)%list_elem_of_fmap. exists r. split; [done|].
      by rewrite lookup_insert_ne.
Qed.

Lemma load_data_Ok df df' :
  load_data df = Ok df' →
     Forall (λ c, c ∈ columns df') canonical_columns ∧
     length (rows df') = length (rows df) ∧
     ("population" ∉ columns df →
        Forall (λ r, r !! "population" = Some (CNum 0)) (rows df')) ∧
     ("density" ∉ columns df →
        Forall (λ r, r !! "density" = Some (CNum 0)) (rows df')) ∧
     ("facility_distance" ∉ columns df →
        column "facility_distance" (rows df') = column "facility_score" (rows df)) ∧
     (∀ c, c ∈ columns df → column c (rows df') = column c (rows df)).
Proof.
  intros Hok.
  assert (schema_ok df) as (Hb & Hd & Ht & Hf).
  { destruct (decide (schema_ok df)) as [|Hn]; [done|].
    apply load_data_raises in Hn. by rewrite Hok in Hn. }
  unfold load_data in Hok. simpl List.find in Hok.
  apply has_column_true in Hb, Hd, Ht. rewrite Hb, Hd, Ht in Hok. simpl in Hok.
  rewrite andb_false_r in Hok.
  apply bind_Ok in Hok as (df1 & Hdf1 & Hok). injection Hok as <-.
  assert (length (rows df1) = length (rows df) ∧
          "facility_distance" ∈ columns df1 ∧
          (∀ c, c ∈ columns df → c ∈ columns df1) ∧
          (∀ c, c ∈ columns df1 → c ≠ "facility_distance" → c ∈ columns df) ∧
          ("facility_distance" ∉ columns df →
             column "facility_distance" (rows df1) = column "facility_score" (rows df)) ∧
          (∀ c, c ∈ columns df → column c (rows df1) = column c (rows df)))
    as (Hlen1 & Hfd1 & Hsub1 & Hsup1 & Hcopy1 & Hkeep1).
  { destruct (has_column df "facility_distance") eqn:Hfd; simpl in Hdf1.
    - injection Hdf1 as <-. apply has_column_true in Hfd. naive_solver.
    - apply has_column_false in Hfd.
      destruct (has_column df "facility_score") eqn:Hfs; [|discriminate].
      injection Hdf1 as <-. repeat split.
      + apply length_fmap.
      + apply elem_of_add_column; auto.
      + intros c ?. apply elem_of_add_column; auto.
      + intros c [?| ?]%elem_of_add_column ?; done.
      + intros _. apply column_set_with_eq.
      + intros c ?. apply column_set_with_ne. congruence. }
  pose proof (fill_optional_spec df1 "density" (CNum 0)) as Hden. simpl in Hden.
  set (df2 := if negb (has_column df1 "density") then _ else df1) in *.
  destruct Hden as (Hden_in & Hsub2 & Hlen2 & Hden_v & Hkeep2 & Hrow2).
  pose proof (fill_optional_spec df2 "population" (CNum 0)) as Hpop. simpl in Hpop.
  set (df3 := if negb (has_column df2 "population") then _ else df2) in *.
  destruct Hpop as (Hpop_in & Hsub3 & Hlen3 & Hpop_v & Hkeep3 & Hrow3).
  apply has_column_true in Hb, Hd, Ht.
  split.
  { unfold canonical_columns. repeat (apply Forall_cons; split); auto 10. }
  split; [congruence|].
  split.
  { intros Hnp. apply Hpop_v. intros Hin.
    destruct (decide ("population" ∈ columns df1)) as [Hin1|Hn1].
    - apply Hsup1 in Hin1; done.
    - revert Hin. subst df2. destruct (negb (has_column df1 "density")); [|done].
      simpl. rewrite elem_of_add_column. naive_solver. }
  split.
  { intros Hnd. assert ("density" ∉ columns df1) as Hnd1.
    { intros Hin1. apply Hsup1 in Hin1; done. }
    specialize (Hden_v Hnd1). apply Forall_forall. intros r' Hr'.
    destruct (Hrow3 "density" ltac:(done) r' Hr') as (r & Hr & ->).
    by apply (proj1 (Forall_forall _ _) Hden_v). }
  split.
  { intros Hnf. rewrite Hkeep3, Hkeep2; auto. }
  intros c Hc. rewrite Hkeep3, Hkeep2; auto.
Qed.

(** C5: [load_data] raises exactly when [barangay_id], [date] or
    [temperature] is missing or neither [facility_distance] nor
    [facility_score] is there; when it returns, the table has the six
    canonical columns and as many rows as before, [population] and [density]
    are 0 on every row if they were absent, [facility_distance] is the copy of
    [facility_score] if only the alias was there, and every column of the
    input is kept as it was. *)
Theorem load_data_schema df :
  (raises (load_data df) ↔ ¬ schema_ok df) ∧
  (∀ df', load_data df = Ok df' →
     Forall (λ c, c ∈ columns df') canonical_columns ∧
     length (rows df') = length (rows df) ∧
     ("population" ∉ columns df →
        Forall (λ r, r !! "population" = Some (CNum 0)) (rows df')) ∧
     ("density" ∉ columns df →
        Forall (λ r, r !! "density" = Some (CNum 0)) (rows df')) ∧
     ("facility_distance" ∉ columns df →
        column "facility_distance" (rows df') = column "facility_score" (rows df)) ∧
     (∀ c, c ∈ columns df → column c (rows df') = column c (rows df))).
Proof. split; [apply load_data_raises | apply load_data_Ok]. Qed.

(** ** The order on cells and the stable sort *)

Lemma string_leb_trans s1 s2 s3 :
  String.leb s1 s2 = true → String.leb s2 s3 = true → String.leb s1 s3 = true.
Proof.
  intros H1 H2. apply Is_true_true. apply Is_true_true in H1, H2.
  exact (PreOrder_Transitive (R := String.le) s1 s2 s3 H1 H2).
Qed.

Lemma cell_leb_total a b : cell_leb a b = true ∨ cell_leb b a = true.
Proof.
  destruct a as [x|s|], b as [y|t|]; simpl; auto.
  - destruct (total Qcle x y); [left | right]; by apply bool_decide_eq_true.
  - apply String.leb_total.
Qed.

Lemma cell_leb_trans a b c :
  cell_leb a b = true → cell_leb b c = true → cell_leb a c = true.
Proof.
  destruct a as [x|s|], b as [y|t|], c as [z|u|]; simpl; try done.
  - rewrite !bool_decide_eq_true. apply Qcle_trans.
  - apply string_leb_trans.
Qed.

Lemma cell_leb_antisym a b :
  cell_leb a b = true → cell_leb b a = true → a = b.
Proof.
  destruct a as [x|s|], b as [y|t|]; simpl; try done.
  - rewrite !bool_decide_eq_true. intros. f_equal. by apply Qcle_antisym.
  - intros. f_equal. by apply String.leb_antisym.
Qed.

Lemma cell_leb_refl a : cell_leb a a = true.
Proof. by destruct (cell_leb_total a a). Qed.

Lemma lex_leb_total keys r1 r2 :
  lex_leb keys r1 r2 = true ∨ lex_leb keys r2 r1 = true.
Proof.
  induction keys as [|k keys IH]; simpl; [auto|].
  repeat case_bool_decide; try congruence; auto using cell_leb_total.
Qed.

Lemma lex_leb_trans keys r1 r2 r3 :
  lex_leb keys r1 r2 = true → lex_leb keys r2 r3 = true → lex_leb keys r1 r3 = true.
Proof.
  induction keys as [|k keys IH]; simpl; [auto|].
  repeat case_bool_decide; try congruence; eauto using cell_leb_trans.
  - intros. exfalso. assert (get r1 k = get r2 k); [|done].
    apply cell_leb_antisym; congruence.
Qed.

Section StableSort.
Context {A : Type} (leb : A → A → bool).

Lemma insert_sorted_perm x l : insert_sorted leb x l ≡ₚ x :: l.
Proof.
  induction l as [|y l IH]; simpl; [done|].
  destruct (leb x y); [done|]. rewrite IH. apply Permutation_swap.
Qed.

Lemma stable_sort_perm l : stable_sort leb l ≡ₚ l.
Proof.
  induction l as [|x l IH]; simpl; [done|].
  unfold stable_sort in *; simpl. by rewrite insert_sorted_perm, IH.
Qed.

Lemma stable_sort_length l : length (stable_sort leb l) = length l.
Proof. apply Permutation_length, stable_sort_perm. Qed.

Hypothesis leb_total : ∀ x y, leb x y = true ∨ leb y x = true.
Hypothesis leb_trans : ∀ x y z, leb x y = true → leb y z = true → leb x z = true.

Lemma insert_sorted_sorted x l :
  StronglySorted (λ a b, leb a b = true) l →
  StronglySorted (λ a b, leb a b = true) (insert_sorted leb x l).
Proof.
  induction 1 as [|y l Hs IH Hy]; simpl; [repeat constructor|].
  destruct (leb x y) eqn:Hxy.
  - constructor; [by constructor|]. constructor; [done|].
    eapply Forall_impl; [exact Hy|]. simpl. eauto.
  - constructor; [done|].
    rewrite insert_sorted_perm. constructor; [|done].
    destruct (leb_total x y); congruence.
Qed.

Lemma stable_sort_sorted l :
  StronglySorted (λ a b, leb a b = true) (stable_sort leb l).
Proof.
  induction l as [|x l IH]; [constructor|]. by apply insert_sorted_sorted.
Qed.
End StableSort.

(** Sorting two lists that are related element by element, with a comparison
    that does not tell related elements apart, gives related lists. *)
Lemma stable_sort_Forall2 {A} (R : A → A → Prop) (leb : A → A → bool) l1 l2 :
  (∀ x x' y y', R x x' → R y y' → leb x y = leb x' y') →
  Forall2 R l1 l2 → Forall2 R (stable_sort leb l1) (stable_sort leb l2).
Proof.
  intros Hleb. induction 1 as [|x x' l l' Hx Hl IH]; [constructor|].
  unfold stable_sort in *; simpl.
  induction IH as [|y y' s s' Hy Hs IHs]; simpl; [by repeat constructor|].
  rewrite (Hleb x x' y y') by done.
  destruct (leb x' y'); repeat constructor; auto.
Qed.

Lemma sort_values_Ok keys df df' :
  sort_values keys df = Ok df' →
  columns df' = columns df ∧
  rows df' = stable_sort (lex_leb keys) (rows df) ∧
  Forall (λ k, k ∈ columns df) keys.
Proof.
  unfold sort_values. intros (u & Hreq & H)%bind_Ok. injection H as <-.
  repeat split. by eapply require_columns_Ok.
Qed.

(** ** Lists: filters, windows, distinct values *)

Lemma filter_fmap_comp {A B} (f : A → B) (P : B → Prop) `{!∀ x, Decision (P x)}
    (l : list A) :
  filter P (f <$> l) = f <$> filter (λ x, P (f x)) l.
Proof.
  induction l as [|x l IH]; [done|]. rewrite fmap_cons, !filter_cons, IH.
  by destruct (decide (P (f x))).
Qed.

Lemma trailing_fmap {A B} (f : A → B) w (l : list A) :
  trailing w (f <$> l) = f <$> trailing w l.
Proof. unfold trailing. by rewrite length_fmap, fmap_drop. Qed.

Lemma trailing_length {A} w (l : list A) : length (trailing w l) ≤ w.
Proof. unfold trailing. rewrite length_drop. lia. Qed.

Lemma trailing_subseteq {A} w (l : list A) x : x ∈ trailing w l → x ∈ l.
Proof.
  unfold trailing. intros Hx. rewrite <- (take_drop (length l - w) l).
  apply elem_of_app; auto.
Qed.

Lemma trailing_last {A} w (l : list A) x :
  (1 ≤ w)%nat → x ∈ trailing w (l ++ [x]).
Proof.
  intros Hw. unfold trailing. rewrite length_app; simpl.
  rewrite drop_app_le by lia. apply elem_of_app. right. by left.
Qed.

Lemma StronglySorted_lookup_lt {A} (R : A → A → Prop) l i j a b :
  StronglySorted R l → l !! i = Some a → l !! j = Some b → (i < j)%nat → R a b.
Proof.
  intros Hs. revert i j. induction Hs as [|x l Hs IH Hx]; intros i j Hi Hj Hlt.
  { by rewrite lookup_nil in Hi. }
  destruct j as [|j]; [lia|]. simpl in Hj. destruct i as [|i]; simpl in Hi.
  - injection Hi as <-. rewrite Forall_forall in Hx. apply Hx.
    by eapply list_elem_of_lookup_2.
  - eapply IH; eauto. lia.
Qed.

Lemma nunique_perm l1 l2 : l1 ≡ₚ l2 → nunique l1 = nunique l2.
Proof.
  intros Hp. unfold nunique. apply Permutation_length.
  apply NoDup_Permutation; [apply NoDup_remove_dups..|].
  intros x. rewrite !elem_of_remove_dups, !list_elem_of_filter. by rewrite Hp.
Qed.

Lemma column_perm c rs1 rs2 : rs1 ≡ₚ rs2 → column c rs1 ≡ₚ column c rs2.
Proof. unfold column. by intros ->. Qed.

(** ** The rolling mean of [groupby(...).transform] *)

Lemma rolling_mean_lookup w xs i :
  (i < length xs)%nat →
  rolling_mean w xs !! i = Some (nanmean (trailing w (take (S i) xs))).
Proof.
  intros Hi. unfold rolling_mean. rewrite list_lookup_imap.
  destruct (lookup_lt_is_Some_2 xs i Hi) as [x ->]. done.
Qed.

Lemma transform_groups_length f kvs : length (transform_groups f kvs) = length kvs.
Proof. apply length_imap. Qed.

Lemma transform_groups_rolling w kvs i k v :
  kvs !! i = Some (k, v) → is_null k = false →
  transform_groups (rolling_mean w) kvs !! i =
    Some (nanmean (trailing w (snd <$> filter (λ p, p.1 = k) (take (S i) kvs)))).
Proof.
  intros Hi Hk. unfold transform_groups. rewrite list_lookup_imap, Hi. simpl.
  rewrite Hk. f_equal.
  set (P := λ p : cell * cell, p.1 = k).
  assert (filter P kvs = filter P (take i kvs) ++ (k, v) :: filter P (drop (S i) kvs))
    as Hsplit.
  { rewrite <- (take_drop_middle kvs i (k, v)) at 1 by done.
    rewrite filter_app, filter_cons. by rewrite decide_True by done. }
  rewrite rolling_mean_lookup.
  2: { rewrite length_fmap, Hsplit, length_app. simpl. lia. }
  simpl. do 2 f_equal. rewrite <- fmap_take. f_equal.
  rewrite (take_S_r kvs i (k, v)) by done.
  rewrite filter_app, filter_cons, decide_True, filter_nil by done.
  rewrite Hsplit.
  rewrite (cons_middle (k, v)), app_assoc.
  rewrite take_app_length'; [done|]. rewrite length_app. simpl. lia.
Qed.

Lemma groupby_transform_length key val f rs :
  length (groupby_transform key val f rs) = length rs.
Proof. unfold groupby_transform. by rewrite transform_groups_length, length_fmap. Qed.

(** The value [groupby("barangay_id")["temperature"].transform(rolling mean)]
    puts at row [i]: the mean over the last [w] rows of the same key up to
    row [i]. *)
Lemma groupby_transform_rolling key val w rs i r :
  rs !! i = Some r → is_null (get r key) = false →
  groupby_transform key val (rolling_mean w) rs !! i =
    Some (nanmean (column val
            (trailing w (filter (λ r', get r' key = get r key) (take (S i) rs))))).
Proof.
  intros Hi Hk. unfold groupby_transform.
  erewrite transform_groups_rolling; [| by rewrite list_lookup_fmap, Hi | done].
  do 2 f_equal. unfold column. rewrite <- trailing_fmap. f_equal.
  rewrite <- fmap_take, filter_fmap_comp. simpl.
  rewrite <- list_fmap_compose. done.
Qed.

(** ** [smooth], [derive] and [prepare_features], stage by stage *)

Lemma column_zip_insert_ne c c' (rs : list row) (vs : list cell) :
  c ≠ c' → length vs = length rs →
  column c' (zip_with (λ r v, <[c := v]> r) rs vs) = column c' rs.
Proof.
  intros Hne. revert vs. induction rs as [|r rs IH]; intros [|v vs] Hlen;
    simplify_eq/=; [done|].
  unfold column in *. simpl. f_equal; [by apply get_insert_ne | auto].
Qed.

Lemma column_zip_insert_eq c (rs : list row) (vs : list cell) :
  length vs = length rs →
  column c (zip_with (λ r v, <[c := v]> r) rs vs) = vs.
Proof.
  revert vs. induction rs as [|r rs IH]; intros [|v vs] Hlen; simplify_eq/=; [done|].
  unfold column in *. simpl. f_equal; [apply get_insert_eq | auto].
Qed.

Lemma set_column_list_Ok c vs df df' :
  set_column_list c vs df = Ok df' →
  length vs = length (rows df) ∧
  columns df' = add_column c (columns df) ∧
  rows df' = zip_with (λ r v, <[c := v]> r) (rows df) vs.
Proof.
  unfold set_column_list. case_bool_decide; [|discriminate]. by intros [= <-].
Qed.

Lemma smooth_Ok df use_rolling window df' :
  smooth df use_rolling window = Ok df' →
  let rs := stable_sort (lex_leb sort_keys) (rows df) in
  columns df' = add_column "temp_rolling" (columns df) ∧
  Forall (λ k, k ∈ columns df) sort_keys ∧
  "temperature" ∈ columns df ∧
  ∃ vs, length vs = length rs ∧
        rows df' = zip_with (λ r v, <["temp_rolling" := v]> r) rs vs ∧
        if use_rolling && bool_decide (1 < nunique (column "date" (rows df)))
        then ((∃ r, r ∈ rs ∧ is_null (get r "barangay_id") = false) → (1 ≤ window)%Z) ∧
             existsb is_str
               (column "temperature"
                  (filter (λ r, is_null (get r "barangay_id") = false) rs)) = false ∧
             vs = groupby_transform "barangay_id" "temperature"
                    (rolling_mean (Z.to_nat window)) rs
        else vs = column "temperature" rs.
Proof.
  unfold smooth. intros (df1 & (Hcols & Hrows & Hkeys)%sort_values_Ok & H)%bind_Ok.
  fold sort_keys in Hrows. simpl.
  rewrite Hrows in H.
  rewrite (nunique_perm (column "date" (stable_sort (lex_leb sort_keys) (rows df)))
             (column "date" (rows df))) in H
    by apply column_perm, stable_sort_perm.
  destruct (use_rolling && bool_decide _) eqn:Hbranch.
  - apply bind_Ok in H as ([] & Ht%require_column_Ok & H). cbv zeta in H.
    destruct (bool_decide (_ ≠ []) && bool_decide (window < 1)%Z) eqn:Hw; [discriminate|].
    destruct (existsb is_str _) eqn:Hstr; [discriminate|].
    apply set_column_list_Ok in H as (Hlen & Hc & Hr).
    rewrite Hcols in *. rewrite Hrows in *.
    repeat split; try done.
    eexists. split; [exact Hlen|]. split; [exact Hr|]. split; [|done].
    intros (r & Hr1 & Hr2). apply andb_false_iff in Hw as [Hw|Hw].
    + apply bool_decide_eq_false in Hw. destruct Hw. intros Hnil.
      assert (r ∈ filter (λ r, is_null (get r "barangay_id") = false)
                         (stable_sort (lex_leb sort_keys) (rows df))) as Hin
        by (by apply list_elem_of_filter).
      rewrite Hnil in Hin. by apply elem_of_nil in Hin.
    + apply bool_decide_eq_false in Hw. lia.
  - apply bind_Ok in H as ([] & Ht%require_column_Ok & H). injection H as <-.
    simpl. rewrite Hcols in *. rewrite Hrows. repeat split; try done.
    exists (column "temperature" (stable_sort (lex_leb sort_keys) (rows df))).
    repeat split.
    + unfold column. by rewrite length_fmap.
    + unfold column. rewrite zip_with_fmap_r, zip_with_diag. done.
Qed.

Section SmoothingLemmas.
Variable parse_float : string → option Qc.

Lemma derive_Ok df df' :
  derive parse_float df = Ok df' →
  "facility_distance" ∈ columns df ∧
  columns df' = add_column "density" (add_column "facility_score" (columns df)) ∧
  rows df' = derive_row parse_float <$> rows df.
Proof.
  unfold derive. intros ([] & Hf%require_column_Ok & ([] & Hd & H)%bind_Ok)%bind_Ok.
  injection H as <-. repeat split; [done|]. simpl.
  rewrite <- list_fmap_compose. apply list_fmap_ext. intros i r _. simpl.
  unfold derive_row. by rewrite get_insert_ne.
Qed.

Lemma prepare_features_Ok df use_rolling window df' fs cols w :
  prepare_features parse_float df use_rolling window = Ok (df', fs, cols, w) →
  ∃ df1, smooth df use_rolling window = Ok df1 ∧
         derive parse_float df1 = Ok df' ∧
         select_features df' = (cols, w) ∧
         fit_transform (length (rows df')) (feature_columns cols df') = Ok fs.
Proof.
  unfold prepare_features.
  intros (df1 & Hs & (df2 & Hd & H)%bind_Ok)%bind_Ok.
  destruct (select_features df2) as [cols' w'] eqn:Hsel.
  apply bind_Ok in H as (fs' & Hfit & H). injection H as <- <- <- <-.
  eauto.
Qed.

Lemma get_derive_row r c :
  c ≠ "density" → c ≠ "facility_score" → get (derive_row parse_float r) c = get r c.
Proof. intros. unfold derive_row. by rewrite !get_insert_ne. Qed.

Lemma column_derive_row rs c :
  c ≠ "density" → c ≠ "facility_score" →
  column c (derive_row parse_float <$> rs) = column c rs.
Proof.
  intros. unfold column. rewrite <- list_fmap_compose. apply list_fmap_ext.
  intros i r _. simpl. by apply get_derive_row.
Qed.

(** What [prepare_features] leaves in the columns it does not compute: the
    sorted input. *)
Lemma prepare_features_rows df use_rolling window df' fs cols w :
  prepare_features parse_float df use_rolling window = Ok (df', fs, cols, w) →
  let rs := stable_sort (lex_leb sort_keys) (rows df) in
  length (rows df') = length (rows df) ∧
  ∀ c, c ≠ "density" → c ≠ "facility_score" → c ≠ "temp_rolling" →
       column c (rows df') = column c rs.
Proof.
  intros (df1 & Hs & Hd & _)%prepare_features_Ok.
  apply smooth_Ok in Hs as (_ & _ & _ & vs & Hlen & Hrows & _).
  apply derive_Ok in Hd as (_ & _ & Hrows').
  simpl. split.
  - rewrite Hrows', length_fmap, Hrows, length_zip_with.
    rewrite stable_sort_length in *. lia.
  - intros c ? ? ?. rewrite Hrows', column_derive_row, Hrows by done.
    by apply column_zip_insert_ne.
Qed.

(** ** No smoothing when it is disabled or there is a single date *)


End SmoothingLemmas.

Section RollingWindow.
Variable parse_float : string → option Qc.

Lemma lex_leb_same_unit r' r :
  get r' "barangay_id" = get r "barangay_id" →
  lex_leb sort_keys r' r = true →
  cell_leb (get r' "date") (get r "date") = true.
Proof.
  intros Hid. unfold sort_keys. simpl. rewrite bool_decide_eq_true_2 by done.
  case_bool_decide as Hd; [|done]. intros _. rewrite Hd. apply cell_leb_refl.
Qed.

(** ** The rolling mean runs over the last [W] rows of the unit *)

(** C6 (as amended): when smoothing is enabled and the input has more than
    one distinct date, the window size is at least 1 as soon as some row
    has a unit id, no row is dropped, and every row with a unit id has [temp_rolling] equal to the mean of the
    non-missing temperatures of the trailing window of up to [W] rows of
    its unit that ends at that row, the rows being sorted by unit and date
    (rows of one date in input order).  The row itself is in the window, the
    window has [W] rows or all the unit's rows so far, and every row of it is
    an input row of the same unit with a date that is not later. *)
Theorem rolling_mean_over_trailing_rows df window df' fs cols w :
  prepare_features parse_float df true window = Ok (df', fs, cols, w) →
  (1 < nunique (column "date" (rows df)))%nat →
  let rs := stable_sort (lex_leb sort_keys) (rows df) in
  ((∃ r, r ∈ rows df ∧ is_null (get r "barangay_id") = false) → (1 ≤ window)%Z) ∧
  rs ≡ₚ rows df ∧
  length (rows df') = length (rows df) ∧
  (∀ c, c ∈ ["barangay_id"; "date"; "temperature"] →
        column c (rows df') = column c rs) ∧
  ∀ i r, rs !! i = Some r → is_null (get r "barangay_id") = false →
    let unit_rows :=
      filter (λ r', get r' "barangay_id" = get r "barangay_id") (take (S i) rs) in
    let win := trailing (Z.to_nat window) unit_rows in
    column "temp_rolling" (rows df') !! i = Some (nanmean (column "temperature" win)) ∧
    r ∈ win ∧
    length win = (Z.to_nat window `min` length unit_rows)%nat ∧
    ∀ r', r' ∈ win →
      r' ∈ rows df ∧
      get r' "barangay_id" = get r "barangay_id" ∧
      cell_leb (get r' "date") (get r "date") = true.
Proof.
  intros Hpf Hdates rs.
  pose proof (prepare_features_rows _ _ _ _ _ _ _ _ Hpf) as [Hlen Hkeep].
  apply prepare_features_Ok in Hpf as (df1 & Hs & Hd & _).
  apply smooth_Ok in Hs as (_ & _ & _ & vs & Hlenvs & Hrows & Hvs).
  apply derive_Ok in Hd as (_ & _ & Hrows').
  rewrite (bool_decide_eq_true_2 _ Hdates) in Hvs. simpl in Hvs.
  destruct Hvs as (Hw & _ & Hvs). fold rs in Hlenvs, Hrows, Hvs, Hw.
  assert (rs ≡ₚ rows df) as Hperm by apply stable_sort_perm.
  split.
  { intros (r & Hr & Hid). apply Hw. exists r. split; [|done].
    assert (r ∈ rs) as Hin by (by rewrite Hperm). exact Hin. }
  split; [done|]. split; [done|]. split.
  { intros c Hc. apply Hkeep; set_solver. }
  intros i r Hi Hid unit_rows win.
  assert (1 ≤ window)%Z as Hw1.
  { apply Hw. exists r. split; [by eapply list_elem_of_lookup_2|done]. }
  assert (column "temp_rolling" (rows df') = vs) as ->.
  { rewrite Hrows', column_derive_row, Hrows by done.
    by apply column_zip_insert_eq. }
  split.
  { rewrite Hvs. by apply groupby_transform_rolling. }
  assert (unit_rows =
            filter (λ r', get r' "barangay_id" = get r "barangay_id") (take i rs) ++ [r])
    as Hlast.
  { unfold unit_rows. rewrite (take_S_r rs i r) by done.
    by rewrite filter_app, filter_cons, decide_True, filter_nil. }
  split.
  { unfold win. rewrite Hlast. apply trailing_last. lia. }
  split.
  { unfold win, trailing. rewrite length_drop. lia. }
  intros r' Hr'. apply trailing_subseteq in Hr'.
  apply list_elem_of_filter in Hr' as [Hsame Hin].
  split.
  { rewrite <- Hperm. rewrite <- (take_drop (S i) rs). apply elem_of_app; auto. }
  split; [done|].
  apply list_elem_of_lookup in Hin as [j Hj].
  apply lookup_take_Some in Hj as [Hj Hlt].
  apply lex_leb_same_unit; [done|].
  destruct (decide (j = i)) as [->|Hne].
  - assert (r' = r) as -> by congruence.
    destruct (lex_leb_total sort_keys r r); done.
  - eapply (StronglySorted_lookup_lt (λ a b, lex_leb sort_keys a b = true) rs j i);
      [|done..|lia].
    apply stable_sort_sorted; [apply lex_leb_total | apply lex_leb_trans].
Qed.

End RollingWindow.

(** ** Minimum, maximum and the scaler *)

Lemma foldl_Qcmin_spec v vs :
  foldl Qcmin v vs ∈ v :: vs ∧ ∀ x, x ∈ v :: vs → (foldl Qcmin v vs ≤ x)%Qc.
Proof.
  revert v. induction vs as [|u vs IH]; intros v; simpl.
  { split; [by left|]. intros x ->%list_elem_of_singleton. apply Qcle_refl. }
  destruct (IH (Qcmin v u)) as [Hin Hle]. split.
  - apply elem_of_cons in Hin as [Heq|Hin]; [|by do 2 right].
    rewrite Heq. unfold Qcmin. case_bool_decide; [by left | right; by left].
  - intros x Hx.
    assert (Qcmin v u ≤ v ∧ Qcmin v u ≤ u)%Qc as [Hv Hu].
    { unfold Qcmin. case_bool_decide as Hc; split; try done; try apply Qcle_refl.
      apply Qclt_le_weak. by apply Qcnot_le_lt. }
    pose proof (Hle (Qcmin v u) ltac:(by left)) as Hm.
    apply elem_of_cons in Hx as [->|Hx]; [by eapply Qcle_trans|].
    apply elem_of_cons in Hx as [->|Hx]; [by eapply Qcle_trans|].
    apply Hle. by right.
Qed.


Lemma elem_of_omap_id {A} (col : list (option A)) x :
  x ∈ omap id col ↔ Some x ∈ col.
Proof. rewrite list_elem_of_omap. naive_solver. Qed.

Lemma nanmin_spec col lo :
  nanmin col = Some lo → Some lo ∈ col ∧ ∀ x, Some x ∈ col → (lo ≤ x)%Qc.
Proof.
  unfold nanmin. destruct (omap id col) as [|v vs] eqn:Hvs; [done|].
  intros [= <-]. destruct (foldl_Qcmin_spec v vs) as [Hin Hle].
  setoid_rewrite <- elem_of_omap_id. rewrite Hvs. done.
Qed.


Lemma float_eps_pos : (0 < Qc_of_Z 10 * float_eps)%Qc.
Proof. apply Qcmult_pos_pos; [by apply Z2Qc_pos|apply pow2_pos]. Qed.

(** The range the scaler divides by is never 0. *)
Lemma handle_zeros_in_scale_ne0 (range : Qc) : handle_zeros_in_scale range ≠ 0%Qc.
Proof.
  unfold handle_zeros_in_scale. case_bool_decide as Hsmall; [done|].
  intros ->. apply Hsmall, float_eps_pos.
Qed.



Lemma scale_column_lookup col lo hi i x :
  nanmin col = Some lo → nanmax col = Some hi → col !! i = Some (Some x) →
  scale_column col !! i =
    Some (Some (fadd (fmul x (binary64 (1 / handle_zeros_in_scale (fsub hi lo))))
                     (fsub 0 (fmul lo (binary64 (1 / handle_zeros_in_scale
                                                       (fsub hi lo))))))).
Proof.
  intros Hlo Hhi Hi. unfold scale_column. rewrite list_lookup_fmap, Hi, Hlo, Hhi.
  simpl. unfold fdiv.
  by rewrite bool_decide_eq_false_2 by apply handle_zeros_in_scale_ne0.
Qed.

Lemma scale_column_length col : length (scale_column col) = length col.
Proof. unfold scale_column. by rewrite length_fmap. Qed.

Lemma rows_of_columns_length {A} n (cols : list (list (option A))) :
  length (rows_of_columns n cols) = n.
Proof. unfold rows_of_columns. by rewrite length_fmap, length_seq. Qed.

Lemma rows_of_columns_row_length {A} n (cols : list (list (option A))) :
  Forall (λ frow, length frow = length cols) (rows_of_columns n cols).
Proof.
  unfold rows_of_columns. apply Forall_fmap, Forall_true. intros i. simpl.
  by rewrite length_fmap.
Qed.

(** Column [j] of the array built from columns is column [j]. *)
Lemma rows_of_columns_column {A} n (cols : list (list (option A))) j col :
  cols !! j = Some col → length col = n →
  (λ frow, default None (frow !! j)) <$> rows_of_columns n cols = col.
Proof.
  intros Hj Hlen. unfold rows_of_columns. rewrite <- list_fmap_compose.
  apply list_eq. intros i. rewrite list_lookup_fmap.
  destruct (decide (i < n)%nat) as [Hi|Hi].
  - rewrite lookup_seq_lt by done. simpl. rewrite list_lookup_fmap, Hj. simpl.
    destruct (col !! i) as [o|] eqn:Hc; [done|].
    apply lookup_ge_None in Hc. lia.
  - rewrite lookup_seq_ge by lia. simpl. symmetry. apply lookup_ge_None. lia.
Qed.

Lemma fit_transform_Ok n features fs :
  fit_transform n features = Ok fs →
  n ≠ 0%nat ∧
  Forall (Forall (λ c, is_str c = false)) features ∧
  fs = rows_of_columns n (scale_column <$> (fmap num <$> features)).
Proof.
  unfold fit_transform. destruct (existsb _ features) eqn:Hs; [discriminate|].
  case_bool_decide; [discriminate|]. intros [= <-]. repeat split; [done|].
  apply Forall_forall. intros col Hcol. apply Forall_forall. intros c Hc.
  destruct (is_str c) eqn:Hstr; [|done].
  assert (existsb (existsb is_str) features = true); [|congruence].
  apply existsb_exists. exists col. split; [by apply list_elem_of_In|].
  apply existsb_exists. exists c. split; [by apply list_elem_of_In | done].
Qed.

(** The scaler raises on an empty array or on a string, and on nothing
    else: a column of equal values is no error. *)
Lemma fit_transform_raises n features :
  raises (fit_transform n features) ↔
  n = 0%nat ∨ ∃ col c, col ∈ features ∧ c ∈ col ∧ is_str c = true.
Proof.
  unfold fit_transform. destruct (existsb _ features) eqn:Hs; simpl.
  - split; [intros _; right | done].
    apply existsb_exists in Hs as (col & Hcol & Hs).
    apply existsb_exists in Hs as (c & Hc & Hs).
    exists col, c. by rewrite !list_elem_of_In.
  - case_bool_decide; simpl; [naive_solver|]. split; [done|].
    intros [?|(col & c & Hcol & Hc & Hstr)]; [done|].
    assert (existsb (existsb is_str) features = true); [|congruence].
    apply existsb_exists. exists col. split; [by apply list_elem_of_In|].
    apply existsb_exists. exists c. split; [by apply list_elem_of_In | done].
Qed.

(** After imputation a column that has a value has no NaN left. *)
Lemma nanmean_is_num col q :
  CNum q ∈ col → ∃ m, nanmean col = CNum m.
Proof.
  intros Hin. unfold nanmean.
  assert (q ∈ omap num col) as Hq.
  { apply list_elem_of_omap. by exists (CNum q). }
  destruct (omap num col); [by apply elem_of_nil in Hq | eauto].
Qed.

Lemma fillna_mean_length col : length (fillna_mean col) = length col.
Proof. unfold fillna_mean. by rewrite length_fmap. Qed.

Lemma fillna_mean_all_num col q :
  Forall (λ c, is_str c = false) (fillna_mean col) →
  Some q ∈ num <$> fillna_mean col →
  Forall (λ o, is_Some o) (num <$> fillna_mean col).
Proof.
  intros Hstr Hq. apply Forall_fmap, Forall_forall. intros c Hc. simpl.
  destruct c as [x|s|]; [done| |].
  - rewrite Forall_forall in Hstr. by apply Hstr in Hc.
  - exfalso. apply list_elem_of_fmap in Hq as (c' & Hc' & Hin').
    destruct c' as [x| |]; simplify_eq/=.
    unfold fillna_mean in *.
    apply list_elem_of_fmap in Hin' as (a & Ha & Hain).
    assert (∃ y, CNum y ∈ col) as [y Hy].
    { destruct a as [y| |]; simplify_eq/=; [eauto|].
      unfold nanmean in Ha. destruct (omap num col) as [|v vs] eqn:Hom; [done|].
      assert (v ∈ omap num col) as Hv by (rewrite Hom; by left).
      apply list_elem_of_omap in Hv as (c & Hc1 & Hc2).
      destruct c; simplify_eq/=. eauto. }
    destruct (nanmean_is_num col y Hy) as [m Hm].
    apply list_elem_of_fmap in Hc as (b & Hb & Hbin).
    rewrite Hm in Hb. destruct b; simplify_eq/=.
Qed.

Section FeatureSelection.
Variable parse_float : string → option Qc.

Lemma existsb_perm {A} (f : A → bool) l1 l2 :
  l1 ≡ₚ l2 → existsb f l1 = existsb f l2.
Proof.
  intros Hp. apply eq_true_iff_eq. rewrite !existsb_exists.
  setoid_rewrite <- list_elem_of_In. by setoid_rewrite Hp.
Qed.

Lemma existsb_fmap {A B} (f : B → bool) (g : A → B) l :
  existsb f (g <$> l) = existsb (λ x, f (g x)) l.
Proof. induction l as [|x l IH]; csimpl; [done | by rewrite IH]. Qed.

Lemma column_smoothed_rows c (rs : list row) (vs : list cell) :
  c ≠ "density" → c ≠ "facility_score" → length vs = length rs →
  column "density" (derive_row parse_float <$> zip_with (λ r v, <[c := v]> r) rs vs)
  = (λ r, to_numeric_fillna0 parse_float (get r "density")) <$> rs.
Proof.
  intros ? ?. revert vs. induction rs as [|r rs IH]; intros [|v vs] Hlen;
    simplify_eq/=; [done|].
  unfold column in *. csimpl. f_equal; [|auto]. unfold derive_row.
  by rewrite get_insert_eq, get_insert_ne.
Qed.

(** The density the selector looks at is the coerced density of the input. *)
Lemma has_density_input df use_rolling window df' fs cols w :
  prepare_features parse_float df use_rolling window = Ok (df', fs, cols, w) →
  has_density df' =
    existsb (λ r, gt0 (to_numeric_fillna0 parse_float (get r "density"))) (rows df).
Proof.
  intros (df1 & Hs & Hd & _)%prepare_features_Ok.
  apply smooth_Ok in Hs as (_ & _ & _ & vs & Hlen & Hrows & _).
  apply derive_Ok in Hd as (_ & _ & Hrows').
  unfold has_density. rewrite Hrows', Hrows, column_smoothed_rows by done.
  rewrite existsb_fmap. apply existsb_perm, stable_sort_perm.
Qed.

(** ** One feature set and one weight vector for the run *)

(** C1: if some input row has a density above 0 after coercion (a string
    that is no number, or a missing value, counts as 0), [prepare_features]
    returns the features [temp_rolling; facility_score; density] with the
    weights [1/3; 1/3; 1/3]; otherwise it returns [temp_rolling;
    facility_score] with the weights [1/2; 1/2].  The weights sum to 1,
    there is one weight per feature name, and every row of the scaled array
    has one entry per feature name. *)
Theorem feature_set_is_global df use_rolling window df' fs cols w :
  prepare_features parse_float df use_rolling window = Ok (df', fs, cols, w) →
  (if existsb (λ r, gt0 (to_numeric_fillna0 parse_float (get r "density"))) (rows df)
   then cols = ["temp_rolling"; "facility_score"; "density"] ∧ w = [third; third; third]
   else cols = ["temp_rolling"; "facility_score"] ∧ w = [half; half]) ∧
  (Qc_of_Z 3 * third = 1)%Qc ∧ (Qc_of_Z 2 * half = 1)%Qc ∧
  sum_list w = 1%Qc ∧
  length w = length cols ∧
  length fs = length (rows df) ∧
  Forall (λ frow, length frow = length cols) fs.
Proof.
  intros Hpf.
  pose proof (has_density_input _ _ _ _ _ _ _ Hpf) as Hden.
  pose proof (prepare_features_rows _ _ _ _ _ _ _ _ Hpf) as [Hlen _].
  apply prepare_features_Ok in Hpf as (df1 & _ & _ & Hsel & Hfit).
  apply fit_transform_Ok in Hfit as (_ & _ & ->).
  unfold select_features in Hsel. rewrite Hden in Hsel.
  assert (Qc_of_Z 3 * third = 1)%Qc as H3 by (by apply Qc_is_canon).
  assert (Qc_of_Z 2 * half = 1)%Qc as H2 by (by apply Qc_is_canon).
  split.
  { destruct (existsb _ (rows df)); by injection Hsel as <- <-. }
  split; [done|]. split; [done|].
  assert (sum_list w = 1%Qc ∧ length w = length cols) as [Hsum Hlw].
  { destruct (existsb _ (rows df)); injection Hsel as <- <-;
      (split; [by apply Qc_is_canon | done]). }
  split; [done|]. split; [done|]. split.
  - by rewrite rows_of_columns_length.
  - eapply Forall_impl; [apply rows_of_columns_row_length|]. simpl.
    intros frow ->. unfold feature_columns. by rewrite !length_fmap.
Qed.

(** ** Min-max scaling of every feature column *)


End FeatureSelection.

(** ** The input's [facility_score] column is never read

    [erase_df] forgets the [facility_score] entries of a table.  Every stage
    up to [derive] commutes with it, and [derive] overwrites the column. *)

Lemma get_erase r c : c ≠ "facility_score" → get (erase r) c = get r c.
Proof. intros. unfold get, erase. by rewrite lookup_delete_ne. Qed.

Lemma erase_insert_ne r c v :
  c ≠ "facility_score" → erase (<[c := v]> r) = <[c := v]> (erase r).
Proof. intros. unfold erase. by rewrite delete_insert_ne. Qed.

Lemma insert_erase r v :
  <["facility_score" := v]> (erase r) = <["facility_score" := v]> r.
Proof. unfold erase. apply insert_delete_eq. Qed.

Lemma erase_insert_eq r v : erase (<["facility_score" := v]> r) = erase r.
Proof. unfold erase. apply delete_insert_eq. Qed.

Lemma column_erase c rs :
  c ≠ "facility_score" → column c (erase <$> rs) = column c rs.
Proof.
  intros. unfold column. rewrite <- list_fmap_compose. apply list_fmap_ext.
  intros i r _. simpl. by apply get_erase.
Qed.

Lemma lex_leb_erase r1 r2 :
  lex_leb sort_keys (erase r1) (erase r2) = lex_leb sort_keys r1 r2.
Proof. unfold sort_keys. simpl. by rewrite !get_erase. Qed.

Lemma stable_sort_fmap {A} (leb : A → A → bool) (f : A → A) l :
  (∀ x y, leb (f x) (f y) = leb x y) →
  stable_sort leb (f <$> l) = f <$> stable_sort leb l.
Proof.
  intros Hf. induction l as [|x l IH]; [done|].
  unfold stable_sort in *. csimpl. rewrite IH.
  generalize (foldr (insert_sorted leb) [] l). intros s.
  induction s as [|y s IHs]; csimpl; [done|].
  rewrite Hf. destruct (leb x y); csimpl; [done | by rewrite IHs].
Qed.

Lemma zip_insert_erase c (rs : list row) (vs : list cell) :
  c ≠ "facility_score" →
  zip_with (λ r v, <[c := v]> r) (erase <$> rs) vs
  = erase <$> zip_with (λ r v, <[c := v]> r) rs vs.
Proof.
  intros Hc. revert vs. induction rs as [|r rs IH]; intros [|v vs]; csimpl; try done.
  by rewrite IH, erase_insert_ne.
Qed.

Lemma set_column_list_erase c vs df :
  c ≠ "facility_score" →
  set_column_list c vs (erase_df df) = map_result erase_df (set_column_list c vs df).
Proof.
  intros Hc. unfold set_column_list. simpl. rewrite length_fmap.
  case_bool_decide; [|done]. simpl. unfold erase_df. simpl.
  by rewrite zip_insert_erase.
Qed.

Lemma set_column_with_erase c f df :
  c ≠ "facility_score" → (∀ r, f (erase r) = f r) →
  set_column_with c f (erase_df df) = erase_df (set_column_with c f df).
Proof.
  intros Hc Hf. unfold set_column_with, erase_df. simpl. f_equal.
  rewrite <- !list_fmap_compose. apply list_fmap_ext. intros i r _. simpl.
  by rewrite Hf, erase_insert_ne.
Qed.

Lemma require_column_erase c df :
  require_column c (erase_df df) = require_column c df.
Proof. done. Qed.

Lemma require_columns_erase cs df :
  require_columns cs (erase_df df) = require_columns cs df.
Proof. induction cs as [|c cs IH]; [done|]. simpl. by rewrite IH. Qed.

Lemma sort_values_erase df :
  sort_values sort_keys (erase_df df) = map_result erase_df (sort_values sort_keys df).
Proof.
  unfold sort_values. rewrite require_columns_erase.
  destruct (require_columns sort_keys df) as [[]|e]; [|done]. simpl.
  unfold erase_df. simpl.
  f_equal. f_equal. apply stable_sort_fmap, lex_leb_erase.
Qed.

Lemma groupby_transform_erase key val f rs :
  key ≠ "facility_score" → val ≠ "facility_score" →
  groupby_transform key val f (erase <$> rs) = groupby_transform key val f rs.
Proof.
  intros. unfold groupby_transform. f_equal.
  rewrite <- list_fmap_compose. apply list_fmap_ext. intros i r _. simpl.
  by rewrite !get_erase.
Qed.

Lemma grouped_erase (rs : list row) :
  filter (λ r, is_null (get r "barangay_id") = false) (erase <$> rs)
  = erase <$> filter (λ r, is_null (get r "barangay_id") = false) rs.
Proof.
  rewrite filter_fmap_comp. f_equal. apply list_filter_iff. intros r. simpl.
  by rewrite get_erase.
Qed.

Lemma smooth_erase df use_rolling window :
  smooth (erase_df df) use_rolling window
  = map_result erase_df (smooth df use_rolling window).
Proof.
  unfold smooth. fold sort_keys. rewrite sort_values_erase.
  destruct (sort_values sort_keys df) as [df1|e]; [|done]. simpl.
  rewrite !column_erase by done.
  destruct (use_rolling && _).
  - rewrite require_column_erase.
    destruct (require_column "temperature" df1) as [[]|e]; [|done]. simpl.
    rewrite grouped_erase, column_erase by done.
    assert (bool_decide
              (erase <$> filter (λ r, is_null (get r "barangay_id") = false) (rows df1)
               ≠ [])
            = bool_decide
                (filter (λ r, is_null (get r "barangay_id") = false) (rows df1) ≠ []))
      as ->.
    { by destruct (filter _ (rows df1)). }
    destruct (bool_decide _ && bool_decide _); [done|].
    destruct (existsb is_str _); [done|].
    rewrite groupby_transform_erase by done.
    by apply set_column_list_erase.
  - rewrite require_column_erase.
    destruct (require_column "temperature" df1) as [[]|e]; [|done]. simpl.
    f_equal. apply set_column_with_erase; [done|]. intros r. by apply get_erase.
Qed.

Section FacilityScore.
Variable parse_float : string → option Qc.

Lemma derive_row_erase r : derive_row parse_float (erase r) = derive_row parse_float r.
Proof.
  unfold derive_row. rewrite !get_erase by done. by rewrite insert_erase.
Qed.

Lemma derive_erase df : derive parse_float (erase_df df) = derive parse_float df.
Proof.
  unfold derive. rewrite require_column_erase.
  destruct (require_column "facility_distance" df) as [[]|e]; [|done]. simpl.
  unfold require_column, has_column. simpl.
  case_bool_decide; [|done]. simpl. f_equal.
  unfold set_column_with. simpl. f_equal.
  rewrite <- !list_fmap_compose. apply list_fmap_ext. intros i r _. simpl.
  rewrite !get_insert_ne by done. rewrite !get_erase by done.
  by rewrite insert_erase.
Qed.

Lemma prepare_features_erase df use_rolling window :
  prepare_features parse_float (erase_df df) use_rolling window
  = prepare_features parse_float df use_rolling window.
Proof.
  unfold prepare_features. rewrite smooth_erase.
  destruct (smooth df use_rolling window) as [df1|e]; [|done]. simpl.
  by rewrite derive_erase.
Qed.

Lemma fill_optional_erase c v df :
  c ≠ "facility_score" →
  (if negb (has_column (erase_df df) c) then set_column_const c v (erase_df df)
   else erase_df df)
  = erase_df (if negb (has_column df c) then set_column_const c v df else df).
Proof.
  intros Hc. change (has_column (erase_df df) c) with (has_column df c).
  destruct (has_column df c); simpl; [done|].
  by apply (set_column_with_erase c (λ _, v)).
Qed.

Lemma load_data_erase df :
  "facility_distance" ∈ columns df →
  load_data (erase_df df) = map_result erase_df (load_data df).
Proof.
  intros Hfd. unfold load_data.
  change (has_column (erase_df df)) with (has_column df).
  destruct (List.find _ _); [done|].
  apply has_column_true in Hfd. rewrite Hfd. simpl.
  by rewrite !fill_optional_erase.
Qed.

Lemma erase_df_assign df vs :
  length vs = length (rows df) →
  erase_df {| columns := columns df;
              rows := zip_with (λ r v, <["facility_score" := v]> r) (rows df) vs |}
  = erase_df df.
Proof.
  intros Hlen. unfold erase_df. simpl. f_equal.
  revert vs Hlen. generalize (rows df). intros rs.
  induction rs as [|r rs IH]; intros [|v vs] Hlen; simplify_eq/=; [done|].
  by rewrite erase_insert_eq, IH.
Qed.

Lemma load_then_prepare_erase df use_rolling window :
  "facility_distance" ∈ columns df →
  (load_data (erase_df df) ≫= λ d, prepare_features parse_float d use_rolling window)
  = (load_data df ≫= λ d, prepare_features parse_float d use_rolling window).
Proof.
  intros Hfd. rewrite load_data_erase by done.
  destruct (load_data df) as [d|e]; [|done]. simpl. apply prepare_features_erase.
Qed.

(** C10: when the input has both [facility_distance] and
    [facility_score], [load_data] keeps [facility_distance] as it is,
    [prepare_features] returns a [facility_score] column equal to
    [facility_distance], and replacing the input's [facility_score] values
    by any others changes nothing in what [load_data] followed by
    [prepare_features] returns (table, scaled array, feature names and
    weights, or the exception). *)
Theorem facility_score_ignored df use_rolling window :
  "facility_distance" ∈ columns df → "facility_score" ∈ columns df →
  (∀ df1, load_data df = Ok df1 →
     column "facility_distance" (rows df1) = column "facility_distance" (rows df)) ∧
  (∀ df' fs cols w,
     prepare_features parse_float df use_rolling window = Ok (df', fs, cols, w) →
     column "facility_score" (rows df') = column "facility_distance" (rows df')) ∧
  (∀ vs, length vs = length (rows df) →
     let df_other :=
       {| columns := columns df;
          rows := zip_with (λ r v, <["facility_score" := v]> r) (rows df) vs |} in
     (load_data df_other ≫= λ d, prepare_features parse_float d use_rolling window)
     = (load_data df ≫= λ d, prepare_features parse_float d use_rolling window)).
Proof.
  intros Hfd Hfs. split; [|split].
  - intros df1 Hload. by apply (load_data_Ok df).
  - intros df' fs cols w (df1 & _ & Hd & _)%prepare_features_Ok.
    apply derive_Ok in Hd as (_ & _ & ->). unfold column.
    rewrite <- !list_fmap_compose. apply list_fmap_ext. intros i r _. simpl.
    unfold derive_row.
    rewrite (get_insert_ne _ "density" "facility_score") by done.
    rewrite get_insert_eq.
    by rewrite (get_insert_ne _ "density"), (get_insert_ne _ "facility_score").
  - intros vs Hlen df_other.
    rewrite <- (load_then_prepare_erase df_other) by done.
    rewrite <- (load_then_prepare_erase df) by done.
    unfold df_other. by rewrite erase_df_assign.
Qed.

End FacilityScore.

(** ** [rank(method="first")] *)

Lemma filter_disjoint_length {A} (P Q R : A → Prop)
    `{!∀ x, Decision (P x), !∀ x, Decision (Q x), !∀ x, Decision (R x)} (l : list A) :
  (∀ x, P x → Q x → False) → (∀ x, P x ∨ Q x → R x) →
  length (filter P l) + length (filter Q l) ≤ length (filter R l).
Proof.
  intros Hd Hr. induction l as [|x l IH]; [done|].
  rewrite !filter_cons.
  destruct (decide (P x)) as [HP|HP], (decide (Q x)) as [HQ|HQ],
    (decide (R x)) as [HR|HR]; simpl; try lia.
  - destruct (Hd x HP HQ).
  - destruct (Hd x HP HQ).
  - destruct HR; auto.
  - destruct HR; auto.
Qed.

Lemma filter_eq_take_lt (ss : list Qc) i s :
  ss !! i = Some s →
  length (filter (λ t, t = s) (take i ss)) < length (filter (λ t, t = s) ss).
Proof.
  intros Hi. rewrite <- (take_drop_middle ss i s Hi) at 2.
  rewrite filter_app, filter_cons, decide_True, length_app by done. simpl. lia.
Qed.


Lemma rank_first_length ss : length (rank_first ss) = length ss.
Proof. apply length_imap. Qed.


Lemma rank_first_lookup_inv ss i l :
  rank_first ss !! i = Some l →
  ∃ s, ss !! i = Some s ∧
       l = S (length (filter (λ t, Qclt t s) ss)
              + length (filter (λ t, t = s) (take i ss))).
Proof.
  unfold rank_first. rewrite list_lookup_imap.
  destruct (ss !! i) as [s|]; [|done]. intros [= <-]. eauto.
Qed.



Lemma rank_first_range ss i l :
  rank_first ss !! i = Some l → 1 ≤ l ≤ length ss.
Proof.
  intros (s & Hi & ->)%rank_first_lookup_inv.
  pose proof (filter_eq_take_lt ss i s Hi).
  pose proof (filter_disjoint_length (λ x, Qclt x s) (λ x, x = s) (λ _, True) ss) as Hd.
  cbv beta in Hd.
  assert (length (filter (λ _ : Qc, True) ss) ≤ length ss) by apply length_filter.
  assert (length (filter (λ x, Qclt x s) ss) + length (filter (λ x, x = s) ss)
          ≤ length (filter (λ _ : Qc, True) ss)); [|lia].
  apply Hd; [|done]. intros x Hx ->. by apply Qclt_not_eq in Hx.
Qed.



(** ** Realized clusters and the rank dictionary *)

Lemma elem_of_realized labels k : k ∈ realized labels ↔ k ∈ labels.
Proof.
  unfold realized. rewrite list_elem_of_filter, elem_of_seq.
  split; [naive_solver|]. intros Hk. split; [done|].
  pose proof (max_list_elem_of_le k labels Hk). lia.
Qed.

Lemma realized_NoDup labels : NoDup (realized labels).
Proof. apply NoDup_filter, NoDup_seq. Qed.

Lemma StronglySorted_filter_list {A} (R : A → A → Prop) (P : A → Prop)
    `{!∀ x, Decision (P x)} l :
  StronglySorted R l → StronglySorted R (filter P l).
Proof.
  induction 1 as [|x l Hs IH Hx]; [constructor|].
  rewrite filter_cons. destruct (decide (P x)); [|done].
  constructor; [done|]. apply Forall_forall. intros y [_ Hy]%list_elem_of_filter.
  rewrite Forall_forall in Hx. auto.
Qed.


Lemma finite_scores_Ok cells qs :
  finite_scores cells = Ok qs → cells = CNum <$> qs.
Proof.
  revert qs. induction cells as [|c cells IH]; intros qs; simpl.
  - by intros [= <-].
  - destruct c as [q| |]; simpl; try discriminate.
    intros (qs' & Hqs & [= <-])%bind_Ok. csimpl. f_equal. auto.
Qed.

Lemma map_rank_Ok cr labels levels :
  map_rank cr labels = Ok levels →
  Forall2 (λ k l, cr !! k = Some l) labels levels.
Proof.
  revert levels. induction labels as [|k labels IH]; intros levels; simpl.
  - intros [= <-]. constructor.
  - destruct (cr !! k) as [l|] eqn:Hk; [|discriminate].
    intros (ls & Hls & [= <-])%bind_Ok. constructor; auto.
Qed.

Lemma cluster_rank_lookup (ks ranks : list nat) k l :
  NoDup ks → length ks = length ranks →
  (list_to_map (zip ks ranks) : gmap nat nat) !! k = Some l ↔
  ∃ j, ks !! j = Some k ∧ ranks !! j = Some l.
Proof.
  intros Hnd Hlen. rewrite <- elem_of_list_to_map.
  2: { rewrite fst_zip by lia. done. }
  rewrite list_elem_of_lookup. setoid_rewrite lookup_zip_with_Some.
  naive_solver.
Qed.

Lemma risk_levels_Ok cols w labels df levels :
  risk_levels cols w labels df = Ok levels →
  ∃ scores,
    severity_scores cols w labels (rows df) = CNum <$> scores ∧
    length scores = length (realized labels) ∧
    length cols = length w ∧
    Forall2 (λ k l, ∃ j, realized labels !! j = Some k ∧ rank_first scores !! j = Some l)
            labels levels.
Proof.
  unfold risk_levels. intros ([] & _ & H)%bind_Ok.
  destruct (existsb _ cols); [discriminate|].
  case_bool_decide as Hlen; [|discriminate]. simpl in H.
  apply bind_Ok in H as (scores & Hsc%finite_scores_Ok & Hmap%map_rank_Ok).
  assert (length scores = length (realized labels)) as Hlsc.
  { apply (f_equal length) in Hsc. unfold severity_scores, cluster_means in Hsc.
    rewrite !length_fmap in Hsc. done. }
  exists scores. repeat split; try done.
  eapply Forall2_impl; [exact Hmap|]. simpl. intros k l Hk.
  apply cluster_rank_lookup in Hk; [done|apply realized_NoDup|].
  by rewrite rank_first_length.
Qed.

Section Clustering.
Variable fit_predict : nat → Z → list (list (option Qc)) → result (list nat).

Lemma run_kmeans_Ok df fs cols w n seed df' :
  run_kmeans_and_risk_levels fit_predict df fs cols w n seed = Ok df' →
  ∃ labels dfl levels,
    fit_predict n seed fs = Ok labels ∧
    set_column_list "cluster" (of_nat <$> labels) df = Ok dfl ∧
    risk_levels cols w labels dfl = Ok levels ∧
    length labels = length (rows df) ∧
    length levels = length labels ∧
    length (rows df') = length (rows df) ∧
    column "cluster" (rows df') = of_nat <$> labels ∧
    column "risk_level" (rows df') = of_nat <$> levels ∧
    ∀ c, c ≠ "cluster" → c ≠ "risk_level" → column c (rows df') = column c (rows df).
Proof.
  unfold run_kmeans_and_risk_levels.
  intros (labels & Hfit & (dfl & Hdfl & (levels & Hlev & Hset)%bind_Ok)%bind_Ok)%bind_Ok.
  exists labels, dfl, levels. split; [done|]. split; [done|]. split; [done|].
  apply set_column_list_Ok in Hdfl as (Hlen1 & _ & Hrows1). rewrite length_fmap in Hlen1.
  apply set_column_list_Ok in Hset as (Hlen2 & _ & Hrows2). rewrite length_fmap in Hlen2.
  assert (length (rows dfl) = length (rows df)) as Hl.
  { rewrite Hrows1, length_zip_with, length_fmap. lia. }
  split; [done|]. split; [lia|]. split.
  { rewrite Hrows2, length_zip_with, length_fmap. lia. }
  split.
  { rewrite Hrows2, column_zip_insert_ne, Hrows1, column_zip_insert_eq;
      rewrite ?length_fmap; done || lia. }
  split.
  { rewrite Hrows2, column_zip_insert_eq; rewrite ?length_fmap; done || lia. }
  intros c ? ?.
  rewrite Hrows2, column_zip_insert_ne, Hrows1, column_zip_insert_ne;
    rewrite ?length_fmap; done || lia.
Qed.

(** ** The risk levels are the ranks 1..N of the realized clusters *)




(** ** Equal scores are ranked by ascending cluster label *)


End Clustering.

(** ** Appending a snapshot to the history *)

Lemma lookup_reindex cols (r : row) c :
  reindex cols r !! c = if decide (c ∈ cols) then Some (get r c) else None.
Proof.
  unfold reindex. induction cols as [|c0 cols IH].
  { rewrite fmap_nil, list_to_map_nil, lookup_empty.
    destruct (decide (c ∈ [])) as [Hin|]; [by apply elem_of_nil in Hin | done]. }
  rewrite fmap_cons, list_to_map_cons.
  destruct (decide (c0 = c)) as [->|Hne].
  - rewrite lookup_insert_eq.
    destruct (decide (c ∈ c :: cols)) as [|Hn]; [done|].
    destruct Hn. apply list_elem_of_here.
  - rewrite lookup_insert_ne, IH by done.
    destruct (decide (c ∈ cols)) as [Hin|Hnin], (decide (c ∈ c0 :: cols)) as [Hin'|Hnin'];
      try done.
    + destruct Hnin'. by apply list_elem_of_further.
    + apply elem_of_cons in Hin' as [->|]; done.
Qed.

Lemma get_reindex cols (r : row) c : c ∈ cols → get (reindex cols r) c = get r c.
Proof. intros. unfold get at 1. rewrite lookup_reindex. by rewrite decide_True. Qed.

(** What the loop over the snapshot's columns does to the history. *)
Lemma add_missing_columns_spec new_cols existing :
  let ex := fetch_pipeline_data.add_missing_columns new_cols existing in
  length (rows ex) = length (rows existing) ∧
  (∀ c, c ∈ columns ex ↔ c ∈ columns existing ∨ c ∈ new_cols) ∧
  (∀ i r', rows ex !! i = Some r' →
     ∃ r, rows existing !! i = Some r ∧
          (∀ c, c ∈ columns existing → r' !! c = r !! c) ∧
          (∀ c, c ∈ new_cols → c ∉ columns existing → r' !! c = Some CNull)).
Proof.
  unfold fetch_pipeline_data.add_missing_columns. revert existing.
  induction new_cols as [|c0 cs IH]; intros existing; simpl.
  { split; [done|]. split; [set_solver|]. intros i r' Hi. exists r'.
    split; [done|]. split; [done|]. intros c Hc. by apply elem_of_nil in Hc. }
  set (ex1 := if has_column existing c0 then existing
              else set_column_const c0 CNull existing).
  destruct (IH ex1) as (Hlen & Hcols & Hrows).
  assert (length (rows ex1) = length (rows existing) ∧
          (∀ c, c ∈ columns ex1 ↔ c ∈ columns existing ∨ c = c0) ∧
          (∀ i r1, rows ex1 !! i = Some r1 →
             ∃ r, rows existing !! i = Some r ∧
                  (∀ c, c ∈ columns existing → r1 !! c = r !! c) ∧
                  (c0 ∉ columns existing → r1 !! c0 = Some CNull)))
    as (Hlen1 & Hcols1 & Hrows1).
  { unfold ex1. destruct (has_column existing c0) eqn:Hc0.
    - apply has_column_true in Hc0. split; [done|]. split; [set_solver|].
      intros i r1 Hi. exists r1. done.
    - apply has_column_false in Hc0. simpl. split; [apply length_fmap|].
      split; [intros c; rewrite elem_of_add_column; naive_solver|].
      intros i r1 Hi. rewrite list_lookup_fmap in Hi.
      destruct (rows existing !! i) as [r|]; [|done]. injection Hi as <-.
      exists r. split; [done|]. split.
      + intros c Hc. rewrite lookup_insert_ne; [done|]. congruence.
      + intros _. apply lookup_insert_eq. }
  split; [lia|]. split.
  { intros c. rewrite Hcols, Hcols1, elem_of_cons. naive_solver. }
  intros i r' Hi. destruct (Hrows i r' Hi) as (r1 & Hi1 & Hkeep & Hnew).
  destruct (Hrows1 i r1 Hi1) as (r & Hir & Hkeep1 & Hnew1).
  exists r. split; [done|]. split.
  - intros c Hc. rewrite Hkeep; [by apply Hkeep1 | apply Hcols1; auto].
  - intros c Hc Hnc. destruct (decide (c = c0)) as [->|Hne].
    + rewrite Hkeep; [by apply Hnew1 | apply Hcols1; auto].
    + apply Hnew; [set_solver|]. rewrite Hcols1. naive_solver.
Qed.

(** C9: in append mode on an existing history, the table written has the
    rows of the history followed by the rows of the snapshot, in their
    order; a history row keeps its value in every column of the history and
    is null in every column the snapshot adds; the columns are those of the
    history and of the snapshot. *)
Theorem append_keeps_history existing df :
  let out := fetch_pipeline_data.main (Some (Some existing)) df in
  length (rows out) = length (rows existing) + length (rows df) ∧
  (∀ c, c ∈ columns out ↔ c ∈ columns existing ∨ c ∈ columns df) ∧
  (∀ i r, rows existing !! i = Some r →
     ∃ r', rows out !! i = Some r' ∧
           (∀ c, c ∈ columns existing → r' !! c = Some (get r c)) ∧
           (∀ c, c ∈ columns df → c ∉ columns existing → r' !! c = Some CNull)) ∧
  (∀ i r, rows df !! i = Some r →
     ∃ r', rows out !! (length (rows existing) + i) = Some r' ∧
           ∀ c, c ∈ columns df → r' !! c = Some (get r c)).
Proof.
  simpl. unfold concat. simpl.
  destruct (add_missing_columns_spec (columns df) existing) as (Hlen & Hcols & Hrows).
  set (ex := fetch_pipeline_data.add_missing_columns (columns df) existing) in *.
  set (cols := columns ex ++ filter (λ c, c ∉ columns ex) (columns df)).
  assert (∀ c, c ∈ cols ↔ c ∈ columns existing ∨ c ∈ columns df) as Hin.
  { intros c. unfold cols. rewrite elem_of_app, list_elem_of_filter, Hcols. naive_solver. }
  split; [by rewrite length_app, !length_fmap, Hlen|].
  split; [done|]. split.
  - intros i r Hi.
    assert (i < length (rows ex)) as Hlt by (rewrite Hlen; by eapply lookup_lt_Some).
    destruct (lookup_lt_is_Some_2 _ _ Hlt) as [r1 Hr1].
    destruct (Hrows i r1 Hr1) as (r0 & Hr0 & Hkeep & Hnew).
    assert (r0 = r) as -> by congruence.
    exists (reindex cols r1). split.
    { rewrite lookup_app_l by (by rewrite length_fmap).
      by rewrite list_lookup_fmap, Hr1. }
    split.
    + intros c Hc. rewrite lookup_reindex, decide_True by (apply Hin; auto).
      unfold get. by rewrite Hkeep.
    + intros c Hc Hnc. rewrite lookup_reindex, decide_True by (apply Hin; auto).
      unfold get. by rewrite Hnew.
  - intros i r Hi. exists (reindex cols r). split.
    { rewrite lookup_app_r by (rewrite length_fmap; lia).
      rewrite length_fmap, Hlen.
      replace (length (rows existing) + i - length (rows existing)) with i by lia.
      by rewrite list_lookup_fmap, Hi. }
    intros c Hc. by rewrite lookup_reindex, decide_True by (apply Hin; auto).
Qed.

(** ** The latest date *)

Lemma series_max_spec col :
  (series_max col = CNull ∧ Forall (λ c, is_null c = true) col) ∨
  (is_null (series_max col) = false ∧ series_max col ∈ col ∧
   ∀ c, c ∈ col → is_null c = false → cell_leb c (series_max col) = true).
Proof.
  induction col as [|c col IH]; simpl; [left; by split|].
  destruct (is_null c) eqn:Hc.
  - destruct IH as [[Hm Hall]|(Hm & Hin & Hle)].
    + left. split; [done|]. by constructor.
    + right. split; [done|]. split; [by right|].
      intros c' [Heq|Hc']%elem_of_cons Hn; [congruence | auto].
  - right. destruct IH as [[Hm Hall]|(Hm & Hin & Hle)].
    + rewrite Hm. simpl. split; [done|]. split; [by left|].
      intros c' [Heq|Hc']%elem_of_cons Hn; [rewrite Heq; apply cell_leb_refl|].
      rewrite Forall_forall in Hall. apply Hall in Hc'. congruence.
    + rewrite Hm. destruct (cell_leb (series_max col) c) eqn:Hcmp.
      * split; [done|]. split; [by left|].
        intros c' [Heq|Hc']%elem_of_cons Hn; [rewrite Heq; apply cell_leb_refl|].
        eapply cell_leb_trans; [by apply Hle | done].
      * split; [done|]. split; [by right|].
        intros c' [Heq|Hc']%elem_of_cons Hn; [rewrite Heq|auto].
        destruct (cell_leb_total c (series_max col)); congruence.
Qed.

Lemma series_max_perm col1 col2 : col1 ≡ₚ col2 → series_max col1 = series_max col2.
Proof.
  intros Hp.
  assert (∀ x, x ∈ col1 ↔ x ∈ col2) as Hiff by (intros x; by rewrite Hp).
  destruct (series_max_spec col1) as [[Hm1 Hall1]|(Hn1 & Hin1 & Hle1)],
    (series_max_spec col2) as [[Hm2 Hall2]|(Hn2 & Hin2 & Hle2)].
  - congruence.
  - apply Hiff in Hin2. rewrite Forall_forall in Hall1.
    apply Hall1 in Hin2. congruence.
  - apply Hiff in Hin1. rewrite Forall_forall in Hall2.
    apply Hall2 in Hin1. congruence.
  - apply cell_leb_antisym.
    + apply Hle2; [by apply Hiff | done].
    + apply Hle1; [by apply Hiff | done].
Qed.

(** How many rows of unit [u] carry the latest date, from the (unit, date)
    pairs alone. *)

Lemma latest_count_perm u uds1 uds2 :
  uds1 ≡ₚ uds2 → latest_count u uds1 = latest_count u uds2.
Proof.
  intros Hp. unfold latest_count.
  rewrite (series_max_perm (snd <$> uds1) (snd <$> uds2)) by (by rewrite Hp).
  apply Permutation_length. by rewrite Hp.
Qed.

Lemma latest_rows_count u rs :
  length (filter (λ r, get r "barangay_id" = u) (latest_rows rs))
  = latest_count u (unit_date <$> rs).
Proof.
  unfold latest_count, latest_rows, column.
  rewrite <- list_fmap_compose. simpl.
  change (snd ∘ unit_date) with (λ r : row, get r "date").
  set (m := series_max _). rewrite filter_fmap_comp, length_fmap. simpl.
  rewrite list_filter_filter. f_equal; by apply list_filter_iff.
Qed.

Lemma unit_date_columns rs1 rs2 :
  column "barangay_id" rs1 = column "barangay_id" rs2 →
  column "date" rs1 = column "date" rs2 →
  unit_date <$> rs1 = unit_date <$> rs2.
Proof.
  unfold column. revert rs2. induction rs1 as [|r1 rs1 IH]; intros [|r2 rs2];
    csimpl; try done.
  intros [= Hb Hbs] [= Hd Hds]. unfold unit_date at 1 3. rewrite Hb, Hd.
  f_equal. auto.
Qed.

Lemma latest_extract_Ok df out :
  latest_extract df = Ok out →
  columns out = report_columns ∧
  rows out = reindex report_columns <$> latest_rows (rows df).
Proof.
  unfold latest_extract. intros ([] & _ & H)%bind_Ok.
  destruct (negb _); [discriminate|].
  apply bind_Ok in H as ([] & _ & H). by injection H as <-.
Qed.

Section ReportLemmas.
Variable parse_float : string → option Qc.
Variable fit_predict : nat → Z → list (list (option Qc)) → result (list nat).

Lemma pipeline_Ok df no_rolling window clusters out :
  main parse_float fit_predict df no_rolling window clusters = Ok out →
  ∃ loaded prepared fs cols w scored,
    load_data df = Ok loaded ∧
    prepare_features parse_float loaded (negb no_rolling) window
      = Ok (prepared, fs, cols, w) ∧
    run_kmeans_and_risk_levels fit_predict prepared fs cols w clusters 42 = Ok scored ∧
    latest_extract scored = Ok out.
Proof.
  unfold main. intros (loaded & Hl & H)%bind_Ok.
  apply bind_Ok in H as ([[[prepared fs] cols] w] & Hp & H).
  apply bind_Ok in H as (scored & Hr & H). eauto 10.
Qed.

(** The (unit, date) pairs of the scored table are those of the input, in
    sorted order. *)
Lemma pipeline_unit_dates df no_rolling window clusters out :
  main parse_float fit_predict df no_rolling window clusters = Ok out →
  ∃ scored,
    columns out = report_columns ∧
    rows out = reindex report_columns <$> latest_rows (rows scored) ∧
    unit_date <$> rows scored ≡ₚ unit_date <$> rows df.
Proof.
  intros (loaded & prepared & fs & cols & w & scored & Hl & Hp & Hr & He)%pipeline_Ok.
  apply latest_extract_Ok in He as [Hcols Hrows].
  exists scored. split; [done|]. split; [done|].
  apply run_kmeans_Ok in Hr as (? & ? & ? & _ & _ & _ & _ & _ & _ & _ & _ & Hkeep).
  apply prepare_features_rows in Hp as [_ Hkeep'].
  assert (schema_ok df) as (Hb & Hd & _).
  { destruct (decide (schema_ok df)) as [|Hn]; [done|].
    apply load_data_raises in Hn. by rewrite Hl in Hn. }
  destruct (load_data_Ok df loaded Hl) as (_ & _ & _ & _ & _ & Hsame).
  rewrite (unit_date_columns (rows scored)
             (stable_sort (lex_leb sort_keys) (rows loaded))).
  2, 3: by rewrite Hkeep, Hkeep' by done.
  rewrite (stable_sort_perm (lex_leb sort_keys) (rows loaded)).
  rewrite (unit_date_columns (rows loaded) (rows df)); auto.
Qed.

End ReportLemmas.

Lemma filter_eq_NoDup_length {A} `{!EqDecision A} (x : A) l :
  NoDup l → length (filter (λ y, y = x) l) ≤ 1.
Proof.
  intros Hnd. apply (NoDup_filter (λ y, y = x)) in Hnd.
  assert (Forall (λ y, y = x) (filter (λ y, y = x) l)) as Hall.
  { apply Forall_forall. by intros y [? _]%list_elem_of_filter. }
  destruct (filter (λ y, y = x) l) as [|a [|b l']]; simpl; [lia..|].
  apply Forall_cons in Hall as [-> Hall]. apply Forall_cons in Hall as [-> _].
  apply NoDup_cons in Hnd as [Hnd _]. destruct Hnd. by left.
Qed.

Lemma latest_count_le_1 u uds : NoDup uds → latest_count u uds ≤ 1.
Proof.
  intros Hnd. unfold latest_count. set (m := series_max (snd <$> uds)).
  pose proof (filter_eq_NoDup_length (u, m) uds Hnd) as Hle.
  pose proof (filter_disjoint_length
                (λ p : cell * cell, p.1 = u ∧ p.2 = m ∧ is_null p.2 = false)
                (λ _, False) (λ p, p = (u, m)) uds) as Hd.
  cbv beta in Hd.
  assert (length (filter (λ p : cell * cell, p.1 = u ∧ p.2 = m ∧ is_null p.2 = false) uds)
          + length (filter (λ _ : cell * cell, False) uds)
          ≤ length (filter (λ p, p = (u, m)) uds)); [|lia].
  apply Hd; [done|]. intros [a b] [(Ha & Hb & _)|[]]. simpl in *. congruence.
Qed.

Section Report.
Variable parse_float : string → option Qc.
Variable fit_predict : nat → Z → list (list (option Qc)) → result (list nat).

(** ** The report has one row for every input row of the latest date *)

(** C8 (as amended): when the pipeline returns, the report has the
    columns [barangay_id; risk_level; cluster]; its rows are the rows of the
    scored table whose date is the maximum date of the input, projected to
    these columns; for every unit it has as many rows as the input has rows
    of that unit on the latest date; so it has exactly one row per unit of
    the latest date when no (unit, date) pair occurs twice in the input. *)
Theorem report_rows_of_latest_date df no_rolling window clusters out :
  main parse_float fit_predict df no_rolling window clusters = Ok out →
  let latest := series_max (column "date" (rows df)) in
  columns out = report_columns ∧
  (∀ r, r ∈ rows df → is_null (get r "date") = false →
        cell_leb (get r "date") latest = true) ∧
  (∃ scored,
     rows out =
       reindex report_columns <$>
         filter (λ r, get r "date" = latest ∧ is_null (get r "date") = false)
                (rows scored) ∧
     unit_date <$> rows scored ≡ₚ unit_date <$> rows df) ∧
  (∀ u, length (filter (λ r, get r "barangay_id" = u) (rows out))
        = length (filter (λ r, get r "barangay_id" = u) (latest_rows (rows df)))) ∧
  (NoDup (unit_date <$> rows df) →
   ∀ u, (∃ r, r ∈ latest_rows (rows df) ∧ get r "barangay_id" = u) →
        length (filter (λ r, get r "barangay_id" = u) (rows out)) = 1).
Proof.
  intros (scored & Hcols & Hrows & Hperm)%pipeline_unit_dates latest.
  assert (series_max (column "date" (rows scored)) = latest) as Hlatest.
  { unfold latest. apply series_max_perm. unfold column.
    change (λ r : row, get r "date") with (snd ∘ unit_date).
    rewrite !list_fmap_compose. by rewrite Hperm. }
  assert (∀ u, length (filter (λ r, get r "barangay_id" = u) (rows out))
               = length (filter (λ r, get r "barangay_id" = u) (latest_rows (rows df))))
    as Hcount.
  { intros u. rewrite Hrows, filter_fmap_comp, length_fmap.
    rewrite (list_filter_iff _ (λ r, get r "barangay_id" = u)).
    2: { intros r. by rewrite get_reindex by (unfold report_columns; set_solver). }
    rewrite !latest_rows_count. by apply latest_count_perm. }
  split; [done|]. split.
  { intros r Hr Hn. destruct (series_max_spec (column "date" (rows df)))
      as [[_ Hall]|(_ & _ & Hle)].
    - rewrite Forall_forall in Hall.
      assert (is_null (get r "date") = true); [|congruence].
      apply Hall. unfold column. apply list_elem_of_fmap. eauto.
    - apply Hle; [|done]. unfold column. apply list_elem_of_fmap. eauto. }
  split.
  { exists scored. split; [|done]. rewrite Hrows. unfold latest_rows.
    by rewrite Hlatest. }
  split; [done|].
  intros Hnd u (r & Hr & Hu). rewrite Hcount.
  apply Nat.le_antisymm.
  - rewrite latest_rows_count. by apply latest_count_le_1.
  - assert (r ∈ filter (λ r, get r "barangay_id" = u) (latest_rows (rows df))) as Hin.
    { by apply list_elem_of_filter. }
    destruct (filter _ (latest_rows (rows df))); [by apply elem_of_nil in Hin|].
    simpl. lia.
Qed.

End Report.

(** ** When the stages return *)

Lemma require_column_has c df : c ∈ columns df → require_column c df = Ok ().
Proof. intros. unfold require_column. by rewrite (proj2 (has_column_true df c)). Qed.

Lemma require_columns_has cs df :
  Forall (λ c, c ∈ columns df) cs → require_columns cs df = Ok ().
Proof.
  induction 1 as [|c cs Hc Hcs IH]; [done|]. simpl.
  by rewrite require_column_has.
Qed.

Lemma bind_Ok_l {A B} (a : A) (f : A → result B) : Ok a ≫= f = f a.
Proof. done. Qed.

Lemma sort_values_returns keys df :
  Forall (λ c, c ∈ columns df) keys →
  sort_values keys df
  = Ok {| columns := columns df; rows := stable_sort (lex_leb keys) (rows df) |}.
Proof.
  intros Hk. unfold sort_values. by rewrite require_columns_has, bind_Ok_l by done.
Qed.

Lemma no_str_perm l1 l2 :
  l1 ≡ₚ l2 → existsb is_str l1 = false → existsb is_str l2 = false.
Proof. intros Hp. by rewrite (existsb_perm is_str l1 l2 Hp). Qed.

Lemma existsb_false_Forall {A} (f : A → bool) l :
  existsb f l = false ↔ Forall (λ x, f x = false) l.
Proof.
  induction l as [|x l IH]; simpl; [by split; [constructor|]|].
  rewrite orb_false_iff, Forall_cons, IH. done.
Qed.

Lemma no_str_filter (P : row → Prop) `{!∀ r, Decision (P r)} c (rs : list row) :
  existsb is_str (column c rs) = false →
  existsb is_str (column c (filter P rs)) = false.
Proof.
  rewrite !existsb_false_Forall. unfold column. rewrite !Forall_fmap.
  intros Hall. apply Forall_forall. intros r [_ Hr]%list_elem_of_filter.
  rewrite Forall_forall in Hall. by apply Hall.
Qed.

Lemma nanmean_not_str col : is_str (nanmean col) = false.
Proof. unfold nanmean. by destruct (omap num col). Qed.

Lemma rolling_not_str key val w rs :
  Forall (λ c, is_str c = false) (groupby_transform key val (rolling_mean w) rs).
Proof.
  apply Forall_forall. intros c Hc. unfold groupby_transform, transform_groups in Hc.
  apply elem_of_lookup_imap_1 in Hc as (i & kv & -> & _).
  destruct (is_null kv.1); [done|].
  destruct (rolling_mean w _ !! _) as [c|] eqn:Hl; [|done]. simpl.
  unfold rolling_mean in Hl. apply list_lookup_imap_Some in Hl as (y & _ & ->).
  apply nanmean_not_str.
Qed.

Lemma fillna_mean_not_str col :
  Forall (λ c, is_str c = false) col → Forall (λ c, is_str c = false) (fillna_mean col).
Proof.
  intros H. unfold fillna_mean. apply Forall_fmap.
  eapply Forall_impl; [exact H|]. simpl. intros c Hc.
  destruct (is_null c); [apply nanmean_not_str | done].
Qed.

Section FeaturesReturn.
Variable parse_float : string → option Qc.

Lemma to_numeric_not_str c : is_str (to_numeric_fillna0 parse_float c) = false.
Proof. destruct c as [q|s|]; simpl; [done| |done]. by destruct (parse_float s). Qed.

(** [prepare_features] returns on every table that has the columns,
    numbers or nulls for temperature and facility distance, at least one
    row, and a window of at least 1. *)
Lemma prepare_features_returns df use_rolling window :
  Forall (λ c, c ∈ columns df)
         ["barangay_id"; "date"; "temperature"; "facility_distance"; "density"] →
  existsb is_str (column "temperature" (rows df)) = false →
  existsb is_str (column "facility_distance" (rows df)) = false →
  rows df ≠ [] → (1 ≤ window)%Z →
  ∃ df' fs cols w,
    prepare_features parse_float df use_rolling window = Ok (df', fs, cols, w).
Proof.
  intros Hcols Htemp Hfd Hrows Hw.
  apply Forall_cons in Hcols as [Hcb Hcols]. apply Forall_cons in Hcols as [Hcd Hcols].
  apply Forall_cons in Hcols as [Hct Hcols]. apply Forall_cons in Hcols as [Hcf Hcols].
  apply Forall_cons in Hcols as [Hcden _].
  set (rs := stable_sort (lex_leb sort_keys) (rows df)).
  assert (rs ≡ₚ rows df) as Hperm by apply stable_sort_perm.
  assert (existsb is_str (column "temperature" rs) = false) as Htemp'.
  { eapply no_str_perm; [|exact Htemp]. symmetry. by apply column_perm. }
  assert (existsb is_str (column "facility_distance" rs) = false) as Hfd'.
  { eapply no_str_perm; [|exact Hfd]. symmetry. by apply column_perm. }
  (* the smoothed table *)
  assert (∃ vs, length vs = length rs ∧ Forall (λ c, is_str c = false) vs ∧
            smooth df use_rolling window
            = Ok {| columns := add_column "temp_rolling" (columns df);
                    rows := zip_with (λ r v, <["temp_rolling" := v]> r) rs vs |})
    as (vs & Hlen & Hvs & Hsmooth).
  { unfold smooth.
    rewrite sort_values_returns, bind_Ok_l
      by (unfold sort_keys; repeat constructor; done).
    cbn [rows columns]. fold rs.
    destruct (use_rolling && _).
    - rewrite require_column_has, bind_Ok_l by done. cbv zeta.
      rewrite (bool_decide_eq_false_2 (window < 1)%Z), andb_false_r by lia.
      rewrite (no_str_filter _ _ _ Htemp').
      eexists. split; [apply groupby_transform_length|].
      split; [apply rolling_not_str|].
      unfold set_column_list. cbn [rows columns].
      by rewrite bool_decide_eq_true_2 by apply groupby_transform_length.
    - rewrite require_column_has, bind_Ok_l by done.
      exists (column "temperature" rs). split; [unfold column; by rewrite length_fmap|].
      split; [by apply existsb_false_Forall|].
      unfold set_column_with. cbn [rows columns]. do 2 f_equal.
      unfold column. by rewrite zip_with_fmap_r, zip_with_diag. }
  set (df1 := {| columns := add_column "temp_rolling" (columns df);
                 rows := zip_with (λ r v, <["temp_rolling" := v]> r) rs vs |}) in *.
  destruct (derive parse_float df1) as [df2|e] eqn:Hderive.
  2: { exfalso. unfold derive in Hderive.
       assert ("facility_distance" ∈ columns df1) as H1.
       { unfold df1; cbn [columns]. apply elem_of_add_column; auto. }
       rewrite (require_column_has _ _ H1), bind_Ok_l in Hderive.
       rewrite require_column_has in Hderive; [done|].
       unfold df1, set_column_with. cbn [columns].
       rewrite !elem_of_add_column. auto. }
  pose proof (derive_Ok _ _ _ Hderive) as (_ & _ & Hrows2).
  unfold prepare_features. rewrite Hsmooth. simpl. rewrite Hderive. simpl.
  destruct (select_features df2) as [cols w] eqn:Hsel.
  destruct (fit_transform (length (rows df2)) (feature_columns cols df2))
    as [fs|e] eqn:Hfit; [simpl; eauto|].
  exfalso. assert (raises (fit_transform (length (rows df2)) (feature_columns cols df2)))
    as Hr by (by rewrite Hfit).
  apply fit_transform_raises in Hr as [Hn|(col & c & Hcol & Hc & Hstr)].
  - rewrite Hrows2, length_fmap in Hn. simpl in Hn.
    rewrite length_zip_with, Hlen, Nat.min_id in Hn. unfold rs in Hn.
    rewrite stable_sort_length in Hn. by destruct (rows df).
  - unfold feature_columns in Hcol.
    apply list_elem_of_fmap in Hcol as (name & -> & Hname).
    assert (Forall (λ c, is_str c = false) (column name (rows df2))) as Hns.
    { assert (name = "temp_rolling" ∨ name = "facility_score" ∨ name = "density")
        as Hcases.
      { unfold select_features in Hsel. destruct (has_density df2);
          injection Hsel as <- <-; set_solver. }
      rewrite Hrows2. simpl.
      destruct Hcases as [->|[->| ->]].
      - rewrite column_derive_row, column_zip_insert_eq by done. done.
      - unfold column. rewrite <- list_fmap_compose. apply Forall_fmap.
        apply Forall_forall. intros r Hr. simpl. unfold derive_row.
        rewrite (get_insert_ne _ "density" "facility_score") by done.
        rewrite get_insert_eq.
        apply list_elem_of_lookup in Hr as [i Hi].
        apply lookup_zip_with_Some in Hi as (r0 & v & -> & Hr0 & _).
        rewrite get_insert_ne by done.
        apply existsb_false_Forall in Hfd'. rewrite Forall_forall in Hfd'.
        apply Hfd'. unfold column. apply list_elem_of_fmap. exists r0.
        split; [done|]. by eapply list_elem_of_lookup_2.
      - unfold column. rewrite <- list_fmap_compose. apply Forall_fmap.
        apply Forall_true. intros r. simpl. unfold derive_row.
        rewrite get_insert_eq. apply to_numeric_not_str. }
    apply fillna_mean_not_str in Hns. rewrite Forall_forall in Hns.
    apply Hns in Hc. congruence.
Qed.

End FeaturesReturn.

Lemma nanmean_of_numbers col :
  col ≠ [] → Forall is_number col → is_number (nanmean col).
Proof.
  intros Hne Hall. destruct col as [|c col]; [done|].
  apply Forall_cons in Hall as [[q ->] _].
  destruct (nanmean_is_num (CNum q :: col) q) as [m Hm]; [by left|].
  by exists m.
Qed.

Lemma dot_of_numbers means weights :
  Forall is_number means → is_number (dot means weights).
Proof.
  intros Hall. unfold dot.
  assert (is_Some (foldr (λ (p : cell * Qc) acc,
                      m ← num p.1; a ← acc; Some (m * p.2 + a)%Qc)
                    (Some 0%Qc) (zip means weights))) as [q ->]; [|by exists q].
  revert weights. induction Hall as [|c means [q ->] _ IH]; intros [|x weights];
    simpl; try done.
  destruct (IH weights) as [a ->]. done.
Qed.

Lemma finite_scores_of_numbers cells :
  Forall is_number cells → ∃ scores, finite_scores cells = Ok scores ∧
                                    length scores = length cells.
Proof.
  induction 1 as [|c cells [q ->] _ (scores & IH & Hlen)]; simpl.
  - by exists [].
  - rewrite IH. simpl. exists (q :: scores). split; [done|]. simpl. by rewrite Hlen.
Qed.

Lemma map_rank_returns (cr : gmap nat nat) labels :
  Forall (λ k, is_Some (cr !! k)) labels →
  ∃ levels, map_rank cr labels = Ok levels ∧ length levels = length labels.
Proof.
  induction 1 as [|k labels [l Hl] _ (levels & IH & Hlen)]; simpl.
  - by exists [].
  - rewrite Hl, IH. simpl. exists (l :: levels). split; [done|]. simpl. by rewrite Hlen.
Qed.

Lemma members_nonempty k labels (rs : list row) :
  k ∈ labels → length labels = length rs → members k labels rs ≠ [].
Proof.
  intros [i Hi]%list_elem_of_lookup Hlen.
  destruct (lookup_lt_is_Some_2 rs i) as [r Hr].
  { rewrite <- Hlen. by eapply lookup_lt_Some. }
  assert (r ∈ members k labels rs) as Hin.
  { unfold members. apply list_elem_of_fmap. exists (k, r). split; [done|].
    apply list_elem_of_filter. split; [done|].
    apply list_elem_of_lookup. exists i. apply lookup_zip_with_Some. eauto. }
  intros Heq. rewrite Heq in Hin. by apply elem_of_nil in Hin.
Qed.

Lemma members_subseteq k labels (rs : list row) r :
  r ∈ members k labels rs → r ∈ rs.
Proof.
  unfold members. intros ([k' r'] & -> & Hin)%list_elem_of_fmap.
  apply list_elem_of_filter in Hin as [_ Hin].
  apply list_elem_of_lookup in Hin as [i Hi].
  apply lookup_zip_with_Some in Hi as (a & b & [= -> ->] & _ & Hb).
  by eapply list_elem_of_lookup_2.
Qed.

Lemma set_column_list_returns c vs df :
  length vs = length (rows df) →
  set_column_list c vs df
  = Ok {| columns := add_column c (columns df);
          rows := zip_with (λ r v, <[c := v]> r) (rows df) vs |}.
Proof. intros. unfold set_column_list. by rewrite bool_decide_eq_true_2. Qed.

Section ClusteringReturns.
Variable fit_predict : nat → Z → list (list (option Qc)) → result (list nat).

(** [run_kmeans_and_risk_levels] returns when [fit_predict] gives one label
    per row, there is one weight per feature, and the feature columns hold
    numbers. *)
Lemma run_kmeans_returns df fs cols w n seed labels :
  fit_predict n seed fs = Ok labels →
  length labels = length (rows df) →
  length cols = length w →
  Forall (λ c, c ∈ columns df ∧ c ≠ "cluster" ∧
               Forall is_number (column c (rows df))) cols →
  ∃ df', run_kmeans_and_risk_levels fit_predict df fs cols w n seed = Ok df'.
Proof.
  intros Hfit Hlen Hw Hcols. unfold run_kmeans_and_risk_levels.
  rewrite Hfit, bind_Ok_l.
  rewrite set_column_list_returns, bind_Ok_l by (by rewrite length_fmap).
  set (dfl := {| columns := add_column "cluster" (columns df); rows := _ |}).
  assert (length (rows dfl) = length labels) as Hlenl.
  { unfold dfl. cbn [rows]. rewrite length_zip_with, length_fmap. lia. }
  assert (Forall (λ c, c ∈ columns dfl ∧ Forall is_number (column c (rows dfl))) cols)
    as Hcolsl.
  { eapply Forall_impl; [exact Hcols|]. simpl. intros c (Hc & Hne & Hnum). split.
    - unfold dfl. cbn [columns]. apply elem_of_add_column. auto.
    - unfold dfl. cbn [rows]. rewrite column_zip_insert_ne; [done..|].
      by rewrite length_fmap. }
  assert (∃ levels, risk_levels cols w labels dfl = Ok levels ∧
                    length levels = length labels) as (levels & -> & Hlev).
  { unfold risk_levels.
    rewrite require_columns_has, bind_Ok_l
      by (eapply Forall_impl; [exact Hcolsl|]; by intros c [? _]).
    assert (existsb (λ c, existsb is_str (column c (rows dfl))) cols = false) as ->.
    { apply existsb_false_Forall. eapply Forall_impl; [exact Hcolsl|]. simpl.
      intros c [_ Hnum]. apply existsb_false_Forall.
      eapply Forall_impl; [exact Hnum|]. by intros x [q ->]. }
    rewrite bool_decide_eq_true_2 by done. cbn [negb].
    destruct (finite_scores_of_numbers (severity_scores cols w labels (rows dfl)))
      as (scores & -> & Hlsc).
    { unfold severity_scores, cluster_means. apply Forall_fmap, Forall_fmap.
      apply Forall_forall. intros k Hk. apply (proj1 (elem_of_realized labels k)) in Hk. simpl.
      apply dot_of_numbers. unfold cluster_mean_row. apply Forall_fmap.
      eapply Forall_impl; [exact Hcolsl|]. simpl. intros c [_ Hnum].
      apply nanmean_of_numbers.
      - unfold column. intros Heq%fmap_nil_inv.
        apply (members_nonempty k labels (rows dfl)); [done|by symmetry|exact Heq].
      - unfold column in *. apply Forall_fmap, Forall_forall.
        intros r Hr%members_subseteq. simpl.
        rewrite Forall_fmap, Forall_forall in Hnum. by apply Hnum. }
    rewrite bind_Ok_l. apply map_rank_returns.
    apply Forall_forall. intros k Hk.
    apply (proj2 (elem_of_realized labels k)), list_elem_of_lookup in Hk as [j Hj].
    assert (length (realized labels) = length (rank_first scores)) as Hlr.
    { unfold severity_scores, cluster_means in Hlsc.
      rewrite !length_fmap in Hlsc. by rewrite rank_first_length. }
    destruct (lookup_lt_is_Some_2 (rank_first scores) j) as [l Hl].
    { rewrite <- Hlr. by eapply lookup_lt_Some. }
    exists l. apply cluster_rank_lookup; [apply realized_NoDup|done|eauto]. }
  rewrite bind_Ok_l.
  rewrite set_column_list_returns by (rewrite length_fmap; lia). eauto.
Qed.

End ClusteringReturns.

(** ** The statements on the sample tables

    A run on a sample table is evaluated once, inside [returned]; what is
    known of its result is then read off the check.  Two equal rationals
    need not be convertible, as their canonicity proofs differ, so
    equalities are decided ([compute_done]) rather than proved by
    [reflexivity]. *)

Lemma returned_Ok {A} (m : result A) (check : A → bool) a :
  m = Ok a → returned m check = true → check a = true.
Proof. by intros ->. Qed.

Lemma returned_Raise {A} (m : result A) (check : A → bool) e :
  m = Raise e → returned m check = true → False.
Proof. by intros ->. Qed.

(** The table and the array [run_kmeans_and_risk_levels] receives for
    [tied_days]. *)
Lemma tied_days_prepared :
  prepare_features no_parse tied_days true 7
  = Ok (tied_rows, tied_scaled, two_features, [half; half]).
Proof. compute_done. Qed.

(** What the code and the statement as written give on [gap_days]. *)
Lemma gap_days_rolling :
  ∃ df' fs cols w,
    prepare_features no_parse gap_days true 7 = Ok (df', fs, cols, w) ∧
    column "temp_rolling" (rows df') = [CNum (Q2Qc 10); CNum (Q2Qc 20)] ∧
    (λ r, nanmean (column "temperature" (day_window 7 r (rows df')))) <$> rows df'
      = [CNum (Q2Qc 10); CNum (Q2Qc 30)].
Proof.
  assert (returned (prepare_features no_parse gap_days true 7)
            (λ '(df', _, _, _),
               bool_decide
                 (column "temp_rolling" (rows df') = [CNum (Q2Qc 10); CNum (Q2Qc 20)] ∧
                  (λ r, nanmean (column "temperature" (day_window 7 r (rows df'))))
                    <$> rows df' = [CNum (Q2Qc 10); CNum (Q2Qc 30)])) = true)
    as Hrun by (vm_compute; reflexivity).
  destruct (prepare_features no_parse gap_days true 7)
    as [[[[df' fs] cols] w]|e] eqn:E; [|discriminate Hrun].
  exists df', fs, cols, w. split; [done|].
  by apply bool_decide_eq_true in Hrun.
Qed.

(** C6 as written fails on [gap_days]: with a window of 7 the row of the
    20th still averages with the row of the 1st, 19 days earlier. *)
Lemma rolling_window_counts_rows_not_days : ¬ rolling_over_calendar_days.
Proof.
  intros H.
  destruct gap_days_rolling as (df' & fs & cols & w & E & Hcode & Hclaim).
  assert (1 < nunique (column "date" (rows gap_days))) as Hdates by compute_done.
  specialize (H no_parse gap_days 7%Z df' fs cols w E Hdates).
  assert (column "temp_rolling" (rows df')
          = (λ r, nanmean (column "temperature" (day_window 7 r (rows df')))) <$> rows df')
    as Heq.
  { unfold column. apply list_eq_Forall2, Forall2_fmap, Forall_Forall2_diag.
    exact H. }
  rewrite Hcode, Hclaim in Heq.
  assert ([CNum (Q2Qc 10); CNum (Q2Qc 20)] ≠ [CNum (Q2Qc 10); CNum (Q2Qc 30)])
    as Hne by compute_done.
  done.
Qed.



(** The table and the array [run_kmeans_and_risk_levels] receives for
    [three_units]. *)
Lemma three_units_prepared :
  prepare_features no_parse three_units true 7
  = Ok (three_rows, three_scaled, two_features, [half; half]).
Proof. compute_done. Qed.

(** What the run gives on [three_units], each unit a cluster of its own. *)
Lemma three_rows_levels :
  ∃ scored, run_kmeans_and_risk_levels labels_012 three_rows three_scaled
              two_features [half; half] 3 42 = Ok scored ∧
            column "risk_level" (rows scored) = of_nat <$> [1; 3; 2].
Proof.
  assert (returned (run_kmeans_and_risk_levels labels_012 three_rows three_scaled
                      two_features [half; half] 3 42)
            (λ scored,
               bool_decide
                 (column "risk_level" (rows scored) = of_nat <$> [1; 3; 2])) = true)
    as Hrun by (vm_compute; reflexivity).
  destruct (run_kmeans_and_risk_levels labels_012 three_rows three_scaled
              two_features [half; half] 3 42)
    as [scored|e] eqn:E; [|discriminate Hrun].
  exists scored. split; [done|]. by apply bool_decide_eq_true in Hrun.
Qed.

(** C2 as written fails on [three_units]: over the scaled features unit C
    has the lowest Severity Score, 0.125 against 0.5 and 0.625, yet it gets
    level 2: the code averages the columns of the table, which are not
    scaled, and there unit A scores 10.5 against 11 for unit C. *)
Lemma lowest_scaled_score_is_not_level_1 : ¬ lowest_scaled_score_gets_level_1.
Proof.
  intros H.
  destruct three_rows_levels as (scored & E & Hlev).
  specialize (H no_parse labels_012 three_units true 7%Z 3 42%Z three_rows three_scaled
                two_features [half; half] scored [0; 1; 2]
                three_units_prepared E eq_refl 2 2 (Q2Qc 0.125) eq_refl).
  rewrite Hlev in H.
  assert (Some (of_nat 2) ≠ Some (of_nat 1)) as Hne by compute_done.
  apply Hne, H; [compute_done|].
  intros k' s' Hk' Hs'.
  assert (k' = 0 ∨ k' = 1 ∨ k' = 2) as [->|[->| ->]] by set_solver.
  - assert (scaled_severity_score three_scaled [half; half] [0; 1; 2] 0
            = CNum (Q2Qc 0.5)) as H0 by compute_done.
    rewrite H0 in Hs'. injection Hs' as <-. compute_done.
  - assert (scaled_severity_score three_scaled [half; half] [0; 1; 2] 1
            = CNum (Q2Qc 0.625)) as H1 by compute_done.
    rewrite H1 in Hs'. injection Hs' as <-. compute_done.
  - assert (scaled_severity_score three_scaled [half; half] [0; 1; 2] 2
            = CNum (Q2Qc 0.125)) as H2 by compute_done.
    rewrite H2 in Hs'. injection Hs' as <-. compute_done.
Qed.

(** What the scaler gives on [wide_range]: the temperatures 8, 12, 24 and
    48 have the range 40, [1 / 40] rounds to the float 0.025 (a little
    above), [48 * 0.025] rounds to 1.2000000000000002 and [0 - 8 * 0.025]
    to -0.2, and their sum rounds to [1 + eps]. *)
Lemma wide_range_scaled :
  ∃ df' fs cols w,
    prepare_features no_parse wide_range true 7 = Ok (df', fs, cols, w) ∧
    let xs := num <$> fillna_mean (column "temp_rolling" (rows df')) in
    cols !! 0 = Some "temp_rolling" ∧
    nanmin xs = Some (Q2Qc 8) ∧ nanmax xs = Some (Q2Qc 48) ∧
    xs !! 3 = Some (Some (Q2Qc 48)) ∧
    ((λ frow, default None (frow !! 0)) <$> fs) !! 3 = Some (Some (1 + float_eps)%Qc).
Proof.
  assert (returned (prepare_features no_parse wide_range true 7)
            (λ '(df', fs, cols, _),
               let xs := num <$> fillna_mean (column "temp_rolling" (rows df')) in
               bool_decide
                 (cols !! 0 = Some "temp_rolling" ∧
                  nanmin xs = Some (Q2Qc 8) ∧ nanmax xs = Some (Q2Qc 48) ∧
                  xs !! 3 = Some (Some (Q2Qc 48)) ∧
                  ((λ frow, default None (frow !! 0)) <$> fs) !! 3
                  = Some (Some (1 + float_eps)%Qc))) = true)
    as Hrun by (vm_compute; reflexivity).
  destruct (prepare_features no_parse wide_range true 7)
    as [[[[df' fs] cols] w]|e] eqn:E; [|discriminate Hrun].
  exists df', fs, cols, w. split; [done|]. by apply bool_decide_eq_true in Hrun.
Qed.

(** C4 as written fails on [wide_range]: the maximum 48 of the temperature
    column scales to 1.0000000000000002, not to 1. *)
Lemma maximum_scales_above_1 : ¬ maximum_scales_to_1.
Proof.
  intros H.
  destruct wide_range_scaled as (df' & fs & cols & w & E & Hcol & Hlo & Hhi & Hx & Hs).
  specialize (H no_parse wide_range true 7%Z df' fs cols w E
                0 "temp_rolling" (Q2Qc 8) (Q2Qc 48) 3 Hcol Hlo Hhi).
  rewrite Hs in H.
  assert (Some (Some (1 + float_eps)%Qc) ≠ Some (Some 1%Qc)) as Hne by compute_done.
  apply Hne, H; [compute_done | exact Hx].
Qed.

(** C8 as written fails on [fetched_twice]: unit A has two rows on the
    latest date and two rows in the report. *)
Lemma duplicate_rows_reach_the_report : ¬ one_report_row_per_unit.
Proof.
  intros H.
  assert (returned (main no_parse one_cluster fetched_twice false 7 1)
            (λ out, bool_decide
                      (length (filter (λ r : row, get r "barangay_id" = CStr "A")
                                 (rows out)) = 2)) = true)
    as Hrun by (vm_compute; reflexivity).
  destruct (main no_parse one_cluster fetched_twice false 7 1)
    as [out|e] eqn:E; [|discriminate Hrun].
  apply bool_decide_eq_true in Hrun.
  specialize (H no_parse one_cluster fetched_twice false 7%Z 1 out E (CStr "A")).
  rewrite H in Hrun; [done|].
  exists (observation "A" "2024-01-02" 30 1 (CNum 0)). split; [|done].
  compute_done.
Qed.

(** C1 on [two_days_density]: one unit has a density, three features. *)
Lemma feature_set_is_global_witness :
  ∃ df' fs cols w,
    prepare_features no_parse two_days_density true 7 = Ok (df', fs, cols, w) ∧
    cols = ["temp_rolling"; "facility_score"; "density"] ∧
    w = [third; third; third] ∧ sum_list w = 1%Qc ∧
    Forall (λ frow, length frow = 3) fs.
Proof.
  assert (returned (prepare_features no_parse two_days_density true 7) (λ _, true) = true)
    as Hrun by (vm_compute; reflexivity).
  destruct (prepare_features no_parse two_days_density true 7)
    as [[[[df' fs] cols] w]|e] eqn:E; [|discriminate Hrun].
  exists df', fs, cols, w. split; [exact eq_refl|].
  destruct (feature_set_is_global no_parse two_days_density true 7 df' fs cols w E)
    as (Hsel & _ & _ & Hsum & _ & _ & Hrows).
  assert (existsb (λ r, gt0 (to_numeric_fillna0 no_parse (get r "density")))
            (rows two_days_density) = true) as Hden by compute_done.
  rewrite Hden in Hsel. destruct Hsel as [-> ->].
  split; [exact eq_refl|]. split; [exact eq_refl|]. split; [exact Hsum | exact Hrows].
Defined.




(** C6 (as amended) on [two_days]: the second row of unit A averages the
    two rows of unit A. *)
Lemma rolling_mean_over_trailing_rows_witness :
  ∃ df' fs cols w,
    prepare_features no_parse two_days true 7 = Ok (df', fs, cols, w) ∧
    column "temp_rolling" (rows df') !! 1 = Some (CNum (Q2Qc 20)).
Proof.
  assert (returned (prepare_features no_parse two_days true 7) (λ _, true) = true)
    as Hrun by (vm_compute; reflexivity).
  destruct (prepare_features no_parse two_days true 7)
    as [[[[df' fs] cols] w]|e] eqn:E; [|discriminate Hrun].
  exists df', fs, cols, w. split; [exact eq_refl|].
  assert (1 < nunique (column "date" (rows two_days))) as Hdates by compute_done.
  destruct (rolling_mean_over_trailing_rows no_parse two_days 7 df' fs cols w E Hdates)
    as (_ & _ & _ & _ & Hroll).
  destruct (Hroll 1 (observation "A" "2024-01-02" 30 0.5 (CNum 0))) as [-> _];
    [compute_done..|].
  f_equal. compute_done.
Defined.


(** C8 (as amended) on [two_days] with one cluster. *)
Lemma report_rows_of_latest_date_witness :
  ∃ out,
    main no_parse one_cluster two_days false 7 1 = Ok out ∧
    columns out = report_columns ∧
    ∀ u, length (filter (λ r, get r "barangay_id" = u) (rows out))
         = length (filter (λ r, get r "barangay_id" = u) (latest_rows (rows two_days))).
Proof.
  assert (returned (main no_parse one_cluster two_days false 7 1) (λ _, true) = true)
    as Hrun by (vm_compute; reflexivity).
  destruct (main no_parse one_cluster two_days false 7 1)
    as [out|e] eqn:E; [|discriminate Hrun].
  exists out. split; [exact eq_refl|].
  destruct (report_rows_of_latest_date no_parse one_cluster two_days false 7 1 out E)
    as (Hcols & _ & _ & Hcount & _).
  exact (conj Hcols Hcount).
Defined.

(** C10 on [both_facility_columns]: other facility scores, same result. *)
Lemma facility_score_ignored_witness :
  let df_other :=
    {| columns := columns both_facility_columns;
       rows := zip_with (λ r v, <["facility_score" := v]> r)
                 (rows both_facility_columns) [CNum (Q2Qc 100); CStr "far"] |} in
  (load_data df_other ≫= λ d, prepare_features no_parse d true 7)
  = (load_data both_facility_columns ≫= λ d, prepare_features no_parse d true 7).
Proof.
  assert ("facility_distance" ∈ columns both_facility_columns) as Hfd by compute_done.
  assert ("facility_score" ∈ columns both_facility_columns) as Hfs by compute_done.
  destruct (facility_score_ignored no_parse both_facility_columns true 7 Hfd Hfs)
    as (_ & _ & H).
  exact (H [CNum (Q2Qc 100); CStr "far"] eq_refl).
Defined.

(** The sample tables meet the conditions under which the stages return. *)
Lemma two_days_returns :
  ∃ df' fs cols w, prepare_features no_parse two_days true 7 = Ok (df', fs, cols, w).
Proof.
  apply prepare_features_returns; compute_done.
Qed.

(** * More of the pipeline *)

(** ** [load_data] twice *)

Lemma add_column_prefix c cols : cols `prefix_of` add_column c cols.
Proof.
  unfold add_column. case_bool_decide; [done|]. by apply prefix_app_r.
Qed.

Lemma load_data_has_all df :
  Forall (λ c, c ∈ columns df) canonical_columns → load_data df = Ok df.
Proof.
  unfold canonical_columns. rewrite !Forall_cons.
  intros (Hb & Hd & Ht & Hf & Hp & Hden & _).
  apply has_column_true in Hb, Hd, Ht, Hf, Hp, Hden.
  unfold load_data, required_columns. simpl List.find.
  rewrite Hb, Hd, Ht, Hf. cbn [negb andb mbind result_bind].
  rewrite Hden. cbn [negb]. by rewrite Hp.
Qed.

Lemma load_data_columns df df' :
  load_data df = Ok df' → columns df `prefix_of` columns df'.
Proof.
  unfold load_data. destruct (List.find _ _); [discriminate|].
  intros (df1 & Hdf1 & [= <-])%bind_Ok.
  assert (columns df `prefix_of` columns df1) as H1.
  { destruct (negb (has_column df "facility_distance") && has_column df "facility_score").
    - injection Hdf1 as <-. apply add_column_prefix.
    - destruct (negb (has_column df "facility_distance")); [discriminate|].
      by injection Hdf1 as <-. }
  etrans; [exact H1|].
  set (df2 := if negb (has_column df1 "density") then _ else df1).
  assert (columns df1 `prefix_of` columns df2) as H2.
  { unfold df2. destruct (negb (has_column df1 "density"));
      [apply add_column_prefix | done]. }
  etrans; [exact H2|].
  destruct (negb (has_column df2 "population")); [apply add_column_prefix | done].
Qed.

(** X1: [load_data] applied to a table it returned returns that table
    unchanged; and the columns of the input keep their places at the front of
    the column index, the columns [load_data] adds coming after them. *)
Theorem load_data_idempotent df df' :
  load_data df = Ok df' →
  load_data df' = Ok df' ∧ columns df `prefix_of` columns df'.
Proof.
  intros Hok. split.
  - apply load_data_has_all. by apply (load_data_Ok df).
  - by apply load_data_columns.
Qed.

(** ** The returned table is the input, sorted *)

Section StableSortStability.
Context {A : Type} (leb : A → A → bool) (P : A → Prop) `{!∀ x, Decision (P x)}.
Hypothesis leb_same : ∀ x y, P x → P y → leb x y = true.

Lemma insert_sorted_filter x l :
  filter P (insert_sorted leb x l) = filter P (x :: l).
Proof.
  induction l as [|y l IH]; simpl; [done|].
  destruct (leb x y) eqn:Hxy; [done|].
  rewrite filter_cons, IH, !filter_cons.
  destruct (decide (P x)) as [Hx|Hx], (decide (P y)) as [Hy|Hy]; try done.
  rewrite leb_same in Hxy by done. done.
Qed.

Lemma stable_sort_filter l : filter P (stable_sort leb l) = filter P l.
Proof.
  induction l as [|x l IH]; [done|].
  unfold stable_sort in *. simpl. rewrite insert_sorted_filter, !filter_cons.
  by rewrite IH.
Qed.
End StableSortStability.

Lemma StronglySorted_Forall2 {A} (R : A → A → Prop) (leb : A → A → bool) l l' :
  (∀ x x' y y', R x x' → R y y' → leb x y = leb x' y') →
  Forall2 R l l' →
  StronglySorted (λ a b, leb a b = true) l →
  StronglySorted (λ a b, leb a b = true) l'.
Proof.
  intros Hleb. induction 1 as [|x x' l l' Hx Hl IH]; [constructor|].
  intros [Hs Hall]%StronglySorted_inv. constructor; [auto|].
  clear IH Hs. induction Hl as [|y y' l l' Hy Hl IH]; [constructor|].
  apply Forall_cons in Hall as [Hxy Hall]. constructor; [|auto].
  by rewrite <- (Hleb x x' y y').
Qed.

Lemma lex_leb_same_keys r1 r2 :
  unit_date r1 = unit_date r2 → lex_leb sort_keys r1 r2 = true.
Proof.
  unfold unit_date. intros [= Hid Hd]. unfold sort_keys. simpl.
  by rewrite !bool_decide_eq_true_2.
Qed.

Lemma lex_leb_keys r1 r1' r2 r2' :
  unit_date r1' = unit_date r1 → unit_date r2' = unit_date r2 →
  lex_leb sort_keys r1 r2 = lex_leb sort_keys r1' r2'.
Proof.
  unfold unit_date. intros [= Hid1 Hd1] [= Hid2 Hd2]. unfold sort_keys. simpl.
  by rewrite Hid1, Hd1, Hid2, Hd2.
Qed.

Section SortedTable.
Variable parse_float : string → option Qc.

Lemma derived_rows_Forall2 (P : row → row → Prop) (rs : list row) (vs : list cell) :
  length vs = length rs →
  (∀ r v, P r (derive_row parse_float (<["temp_rolling" := v]> r))) →
  Forall2 P rs (derive_row parse_float <$> zip_with (λ r v, <["temp_rolling" := v]> r) rs vs).
Proof.
  intros Hlen HP. apply Forall2_fmap_r. revert vs Hlen.
  induction rs as [|r rs IH]; intros [|v vs] Hlen; simplify_eq/=; constructor; auto.
Qed.

(** Row by row, what [prepare_features] returns against the sorted input. *)
Lemma prepare_features_Forall2 df use_rolling window df' fs cols w :
  prepare_features parse_float df use_rolling window = Ok (df', fs, cols, w) →
  Forall2 (λ r r', ∀ c, c ≠ "temp_rolling" → c ≠ "facility_score" → c ≠ "density" →
                        get r' c = get r c)
          (stable_sort (lex_leb sort_keys) (rows df)) (rows df').
Proof.
  intros (df1 & Hs & Hd & _)%prepare_features_Ok.
  apply smooth_Ok in Hs as (_ & _ & _ & vs & Hlen & Hrows & _).
  apply derive_Ok in Hd as (_ & _ & Hrows').
  rewrite Hrows', Hrows. apply derived_rows_Forall2; [done|].
  intros r v c ? ? ?. rewrite get_derive_row by done. by rewrite get_insert_ne.
Qed.

Lemma prepared_rows_sorted df use_rolling window df' fs cols w :
  prepare_features parse_float df use_rolling window = Ok (df', fs, cols, w) →
  StronglySorted (λ a b, lex_leb sort_keys a b = true) (rows df').
Proof.
  intros Hpf. pose proof (prepare_features_Forall2 _ _ _ _ _ _ _ Hpf) as Hall.
  eapply (StronglySorted_Forall2 (λ r r', unit_date r' = unit_date r));
    [| |apply stable_sort_sorted; [apply lex_leb_total | apply lex_leb_trans]].
  - intros. by apply lex_leb_keys.
  - eapply Forall2_impl; [exact Hall|]. simpl. intros r r' Hr.
    unfold unit_date. by rewrite !Hr.
Qed.

(** X2: the table [prepare_features] returns is ordered by unit and date
    (ascending, missing values last); its rows are the input rows in that
    order, rows of one unit and date staying in their input order, and every
    column other than [temp_rolling], [facility_score] and [density] keeps
    the input's values. *)
Theorem prepared_table_is_sorted df use_rolling window df' fs cols w :
  prepare_features parse_float df use_rolling window = Ok (df', fs, cols, w) →
  StronglySorted (λ a b, lex_leb sort_keys a b = true) (rows df') ∧
  ∃ rs, rs ≡ₚ rows df ∧
        (∀ ud, filter (λ r, unit_date r = ud) rs
               = filter (λ r, unit_date r = ud) (rows df)) ∧
        Forall2 (λ r r', ∀ c, c ≠ "temp_rolling" → c ≠ "facility_score" →
                              c ≠ "density" → get r' c = get r c)
                rs (rows df').
Proof.
  intros Hpf. split; [by eapply prepared_rows_sorted|].
  exists (stable_sort (lex_leb sort_keys) (rows df)).
  split; [apply stable_sort_perm|]. split; [|by eapply prepare_features_Forall2].
  intros ud. apply stable_sort_filter. intros x y Hx Hy.
  apply lex_leb_same_keys. congruence.
Qed.

(** X3: in the table [prepare_features] returns every density is a number:
    a number of the input is kept, a string is replaced by the number it
    parses to or by 0, and a missing value by 0. *)
Theorem density_is_coerced df use_rolling window df' fs cols w :
  prepare_features parse_float df use_rolling window = Ok (df', fs, cols, w) →
  Forall (λ r, ∃ q, get r "density" = CNum q) (rows df') ∧
  Forall2 (λ r r', get r' "density" =
                   match get r "density" with
                   | CNum q => CNum q
                   | CStr s => CNum (default 0%Qc (parse_float s))
                   | CNull => CNum 0%Qc
                   end)
          (stable_sort (lex_leb sort_keys) (rows df)) (rows df').
Proof.
  intros (df1 & Hs & Hd & _)%prepare_features_Ok.
  apply smooth_Ok in Hs as (_ & _ & _ & vs & Hlen & Hrows & _).
  apply derive_Ok in Hd as (_ & _ & Hrows').
  assert (∀ r v, get (derive_row parse_float (<["temp_rolling" := v]> r)) "density" =
                 match get r "density" with
                 | CNum q => CNum q
                 | CStr s => CNum (default 0%Qc (parse_float s))
                 | CNull => CNum 0%Qc
                 end) as Hrow.
  { intros r v. unfold derive_row. rewrite get_insert_eq, get_insert_ne by done.
    destruct (get r "density") as [q|s|]; simpl; [done| |done].
    by destruct (parse_float s). }
  split.
  - rewrite Hrows', Hrows. apply Forall_fmap, Forall_forall. intros r0 Hr0. simpl.
    apply elem_of_lookup_zip_with in Hr0 as (i & r & v & -> & _ & _).
    rewrite Hrow. destruct (get r "density"); eauto.
  - rewrite Hrows', Hrows. apply derived_rows_Forall2; [done|]. intros r v. apply Hrow.
Qed.

End SortedTable.

(** ** The scaled array: range and missing values *)

Lemma nanmin_is_Some col x : Some x ∈ col → is_Some (nanmin col).
Proof.
  intros Hx%elem_of_omap_id. unfold nanmin.
  destruct (omap id col); [by apply elem_of_nil in Hx | eauto].
Qed.

Lemma nanmax_is_Some col x : Some x ∈ col → is_Some (nanmax col).
Proof.
  intros Hx%elem_of_omap_id. unfold nanmax.
  destruct (omap id col); [by apply elem_of_nil in Hx | eauto].
Qed.

Lemma scale_column_Some col i v :
  scale_column col !! i = Some (Some v) → ∃ x, col !! i = Some (Some x).
Proof.
  unfold scale_column. rewrite list_lookup_fmap.
  destruct (col !! i) as [[x|]|]; simpl; [eauto|done..].
Qed.

(** The range the scaler divides by is positive. *)
Lemma handle_zeros_in_scale_pos (range : Qc) : (0 < handle_zeros_in_scale range)%Qc.
Proof.
  unfold handle_zeros_in_scale. case_bool_decide as Hsmall; [done|].
  apply Qcnot_lt_le in Hsmall. eapply Qclt_le_trans; [apply float_eps_pos|done].
Qed.

(** Rounding is monotone, so the product of a value with the scale is not
    below that of the minimum, and their difference is not negative. *)
Lemma scale_column_nonneg col v : Some v ∈ scale_column col → (0 ≤ v)%Qc.
Proof.
  intros [i Hi]%list_elem_of_lookup.
  destruct (scale_column_Some _ _ _ Hi) as [x Hx].
  pose proof (list_elem_of_lookup_2 _ _ _ Hx) as Hin.
  destruct (nanmin_is_Some _ _ Hin) as [lo Hlo], (nanmax_is_Some _ _ Hin) as [hi Hhi].
  rewrite (scale_column_lookup col lo hi i x) in Hi by done.
  injection Hi as <-.
  set (s := binary64 (1 / handle_zeros_in_scale (fsub hi lo))).
  assert (0 ≤ s)%Qc as Hs.
  { apply binary64_nonneg, Qcdiv_le_lower; [apply handle_zeros_in_scale_pos|].
    by rewrite Qcmult_0_l. }
  assert (lo ≤ x)%Qc as Hlox by (by apply (nanmin_spec col lo)).
  assert (fmul lo s ≤ fmul x s)%Qc as Hle.
  { apply binary64_mono. by apply Qcmult_le_compat_r. }
  unfold fadd, fsub.
  replace (0 - fmul lo s)%Qc with (- fmul lo s)%Qc by ring.
  unfold fmul at 2. rewrite binary64_opp, binary64_idem. fold (fmul lo s).
  apply binary64_nonneg. by apply Qcle_minus_iff in Hle.
Qed.

Lemma scale_column_all_Some col :
  Forall is_Some col → Forall is_Some (scale_column col).
Proof.
  intros Hall. apply Forall_lookup. intros i o Hi.
  assert (i < length col) as Hlt.
  { rewrite <- scale_column_length. by eapply lookup_lt_Some. }
  destruct (lookup_lt_is_Some_2 col i Hlt) as [ox Hox].
  destruct (proj1 (Forall_lookup _ _) Hall i ox Hox) as [x ->].
  pose proof (list_elem_of_lookup_2 _ _ _ Hox) as Hin.
  destruct (nanmin_is_Some _ _ Hin) as [lo Hlo], (nanmax_is_Some _ _ Hin) as [hi Hhi].
  rewrite (scale_column_lookup col lo hi i x) in Hi by done.
  injection Hi as <-. done.
Qed.

Lemma scale_column_all_None col :
  Forall (λ o, o = None) col → Forall (λ o, o = None) (scale_column col).
Proof.
  intros Hall. unfold scale_column. apply Forall_fmap.
  eapply Forall_impl; [exact Hall|]. by intros o ->.
Qed.

Section ScaledArray.
Variable parse_float : string → option Qc.

(** Column [j] of the scaled array is the scaled imputed column. *)
Lemma scaled_column df use_rolling window df' fs cols w j c :
  prepare_features parse_float df use_rolling window = Ok (df', fs, cols, w) →
  cols !! j = Some c →
  (λ frow, default None (frow !! j)) <$> fs
  = scale_column (num <$> fillna_mean (column c (rows df'))) ∧
  Forall (λ x, is_str x = false) (fillna_mean (column c (rows df'))).
Proof.
  intros (df1 & _ & _ & _ & Hfit)%prepare_features_Ok Hj.
  apply fit_transform_Ok in Hfit as (Hn & Hstr & Hfs). split.
  - rewrite Hfs. apply rows_of_columns_column.
    + unfold feature_columns. rewrite !list_lookup_fmap, Hj. done.
    + rewrite scale_column_length, length_fmap, fillna_mean_length.
      unfold column. by rewrite length_fmap.
  - rewrite Forall_forall in Hstr. apply Hstr. unfold feature_columns.
    apply list_elem_of_fmap. exists c. split; [done|].
    by eapply list_elem_of_lookup_2.
Qed.

(** X4: no number of the scaled array [prepare_features] returns is
    negative. *)
Theorem scaled_features_not_negative df use_rolling window df' fs cols w :
  prepare_features parse_float df use_rolling window = Ok (df', fs, cols, w) →
  ∀ frow v, frow ∈ fs → Some v ∈ frow → (0 ≤ v)%Qc.
Proof.
  intros (df1 & _ & _ & _ & Hfit)%prepare_features_Ok frow v Hfrow Hv.
  apply fit_transform_Ok in Hfit as (_ & _ & ->).
  unfold rows_of_columns in Hfrow.
  apply list_elem_of_fmap in Hfrow as (i & -> & _).
  apply list_elem_of_fmap in Hv as (col & Hv & Hcol).
  apply list_elem_of_fmap in Hcol as (xs & -> & _).
  apply (scale_column_nonneg xs).
  destruct (scale_column xs !! i) as [o|] eqn:Hi; simpl in Hv; [|done].
  subst o. by eapply list_elem_of_lookup_2.
Qed.

(** X5: missing values are imputed column by column: if a feature column
    of the returned table holds at least one number, the scaled array has a
    number in that column for every row; if it holds none, the scaled array
    is NaN in that column for every row. *)
Theorem imputation_leaves_no_nan df use_rolling window df' fs cols w :
  prepare_features parse_float df use_rolling window = Ok (df', fs, cols, w) →
  ∀ j c, cols !! j = Some c →
    let scaled := (λ frow, default None (frow !! j)) <$> fs in
    length scaled = length (rows df') ∧
    ((∃ q, CNum q ∈ column c (rows df')) → Forall is_Some scaled) ∧
    ((∀ q, CNum q ∉ column c (rows df')) → Forall (λ o, o = None) scaled).
Proof.
  intros Hpf j c Hj scaled.
  destruct (scaled_column _ _ _ _ _ _ _ _ _ Hpf Hj) as [Hscaled Hstr].
  unfold scaled. rewrite Hscaled. split; [|split].
  - rewrite scale_column_length, length_fmap, fillna_mean_length.
    unfold column. by rewrite length_fmap.
  - intros [q Hq]. apply scale_column_all_Some.
    apply (fillna_mean_all_num _ q); [done|].
    apply list_elem_of_fmap. exists (CNum q). split; [done|].
    unfold fillna_mean. apply list_elem_of_fmap. exists (CNum q). done.
  - intros Hnone. apply scale_column_all_None.
    apply Forall_fmap, Forall_forall. intros x Hx. simpl.
    destruct x as [q|s|]; [|by apply (proj1 (Forall_forall _ _) Hstr) in Hx|done].
    exfalso. unfold fillna_mean in Hx.
    apply list_elem_of_fmap in Hx as (a & Ha & Hain).
    destruct a as [y|t|]; simplify_eq/=; [by eapply Hnone|].
    unfold nanmean in Ha. destruct (omap num (column c (rows df'))) as [|u us] eqn:Hom;
      [done|].
    assert (u ∈ omap num (column c (rows df'))) as Hu by (rewrite Hom; by left).
    apply list_elem_of_omap in Hu as (c0 & Hc0 & Hnum).
    destruct c0; simplify_eq/=. by apply (Hnone u).
Qed.

End ScaledArray.

(** ** When [prepare_features] raises *)

Section Raises.
Variable parse_float : string → option Qc.

Lemma smooth_window_unused df use_rolling w1 w2 :
  use_rolling = false ∨ ¬ (1 < nunique (column "date" (rows df))) →
  smooth df use_rolling w1 = smooth df use_rolling w2.
Proof.
  intros Hcase. unfold smooth.
  destruct (sort_values sort_keys df) as [df1|e] eqn:Hsort; [|done].
  rewrite !bind_Ok_l.
  apply sort_values_Ok in Hsort as (_ & Hrows & _).
  assert (use_rolling && bool_decide (1 < nunique (column "date" (rows df1))) = false)
    as ->; [|done].
  destruct Hcase as [->|Hn]; [done|].
  rewrite Hrows, (nunique_perm _ (column "date" (rows df)))
    by apply column_perm, stable_sort_perm.
  rewrite bool_decide_eq_false_2 by done. apply andb_false_r.
Qed.

Lemma derive_Ok_density df df' :
  derive parse_float df = Ok df' → "density" ∈ columns df.
Proof.
  unfold derive. intros ([] & _ & ([] & Hd%require_column_Ok & _)%bind_Ok)%bind_Ok.
  cbn [columns set_column_with] in Hd.
  apply elem_of_add_column in Hd as [?|?]; done.
Qed.

Lemma prepare_features_Ok_conditions df use_rolling window df' fs cols w :
  prepare_features parse_float df use_rolling window = Ok (df', fs, cols, w) →
  Forall (λ c, c ∈ columns df)
         ["barangay_id"; "date"; "temperature"; "facility_distance"; "density"] ∧
  rows df ≠ [] ∧
  (use_rolling = true → 1 < nunique (column "date" (rows df)) →
   (∃ r, r ∈ rows df ∧ is_null (get r "barangay_id") = false) → (1 ≤ window)%Z).
Proof.
  intros Hpf.
  pose proof (prepare_features_rows _ _ _ _ _ _ _ _ Hpf) as [Hlen _].
  apply prepare_features_Ok in Hpf as (df1 & Hs & Hd & _ & Hfit).
  pose proof (derive_Ok_density _ _ Hd) as Hden.
  apply fit_transform_Ok in Hfit as (Hn & _ & _).
  apply smooth_Ok in Hs as (Hcols1 & Hkeys & Ht & vs & Hlenvs & Hrows & Hvs).
  apply derive_Ok in Hd as (Hfd & _ & Hrows').
  rewrite Hcols1 in Hfd, Hden.
  apply elem_of_add_column in Hfd as [?|Hfd]; [done|].
  apply elem_of_add_column in Hden as [?|Hden]; [done|].
  unfold sort_keys in Hkeys.
  apply Forall_cons in Hkeys as [Hkb Hkeys]. apply Forall_cons in Hkeys as [Hkd _].
  split; [repeat constructor; done|]. split.
  - intros Hnil. rewrite Hnil in Hlen. simpl in Hlen. lia.
  - intros -> Hdates (r & Hr & Hid). rewrite bool_decide_eq_true_2 in Hvs by done.
    simpl in Hvs. destruct Hvs as (Hw & _). apply Hw. exists r. split; [|done].
    by rewrite stable_sort_perm.
Qed.

Lemma prepare_features_conditions_Ok df use_rolling window :
  Forall (λ c, c ∈ columns df)
         ["barangay_id"; "date"; "temperature"; "facility_distance"; "density"] →
  existsb is_str (column "temperature" (rows df)) = false →
  existsb is_str (column "facility_distance" (rows df)) = false →
  rows df ≠ [] →
  (use_rolling = true → 1 < nunique (column "date" (rows df)) → (1 ≤ window)%Z) →
  ∃ df' fs cols w,
    prepare_features parse_float df use_rolling window = Ok (df', fs, cols, w).
Proof.
  intros Hc Ht Hf Hr Hw.
  destruct (decide (use_rolling = true ∧ 1 < nunique (column "date" (rows df))))
    as [[Hu Hn]|Hno].
  - apply prepare_features_returns; auto.
  - assert (prepare_features parse_float df use_rolling window
            = prepare_features parse_float df use_rolling 1) as ->.
    { unfold prepare_features. rewrite (smooth_window_unused df use_rolling window 1); [done|].
      destruct use_rolling; [right|left; done]. naive_solver. }
    apply prepare_features_returns; auto. lia.
Qed.

(** X6: [prepare_features] raises when one of the columns [barangay_id],
    [date], [temperature], [facility_distance] and [density] is missing and
    when the table has no row; it raises when the rolling mean applies
    (rolling enabled and more than one distinct date), the window is below
    1 and some row has a unit id.  The window is not looked at when rolling
    is off or there is a single date. *)
Theorem prepare_features_raises df use_rolling window :
  (¬ (Forall (λ c, c ∈ columns df)
             ["barangay_id"; "date"; "temperature"; "facility_distance"; "density"] ∧
      rows df ≠ []) →
   raises (prepare_features parse_float df use_rolling window)) ∧
  (use_rolling = true → 1 < nunique (column "date" (rows df)) → (window < 1)%Z →
   (∃ r, r ∈ rows df ∧ is_null (get r "barangay_id") = false) →
   raises (prepare_features parse_float df use_rolling window)) ∧
  (use_rolling = false ∨ ¬ (1 < nunique (column "date" (rows df))) →
   ∀ window', prepare_features parse_float df use_rolling window'
              = prepare_features parse_float df use_rolling window).
Proof.
  assert (∀ P : Prop,
            (∀ df' fs cols w,
               prepare_features parse_float df use_rolling window = Ok (df', fs, cols, w) →
               P) →
            ¬ P → raises (prepare_features parse_float df use_rolling window)) as Hraise.
  { intros P HP Hn.
    destruct (prepare_features parse_float df use_rolling window)
      as [[[[df' fs] cols] w]|e] eqn:Hpf; [|done].
    destruct Hn. by eapply HP. }
  split; [|split].
  - apply Hraise. intros df' fs cols w Hpf.
    apply prepare_features_Ok_conditions in Hpf. naive_solver.
  - intros Hu Hdates Hw Hid. apply (Hraise (1 ≤ window)%Z); [|lia].
    intros df' fs cols w Hpf.
    apply prepare_features_Ok_conditions in Hpf. naive_solver.
  - intros Hcase window'. unfold prepare_features.
    by rewrite (smooth_window_unused df use_rolling window' window).
Qed.

End Raises.

(** * More of the clustering stage *)

Lemma zip_insert_Forall2 c (rs : list row) (vs : list cell) :
  length vs = length rs →
  Forall2 (λ r r', ∀ c', c' ≠ c → r' !! c' = r !! c')
          rs (zip_with (λ r v, <[c := v]> r) rs vs).
Proof.
  revert vs. induction rs as [|r rs IH]; intros [|v vs] Hlen; simplify_eq/=;
    constructor; auto.
  intros c' Hne. by rewrite lookup_insert_ne.
Qed.

Lemma realized_length_le labels n :
  Forall (λ k, k < n) labels → length (realized labels) ≤ n.
Proof.
  intros Hall. transitivity (length (seq 0 n)); [|by rewrite length_seq].
  apply submseteq_length.
  apply NoDup_submseteq; [apply realized_NoDup|].
  intros k Hk. apply (proj1 (elem_of_realized labels k)) in Hk. apply elem_of_seq.
  rewrite Forall_forall in Hall. apply Hall in Hk. lia.
Qed.

(** When a severity score is NaN. *)
Lemma nanmean_null_iff col : num (nanmean col) = None ↔ Forall (λ x, num x = None) col.
Proof.
  unfold nanmean. destruct (omap num col) as [|v vs] eqn:Hom; simpl.
  - split; [intros _|done]. apply Forall_forall. intros x Hx.
    destruct (num x) as [q|] eqn:Hq; [|done].
    assert (q ∈ omap num col) as Hin by (apply list_elem_of_omap; eauto).
    rewrite Hom in Hin. by apply elem_of_nil in Hin.
  - split; [done|]. intros Hall.
    assert (v ∈ omap num col) as Hv by (rewrite Hom; by left).
    apply list_elem_of_omap in Hv as (x & Hx & Hnum).
    rewrite Forall_forall in Hall. apply Hall in Hx. congruence.
Qed.

Lemma num_of_float o : num (of_float o) = o.
Proof. by destruct o. Qed.

Lemma dot_null_iff means weights :
  length means = length weights →
  num (dot means weights) = None ↔ ∃ m, m ∈ means ∧ num m = None.
Proof.
  unfold dot. rewrite num_of_float. revert weights.
  induction means as [|m means IH]; intros [|x weights] Hlen; simplify_eq/=.
  - split; [done|]. intros (m & Hm & _). by apply elem_of_nil in Hm.
  - specialize (IH weights Hlen). destruct (num m) as [q|] eqn:Hq; simpl.
    + destruct (foldr _ _ (zip means weights)) as [a|] eqn:Hf; simpl.
      * split; [done|]. intros (m' & [->|Hm']%elem_of_cons & Hn); [congruence|].
        assert (Some a = None) as H; [|done]. apply IH. eauto.
      * split; [|done]. intros _. destruct (proj1 IH eq_refl) as (m' & Hm' & Hn).
        exists m'. split; [by right | done].
    + split; [|done]. intros _. exists m. split; [by left | done].
Qed.

Lemma finite_scores_raises ss :
  raises (finite_scores ss) ↔ ∃ s, s ∈ ss ∧ num s = None.
Proof.
  induction ss as [|s ss IH]; simpl.
  - split; [done|]. intros (s & Hs & _). by apply elem_of_nil in Hs.
  - destruct (num s) as [q|] eqn:Hq.
    + destruct (finite_scores ss) as [qs|e]; simpl in *.
      * split; [done|]. intros (s' & [->|Hs']%elem_of_cons & Hn); [congruence|].
        apply IH. eauto.
      * split; [|done]. intros _. destruct (proj1 IH I) as (s' & Hs' & Hn).
        exists s'. split; [by right | done].
    + simpl. split; [|done]. intros _. exists s. split; [by left | done].
Qed.

Lemma column_members_insert k labels c c' (rs : list row) (vs : list cell) :
  c ≠ c' → length vs = length rs →
  column c' (members k labels (zip_with (λ r v, <[c := v]> r) rs vs))
  = column c' (members k labels rs).
Proof.
  intros Hne. unfold members, column. revert labels vs.
  induction rs as [|r rs IH]; intros [|l labels] [|v vs] Hlen; simplify_eq/=; try done.
  rewrite !filter_cons. simpl. destruct (decide (l = k)); csimpl; [|auto].
  f_equal; [by apply get_insert_ne | auto].
Qed.

Lemma score_null_iff cols w labels rs :
  length cols = length w →
  (∃ s, s ∈ severity_scores cols w labels rs ∧ num s = None) ↔
  ∃ k c, k ∈ labels ∧ c ∈ cols ∧
         Forall (λ x, num x = None) (column c (members k labels rs)).
Proof.
  intros Hlen. unfold severity_scores, cluster_means. split.
  - intros (s & Hs & Hn).
    apply list_elem_of_fmap in Hs as (means & -> & Hm).
    apply list_elem_of_fmap in Hm as (k & -> & Hk).
    apply (proj1 (elem_of_realized labels k)) in Hk.
    apply dot_null_iff in Hn as (m & Hm & Hn).
    2: { unfold cluster_mean_row. by rewrite length_fmap. }
    unfold cluster_mean_row in Hm. apply list_elem_of_fmap in Hm as (c & -> & Hc).
    apply nanmean_null_iff in Hn. eauto.
  - intros (k & c & Hk & Hc & Hall).
    exists (dot (cluster_mean_row cols labels rs k) w). split.
    + apply list_elem_of_fmap. eexists. split; [done|].
      apply list_elem_of_fmap. exists k. split; [done|]. by apply elem_of_realized.
    + apply dot_null_iff; [unfold cluster_mean_row; by rewrite length_fmap|].
      exists (nanmean (column c (members k labels rs))). split.
      * unfold cluster_mean_row. apply list_elem_of_fmap. eauto.
      * by apply nanmean_null_iff.
Qed.

Section ClusteringMore.
Variable fit_predict : nat → Z → list (list (option Qc)) → result (list nat).

(** X7: [run_kmeans_and_risk_levels] adds the columns [cluster] and
    [risk_level] and changes nothing else: the rows keep their order and
    every other cell its value; [cluster] holds the labels [fit_predict]
    returned, one per row. *)
Theorem clustering_adds_two_columns df fs cols w n seed df' :
  run_kmeans_and_risk_levels fit_predict df fs cols w n seed = Ok df' →
  ∃ labels levels,
    fit_predict n seed fs = Ok labels ∧
    length labels = length (rows df) ∧
    length levels = length (rows df) ∧
    columns df' = add_column "risk_level" (add_column "cluster" (columns df)) ∧
    column "cluster" (rows df') = of_nat <$> labels ∧
    column "risk_level" (rows df') = of_nat <$> levels ∧
    Forall2 (λ r r', ∀ c, c ≠ "cluster" → c ≠ "risk_level" → r' !! c = r !! c)
            (rows df) (rows df').
Proof.
  intros Hrun.
  pose proof (run_kmeans_Ok _ _ _ _ _ _ _ _ Hrun)
    as (labels & dfl & levels & Hfit & Hdfl & Hlev & Hll & Hlv & _ & Hcl & Hrl & _).
  exists labels, levels. do 2 (split; [done|]). split; [lia|].
  unfold run_kmeans_and_risk_levels in Hrun. rewrite Hfit, bind_Ok_l, Hdfl, bind_Ok_l,
    Hlev, bind_Ok_l in Hrun.
  apply set_column_list_Ok in Hrun as (Hlen2 & Hcols2 & Hrows2).
  apply set_column_list_Ok in Hdfl as (Hlen1 & Hcols1 & Hrows1).
  split; [by rewrite Hcols2, Hcols1|]. do 2 (split; [done|]).
  rewrite Hrows2. rewrite Hrows1 in Hlen2 |- *.
  eapply (Forall2_trans (λ r r' : row, ∀ c, c ≠ "cluster" → r' !! c = r !! c)
                        (λ r r' : row, ∀ c, c ≠ "risk_level" → r' !! c = r !! c)).
  - simpl. intros r1 r2 r3 H12 H23 c Hc Hr. rewrite H23, H12; done.
  - apply zip_insert_Forall2. exact Hlen1.
  - apply zip_insert_Forall2. exact Hlen2.
Qed.

(** X8: if [fit_predict] returns labels below [n_clusters], every risk
    level assigned is between 1 and [n_clusters]. *)
Theorem risk_level_within_clusters df fs cols w n seed df' labels :
  run_kmeans_and_risk_levels fit_predict df fs cols w n seed = Ok df' →
  fit_predict n seed fs = Ok labels →
  Forall (λ k, k < n) labels →
  ∃ levels, column "risk_level" (rows df') = of_nat <$> levels ∧
            length levels = length (rows df) ∧
            Forall (λ l, 1 ≤ l ≤ n) levels.
Proof.
  intros (labels' & dfl & levels & Hfit & Hdfl & Hlev & Hll & Hlv & _ & _ & Hrl & _)%run_kmeans_Ok
    Hfit' Hall.
  assert (labels' = labels) as -> by congruence.
  exists levels. split; [done|]. split; [lia|].
  apply risk_levels_Ok in Hlev as (scores & _ & Hlsc & _ & Hmap).
  apply Forall_forall. intros l [i Hi]%list_elem_of_lookup.
  destruct (Forall2_lookup_r _ _ _ _ _ Hmap Hi) as (k & _ & j & _ & Hj).
  apply rank_first_range in Hj.
  pose proof (realized_length_le labels n Hall). lia.
Qed.

(** X9: on a table that has the feature columns, none of them holding a
    string, with one weight per feature and one label per row from
    [fit_predict], [run_kmeans_and_risk_levels] raises exactly when some
    cluster has no number at all in some feature column over its rows (its
    severity score is then NaN, which [astype(int)] cannot cast). *)
Theorem clustering_raises_iff_cluster_without_values df fs cols w n seed labels :
  fit_predict n seed fs = Ok labels →
  length labels = length (rows df) →
  length cols = length w →
  Forall (λ c, c ∈ columns df ∧ c ≠ "cluster" ∧
               existsb is_str (column c (rows df)) = false) cols →
  raises (run_kmeans_and_risk_levels fit_predict df fs cols w n seed) ↔
  ∃ k c, k ∈ labels ∧ c ∈ cols ∧
         Forall (λ r, num (get r c) = None) (members k labels (rows df)).
Proof.
  intros Hfit Hlen Hw Hcols. unfold run_kmeans_and_risk_levels.
  rewrite Hfit, bind_Ok_l.
  rewrite set_column_list_returns, bind_Ok_l by (by rewrite length_fmap).
  set (dfl := {| columns := add_column "cluster" (columns df); rows := _ |}).
  assert (length (rows dfl) = length labels) as Hlenl.
  { unfold dfl. cbn [rows]. rewrite length_zip_with, length_fmap. lia. }
  assert ((∃ k c, k ∈ labels ∧ c ∈ cols ∧
             Forall (λ r, num (get r c) = None) (members k labels (rows df))) ↔
          ∃ s, s ∈ severity_scores cols w labels (rows dfl) ∧ num s = None) as ->.
  { rewrite score_null_iff by done.
    split; intros (k & c & Hk & Hc & Hall); exists k, c; (split; [done|]);
      (split; [done|]);
      pose proof (proj1 (Forall_forall _ _) Hcols c Hc) as (_ & Hne & _);
      unfold dfl in *; cbn [rows] in *.
    - rewrite column_members_insert by (rewrite ?length_fmap; done).
      unfold column. by apply Forall_fmap.
    - rewrite column_members_insert in Hall by (rewrite ?length_fmap; done).
      unfold column in Hall. by apply Forall_fmap in Hall. }
  rewrite <- finite_scores_raises.
  unfold risk_levels.
  rewrite require_columns_has, bind_Ok_l.
  2: { eapply Forall_impl; [exact Hcols|]. simpl. intros c (Hc & _).
       unfold dfl. cbn [columns]. apply elem_of_add_column. auto. }
  assert (existsb (λ c, existsb is_str (column c (rows dfl))) cols = false) as ->.
  { apply existsb_false_Forall. eapply Forall_impl; [exact Hcols|]. simpl.
    intros c (_ & Hne & Hstr). unfold dfl. cbn [rows].
    rewrite column_zip_insert_ne; [done..|]. by rewrite length_fmap. }
  rewrite bool_decide_eq_true_2 by done. cbn [negb].
  destruct (finite_scores (severity_scores cols w labels (rows dfl)))
    as [scores|e] eqn:Hsc; [|done].
  rewrite bind_Ok_l. cbn [raises]. split; [|done].
  destruct (map_rank_returns
              (list_to_map (zip (realized labels) (rank_first scores))) labels)
    as (levels & Hlev & Hll).
  { apply Forall_forall. intros k Hk.
    apply (proj2 (elem_of_realized labels k)), list_elem_of_lookup in Hk as [j Hj].
    assert (length (realized labels) = length (rank_first scores)) as Hlr.
    { apply finite_scores_Ok in Hsc. apply (f_equal length) in Hsc.
      unfold severity_scores, cluster_means in Hsc.
      rewrite !length_fmap in Hsc. by rewrite rank_first_length. }
    destruct (lookup_lt_is_Some_2 (rank_first scores) j) as [l Hl].
    { rewrite <- Hlr. by eapply lookup_lt_Some. }
    exists l. apply cluster_rank_lookup; [apply realized_NoDup|done|eauto]. }
  rewrite Hlev, bind_Ok_l.
  rewrite set_column_list_returns by (rewrite length_fmap; lia). done.
Qed.

End ClusteringMore.

(** * More of the report *)

Lemma StronglySorted_fmap_inv {A B} (R : B → B → Prop) (f : A → B) l :
  StronglySorted R (f <$> l) → StronglySorted (λ a b, R (f a) (f b)) l.
Proof.
  induction l as [|x l IH]; csimpl; [constructor|].
  intros Hs. apply StronglySorted_inv in Hs as [Hs Hall]. constructor; [auto|].
  rewrite Forall_fmap in Hall. exact Hall.
Qed.

Lemma lex_leb_unit r1 r2 :
  lex_leb sort_keys r1 r2 = true →
  cell_leb (get r1 "barangay_id") (get r2 "barangay_id") = true.
Proof.
  unfold sort_keys. simpl. case_bool_decide as Hid; [|done].
  intros _. rewrite Hid. apply cell_leb_refl.
Qed.

Lemma latest_rows_nil_iff rs :
  latest_rows rs = [] ↔ Forall (λ r, is_null (get r "date") = true) rs.
Proof.
  unfold latest_rows. split.
  - intros Hnil. destruct (series_max_spec (column "date" rs))
      as [[_ Hall]|(Hn & Hin & _)].
    + unfold column in Hall. by apply Forall_fmap in Hall.
    + exfalso. unfold column in Hin. apply list_elem_of_fmap in Hin as (r & Hr & Hin).
      assert (r ∈ filter (λ r, get r "date" = series_max (column "date" rs)
                              ∧ is_null (get r "date") = false) rs) as Hf.
      { apply list_elem_of_filter. split; [|done]. split; [done|]. by rewrite <- Hr. }
      rewrite Hnil in Hf. by apply elem_of_nil in Hf.
  - intros Hall.
    destruct (filter _ rs) as [|r l] eqn:Hf; [done|].
    assert (r ∈ filter (λ r, get r "date" = series_max (column "date" rs)
                            ∧ is_null (get r "date") = false) rs) as Hin
      by (rewrite Hf; by left).
    apply list_elem_of_filter in Hin as [[_ Hn] Hin].
    rewrite Forall_forall in Hall. apply Hall in Hin. congruence.
Qed.

Section ReportMore.
Variable parse_float : string → option Qc.
Variable fit_predict : nat → Z → list (list (option Qc)) → result (list nat).

(** X10: the rows of the report are in ascending order of [barangay_id]. *)
Theorem report_sorted_by_unit df no_rolling window clusters out :
  main parse_float fit_predict df no_rolling window clusters = Ok out →
  StronglySorted (λ a b, cell_leb a b = true) (column "barangay_id" (rows out)).
Proof.
  intros (loaded & prepared & fs & cols & w & scored & Hl & Hp & Hr & He)%pipeline_Ok.
  apply latest_extract_Ok in He as [_ Hrows].
  apply run_kmeans_Ok in Hr as (? & ? & ? & _ & _ & _ & _ & _ & _ & _ & _ & Hkeep).
  apply prepared_rows_sorted in Hp.
  assert (StronglySorted (λ a b, cell_leb a b = true)
                         (column "barangay_id" (rows scored))) as Hs.
  { rewrite Hkeep by done. unfold column.
    eapply StronglySorted_fmap; [|exact Hp]. simpl. apply lex_leb_unit. }
  rewrite Hrows. unfold column. rewrite <- list_fmap_compose.
  apply (StronglySorted_fmap _ (λ a b : row, cell_leb (get a "barangay_id")
                                               (get b "barangay_id") = true)).
  { intros a b. simpl.
    by rewrite !get_reindex by (unfold report_columns; set_solver). }
  unfold latest_rows. apply StronglySorted_filter_list.
  by apply StronglySorted_fmap_inv in Hs.
Qed.

(** X11: when the pipeline returns, the input has at least one row, and
    the report is empty exactly when no input row has a date. *)
Theorem report_empty_iff_no_date df no_rolling window clusters out :
  main parse_float fit_predict df no_rolling window clusters = Ok out →
  rows df ≠ [] ∧
  (rows out = [] ↔ Forall (λ r, is_null (get r "date") = true) (rows df)).
Proof.
  intros Hmain.
  pose proof (pipeline_unit_dates _ _ _ _ _ _ _ Hmain) as (scored & _ & Hrows & Hperm).
  apply pipeline_Ok in Hmain
    as (loaded & prepared & fs & cols & w & _ & Hl & Hp & _ & _).
  split.
  - apply prepare_features_Ok_conditions in Hp as (_ & Hne & _).
    apply load_data_Ok in Hl as (_ & Hlen & _). intros Hnil.
    rewrite Hnil in Hlen. by destruct (rows loaded).
  - rewrite Hrows.
    assert (∀ l : list row, reindex report_columns <$> l = [] ↔ l = []) as ->.
    { intros l. split; [apply fmap_nil_inv | by intros ->]. }
    rewrite latest_rows_nil_iff.
    assert (∀ rs : list row, Forall (λ r, is_null (get r "date") = true) rs ↔
              Forall (λ p : cell * cell, is_null p.2 = true) (unit_date <$> rs)) as Hud.
    { intros rs. by rewrite Forall_fmap. }
    rewrite !Hud. by rewrite Hperm.
Qed.

(** X12: on a table with no rows the pipeline raises, whatever its columns
    and parameters: [load_data] rejects it, or the scaler does. *)
Theorem empty_table_raises df no_rolling window clusters :
  rows df = [] →
  raises (main parse_float fit_predict df no_rolling window clusters).
Proof.
  intros Hnil. unfold main.
  destruct (load_data df) as [loaded|e] eqn:Hl; [|done].
  rewrite bind_Ok_l.
  destruct (prepare_features parse_float loaded (negb no_rolling) window)
    as [[[[prepared fs] cols] w]|e] eqn:Hp; [|done].
  exfalso.
  apply prepare_features_Ok_conditions in Hp as (_ & Hne & _).
  apply load_data_Ok in Hl as (_ & Hlen & _).
  rewrite Hnil in Hlen. by destruct (rows loaded).
Qed.

End ReportMore.

(** * The fetch script *)

(** ** Rationals *)

Lemma Qc_not_1_le_0 : ¬ (1 ≤ 0)%Qc.
Proof. by apply Qclt_not_le. Qed.

Lemma Qc_pos_ne0 (x : Qc) : (0 < x)%Qc → x ≠ 0%Qc.
Proof. intros Hx%Qclt_not_eq. congruence. Qed.

Lemma Qcinv_pos (x : Qc) : (0 < x)%Qc → (0 < / x)%Qc.
Proof.
  intros Hx. apply Qcnot_le_lt. intros Hle.
  apply (Qcmult_le_compat_r _ _ x) in Hle; [|by apply Qclt_le_weak].
  rewrite Qcmult_0_l, Qcmult_inv_l in Hle; [by apply Qc_not_1_le_0|].
  by apply Qc_pos_ne0.
Qed.

Lemma Qcinv_lt (x y : Qc) : (0 < x)%Qc → (x < y)%Qc → (/ y < / x)%Qc.
Proof.
  intros Hx Hxy.
  assert (0 < y)%Qc as Hy by (by eapply Qclt_trans).
  assert (x ≠ 0%Qc) as Hx0 by (by apply Qc_pos_ne0).
  assert (y ≠ 0%Qc) as Hy0 by (by apply Qc_pos_ne0).
  apply Qcnot_le_lt. intros Hle.
  apply (Qcmult_le_compat_r _ _ x) in Hle; [|by apply Qclt_le_weak].
  apply (Qcmult_le_compat_r _ _ y) in Hle; [|by apply Qclt_le_weak].
  assert (/ x * x * y = y)%Qc as E1 by (by field).
  assert (/ y * x * y = x)%Qc as E2 by (by field).
  rewrite E1, E2 in Hle. by apply Qcle_not_lt in Hle.
Qed.

(** ** [facility_count_to_distance] *)

Section Distance.
Import fetch_pipeline_data.

Lemma binary64_ge1 (x : Qc) : (1 ≤ x)%Qc → (1 ≤ binary64 x)%Qc.
Proof. intros Hx. rewrite <- binary64_1. by apply binary64_mono. Qed.

Lemma int_float_nonneg n : (0 ≤ n)%Z → (0 ≤ binary64 (Qc_of_Z n))%Qc.
Proof.
  intros Hn. apply binary64_nonneg. rewrite <- Z2Qc_inj_0.
  by apply (proj1 (Z2Qc_inj_le _ _)).
Qed.

Lemma int_float_mono n m :
  (n ≤ m)%Z → (binary64 (Qc_of_Z n) ≤ binary64 (Qc_of_Z m))%Qc.
Proof. intros Hnm. by apply binary64_mono, (proj1 (Z2Qc_inj_le _ _)). Qed.

(** The denominator [1.0 + facility_count]. *)
Lemma denominator_mono (c c' : Qc) : (c ≤ c')%Qc → (fadd 1 c ≤ fadd 1 c')%Qc.
Proof. intros Hc. apply binary64_mono. qc_lra. Qed.

Lemma denominator_ge1 (c : Qc) : (0 ≤ c)%Qc → (1 ≤ fadd 1 c)%Qc.
Proof. intros Hc. apply binary64_ge1. qc_lra. Qed.

Lemma denominator_zero n : fadd 1 (binary64 (Qc_of_Z n)) = 0%Qc ↔ n = (-1)%Z.
Proof.
  split.
  - intros H0. destruct (decide (0 ≤ n)%Z) as [Hn|Hn].
    { pose proof (denominator_ge1 _ (int_float_nonneg n Hn)) as H1.
      rewrite H0 in H1. by apply Qc_not_1_le_0 in H1. }
    destruct (decide (n = -1)%Z) as [|Hne]; [done|]. exfalso.
    assert (binary64 (Qc_of_Z n) ≤ - (1 + 1))%Qc as Hc.
    { assert (- (1 + 1) = binary64 (Qc_of_Z (-2)))%Qc as ->.
      { rewrite binary64_Z by (simpl; lia). by apply Qc_is_canon. }
      apply int_float_mono. lia. }
    assert (fadd 1 (binary64 (Qc_of_Z n)) ≤ - 1)%Qc as Hd.
    { assert (binary64 (1 + binary64 (Qc_of_Z n)) ≤ binary64 (- 1))%Qc as Hle.
      { apply binary64_mono. generalize dependent (binary64 (Qc_of_Z n)).
        intros c. clear. intros. qc_lra. }
      by rewrite binary64_opp, binary64_1 in Hle. }
    rewrite H0 in Hd. clear -Hd. qc_lra.
  - intros ->. rewrite binary64_Z by (simpl; lia). unfold fadd.
    assert (1 + Qc_of_Z (-1) = 0)%Qc as -> by (by apply Qc_is_canon).
    apply binary64_0.
Qed.

(** What the function does with every count. *)
Lemma facility_count_to_distance_spec n :
  facility_count_to_distance n =
  if int_fits_float n
  then if bool_decide (n = -1)%Z then Except ZeroDivisionError
       else Value (binary64 (1 / fadd 1 (binary64 (Qc_of_Z n))))
  else Except OverflowError.
Proof.
  unfold facility_count_to_distance. rewrite float_of_int_spec.
  destruct (int_fits_float n); [|done]. simpl.
  by rewrite (bool_decide_ext _ _ (denominator_zero n)).
Qed.

Lemma int_fits_float_true n : int_fits_float n = true ↔ (Z.abs n < 2 ^ 1024 - 2 ^ 970)%Z.
Proof. unfold int_fits_float. apply bool_decide_eq_true. Qed.

Lemma int_fits_float_false n : int_fits_float n = false ↔ (2 ^ 1024 - 2 ^ 970 ≤ Z.abs n)%Z.
Proof. unfold int_fits_float. rewrite bool_decide_eq_false. lia. Qed.

Lemma facility_count_to_distance_Value n :
  (0 ≤ n)%Z → int_fits_float n = true →
  facility_count_to_distance n
  = Value (binary64 (1 / fadd 1 (binary64 (Qc_of_Z n)))).
Proof.
  intros Hn Hfit. rewrite facility_count_to_distance_spec, Hfit.
  by rewrite bool_decide_eq_false_2 by lia.
Qed.

(** A denominator of at least 1 gives a quotient of at most 1; a larger
    denominator does not give a larger quotient. *)
Lemma quotient_mono (p q : Qc) :
  (1 ≤ p)%Qc → (p ≤ q)%Qc → (binary64 (1 / q) ≤ binary64 (1 / p))%Qc.
Proof.
  intros Hp Hpq. apply binary64_mono.
  assert (0 < p)%Qc as Hp0 by (clear -Hp; qc_lra).
  assert (0 < q)%Qc as Hq0 by (by eapply Qclt_le_trans).
  apply Qcdiv_le_upper; [done|].
  apply Qcle_trans with (1 / p * p)%Qc.
  - rewrite Qcdiv_mult_r; [apply Qcle_refl|]. by apply Qc_pos_ne0.
  - rewrite !(Qcmult_comm (1 / p)). apply Qcmult_le_compat_r; [done|].
    apply Qcdiv_le_lower; [done|]. rewrite Qcmult_0_l. clear. qc_lra.
Qed.

Lemma quotient_le1 (p : Qc) : (1 ≤ p)%Qc → (binary64 (1 / p) ≤ 1)%Qc.
Proof.
  intros Hp. pose proof (quotient_mono 1 p (Qcle_refl 1) Hp) as Hle.
  assert (1 / 1 = 1)%Qc as Hone by (by apply Qc_is_canon).
  by rewrite Hone, binary64_1 in Hle.
Qed.

Lemma quotient_positive (p : Qc) :
  (1 ≤ p)%Qc → (p ≤ pow2 1074)%Qc → (0 < binary64 (1 / p))%Qc.
Proof.
  intros Hp Hle. apply binary64_positive.
  assert (0 < p)%Qc as Hp0 by (clear -Hp; qc_lra).
  apply Qcdiv_le_lower; [done|].
  apply Qcle_trans with (pow2 (-1074) * pow2 1074)%Qc.
  - rewrite !(Qcmult_comm (pow2 (-1074))). apply Qcmult_le_compat_r; [done|].
    apply Qclt_le_weak, pow2_pos.
  - rewrite <- pow2_add. change (-1074 + 1074)%Z with 0%Z. rewrite pow2_0.
    apply Qcle_refl.
Qed.

Lemma denominator_bound n :
  (0 ≤ n)%Z → int_fits_float n = true →
  (fadd 1 (binary64 (Qc_of_Z n)) ≤ pow2 1074)%Qc.
Proof.
  intros Hn Hfit%int_fits_float_true.
  rewrite <- (binary64_pow2 1074) by done. apply binary64_mono.
  assert (binary64 (Qc_of_Z n) ≤ pow2 1024)%Qc as Hc.
  { apply Qclt_le_weak. eapply Qcle_lt_trans; [|apply binary64_largest].
    apply int_float_mono. lia. }
  assert (1 + pow2 1024 ≤ pow2 1074)%Qc as Hp by compute_done.
  generalize dependent (binary64 (Qc_of_Z n)). generalize dependent (pow2 1024).
  generalize (pow2 1074). clear. intros. qc_lra.
Qed.

(** X13: [facility_count_to_distance] raises [OverflowError] exactly for a
    count that Python cannot convert to a float ([2^1024 - 2^970] or more
    in absolute value) and [ZeroDivisionError] exactly for the count -1.
    For a count of at least 0 that converts it returns a value above 0 and
    at most 1, equal to 1 only for the count 0, and a larger count never
    gives a larger value. *)
Theorem facility_distance_never_increases n m k :
  (0 ≤ n)%Z → (n ≤ m)%Z → (m < 2 ^ 1024 - 2 ^ 970)%Z →
  (∃ d d', facility_count_to_distance n = Value d ∧
           facility_count_to_distance m = Value d' ∧
           (0 < d')%Qc ∧ (d' ≤ d)%Qc ∧ (d ≤ 1)%Qc ∧ (d = 1%Qc ↔ n = 0%Z)) ∧
  (facility_count_to_distance k = Except ZeroDivisionError ↔ k = (-1)%Z) ∧
  (facility_count_to_distance k = Except OverflowError
   ↔ (2 ^ 1024 - 2 ^ 970 ≤ Z.abs k)%Z).
Proof.
  intros Hn Hnm Hm.
  assert (int_fits_float n = true) as Hfn by (apply int_fits_float_true; lia).
  assert (int_fits_float m = true) as Hfm by (apply int_fits_float_true; lia).
  split; [|split].
  - rewrite !facility_count_to_distance_Value by (done || lia).
    eexists _, _. split; [done|]. split; [done|].
    pose proof (denominator_ge1 _ (int_float_nonneg n Hn)) as Hdn.
    assert (0 ≤ m)%Z as Hm0 by lia.
    pose proof (denominator_ge1 _ (int_float_nonneg m Hm0)) as Hdm.
    split; [apply quotient_positive; [done|by apply denominator_bound]|].
    split; [apply quotient_mono; [done|]; by apply denominator_mono, int_float_mono|].
    split; [by apply quotient_le1|].
    split.
    + intros H1. destruct (decide (n = 0%Z)) as [|Hn0]; [done|]. exfalso.
      assert (1 ≤ binary64 (Qc_of_Z n))%Qc as Hc.
      { apply binary64_ge1. rewrite <- Z2Qc_inj_1.
        apply (proj1 (Z2Qc_inj_le _ _)). lia. }
      assert (pow2 1 ≤ fadd 1 (binary64 (Qc_of_Z n)))%Qc as Hd.
      { rewrite <- (binary64_pow2 1) by done. apply binary64_mono.
        assert (pow2 1 = 1 + 1)%Qc as -> by (by apply Qc_is_canon).
        generalize dependent (binary64 (Qc_of_Z n)). intros c. clear. intros. qc_lra. }
      assert (binary64 (1 / fadd 1 (binary64 (Qc_of_Z n))) ≤ pow2 (-1))%Qc as Hhalf.
      { assert (pow2 (-1) = binary64 (1 / pow2 1))%Qc as ->.
        { assert (1 / pow2 1 = pow2 (-1))%Qc as -> by (by apply Qc_is_canon).
          by rewrite binary64_pow2. }
        apply quotient_mono; [|done]. by apply Qc_is_canon || compute_done. }
      rewrite H1 in Hhalf. revert Hhalf. by apply Qclt_not_le.
    + intros ->. rewrite Z2Qc_inj_0, binary64_0. unfold fadd.
      assert (1 + 0 = 1)%Qc as -> by ring. rewrite binary64_1.
      assert (1 / 1 = 1)%Qc as -> by (by apply Qc_is_canon). apply binary64_1.
  - rewrite facility_count_to_distance_spec.
    destruct (int_fits_float k) eqn:Hfk.
    + case_bool_decide; naive_solver.
    + split; [done|]. intros ->. done.
  - rewrite facility_count_to_distance_spec, <- int_fits_float_false.
    destruct (int_fits_float k); [|done]. case_bool_decide; naive_solver.
Qed.

End Distance.

(** ** Dicts and the exception monad *)

Section Dicts.
Import fetch_pipeline_data.

Lemma bind_Value {A B} (m : py A) (f : A → py B) (b : B) :
  m ≫= f = Value b → ∃ a, m = Value a ∧ f a = Value b.
Proof. destruct m as [a|e]; [eauto | done]. Qed.

Lemma bind_Value_l {A B} (a : A) (f : A → py B) : Value a ≫= f = f a.
Proof. done. Qed.

Context {V : Type}.
Implicit Types d : dict V.

Lemma dict_get_set d k v k' :
  dict_get (dict_set d k v) k' = if bool_decide (k = k') then Some v else dict_get d k'.
Proof.
  induction d as [|[k0 v0] d IH]; simpl.
  - by repeat case_bool_decide.
  - repeat (case_bool_decide; simpl); simplify_eq; try done;
      rewrite IH; by rewrite ?bool_decide_eq_true_2, ?bool_decide_eq_false_2 by done.
Qed.

Lemma keys_dict_set d k v :
  keys (dict_set d k v) = if bool_decide (k ∈ keys d) then keys d else keys d ++ [k].
Proof.
  unfold keys. induction d as [|[k0 v0] d IH]; [done|].
  cbn [dict_set]. destruct (decide (k0 = k)) as [->|Hne].
  - rewrite bool_decide_eq_true_2 by done. csimpl.
    rewrite bool_decide_eq_true_2; [done|]. by left.
  - rewrite bool_decide_eq_false_2 by done. csimpl. rewrite IH.
    destruct (decide (k ∈ d.*1)) as [Hin|Hin].
    + rewrite !bool_decide_eq_true_2; [done|by right|done].
    + rewrite !bool_decide_eq_false_2; [done| |done].
      intros [?|?]%elem_of_cons; done.
Qed.

Lemma dict_set_NoDup d k v : NoDup (keys d) → NoDup (keys (dict_set d k v)).
Proof.
  intros Hnd. rewrite keys_dict_set. case_bool_decide as Hk; [done|].
  apply NoDup_app. split; [done|]. split; [|apply NoDup_singleton].
  intros x Hx ->%list_elem_of_singleton. done.
Qed.

Lemma dict_get_None d k : dict_get d k = None ↔ k ∉ keys d.
Proof.
  unfold keys. induction d as [|[k0 v0] d IH]; csimpl.
  - split; [intros _; apply not_elem_of_nil | done].
  - case_bool_decide as Hk; simpl.
    + subst. split; [done|]. intros []. by left.
    + rewrite IH, not_elem_of_cons. naive_solver.
Qed.

Lemma dict_get_Some d k v : dict_get d k = Some v → (k, v) ∈ d.
Proof.
  induction d as [|[k0 v0] d IH]; simpl; [done|].
  case_bool_decide; [intros [= ->]; subst; by left | intros; right; auto].
Qed.

Lemma dict_get_NoDup d k v : NoDup (keys d) → (k, v) ∈ d → dict_get d k = Some v.
Proof.
  unfold keys. induction d as [|[k0 v0] d IH]; csimpl; [by intros _ ?%elem_of_nil|].
  intros [Hk0 Hnd]%NoDup_cons [[= -> ->]|Hin]%elem_of_cons.
  - by rewrite bool_decide_eq_true_2.
  - rewrite bool_decide_eq_false_2; [auto|]. intros ->. apply Hk0.
    apply list_elem_of_fmap. by exists (k, v).
Qed.

End Dicts.

(** ** [get_barangay_heat_risk] *)

Section HeatRisk.
Import fetch_pipeline_data.
Variable float_of_str : string → option Qc.



(** Whether the heat index of an entry is a number. *)
Local Notation heat_index_used risk :=
  (match risk with
   | JDict d => is_int_or_float (default JNull (dict_get d "heat_index_c"))
   | _ => false
   end).


Lemma heat_risk_entry_spec out used k risk :
  heat_risk_entry float_of_str (out, used) (k, risk)
  = match chosen_number risk with
    | Some v => x ← py_float float_of_str v;
                Value (dict_set out k x, used || heat_index_used risk)
    | None => Value (out, used)
    end.
Proof.
  unfold heat_risk_entry. destruct risk as [| | | | | |d]; simpl; try done.
  destruct (is_int_or_float (default JNull (dict_get d "heat_index_c"))).
  - destruct (py_float _ _); simpl; [|done]. by rewrite orb_true_r.
  - destruct (is_int_or_float (default JNull (dict_get d "temp_c"))); [|done].
    destruct (py_float _ _); simpl; [|done]. by rewrite orb_false_r.
Qed.



End HeatRisk.

(** ** [get_barangay_population_density] *)

Section Population.
Import fetch_pipeline_data.
Variable float_of_str : string → option Qc.
Variable int_of_str : string → option Z.

Lemma py_int_raises v e :
  py_int int_of_str v = Except e → is_TypeError_or_ValueError e = true.
Proof.
  destruct v as [| | | |str| |]; simpl; try (by intros [= <-]).
  by destruct (int_of_str str); intros [= <-].
Qed.

Lemma py_float_raises v e :
  py_float float_of_str v = Except e →
  is_TypeError_or_ValueError e = true ∨
  e = OverflowError ∧ ∃ n, v = JInt n ∧ (2 ^ 1024 - 2 ^ 970 ≤ Z.abs n)%Z.
Proof.
  destruct v as [| |n| |str| |]; simpl; try (by intros [= <-]; left).
  - rewrite float_of_int_spec. destruct (int_fits_float n) eqn:Hn; [done|].
    intros [= <-]. right. split; [done|]. exists n. split; [done|].
    by apply int_fits_float_false.
  - destruct (float_of_str str); intros [= <-]. by left.
Qed.

(** The density that stops the conversion: an integer too large for a
    float, in an entry whose population converts. *)
Local Notation overflowing_density v :=
  (∃ entry p n,
     v = JDict entry ∧
     py_int int_of_str (py_or (default (JInt 0) (dict_get entry "population")) (JInt 0))
     = Value p ∧
     dict_get entry "density" = Some (JInt n) ∧
     (2 ^ 1024 - 2 ^ 970 ≤ Z.abs n)%Z).

(** One entry of the answer, as [population_entry] converts it. *)
Lemma population_entry_spec v :
  match population_entry float_of_str int_of_str v with
  | Value (pop, dens) =>
    match v with
    | JDict e =>
      match py_int int_of_str (py_or (default (JInt 0) (dict_get e "population")) (JInt 0)),
            py_float float_of_str (py_or (default (JInt 0) (dict_get e "density")) (JInt 0))
      with
      | Value p, Value x => pop = p ∧ dens = x
      | _, _ => pop = 0%Z ∧ dens = 0%Qc
      end
    | _ => pop = 0%Z ∧ dens = 0%Qc
    end
  | Except e => e = OverflowError ∧ overflowing_density v
  end.
Proof.
  unfold population_entry. destruct v as [| | | | | |e]; simpl; try done.
  destruct (py_int _ _) as [p|e1] eqn:Hp; simpl.
  - destruct (py_float _ _) as [x|e2] eqn:Hx; simpl; [done|].
    destruct (py_float_raises _ _ Hx) as [Hc|(-> & n & Hv & Hn)]; [by rewrite Hc|].
    simpl. split; [done|]. exists e, p, n. split; [done|]. split; [done|].
    split; [|done]. revert Hv. unfold py_or.
    destruct (py_bool _) eqn:Hb.
    + destruct (dict_get e "density") as [dv|]; simpl; [by intros ->|].
      intros [= <-]. done.
    + intros [= <-]. done.
  - by rewrite (py_int_raises _ _ Hp).
Qed.

Lemma population_loop_Except items out e :
  for_each (λ out kv, e ← population_entry float_of_str int_of_str kv.2;
                      Value (dict_set out kv.1 e)) out items = Except e →
  e = OverflowError ∧ ∃ k v, (k, v) ∈ items ∧ overflowing_density v.
Proof.
  revert out. induction items as [|[k v] items IH]; intros out; [done|].
  cbn [for_each]. cbv beta. cbn [fst snd].
  pose proof (population_entry_spec v) as Hentry.
  destruct (population_entry float_of_str int_of_str v) as [[pop dens]|e1]; simpl.
  - intros (-> & k' & v' & Hin & Hv)%IH. split; [done|].
    exists k', v'. split; [by right | done].
  - intros [= <-]. destruct Hentry as [-> Hv]. split; [done|].
    exists k, v. split; [by left | done].
Qed.

Lemma population_loop items out out' :
  NoDup (keys items) → (∀ k, k ∈ keys items → k ∉ keys out) →
  for_each (λ out kv, e ← population_entry float_of_str int_of_str kv.2;
                      Value (dict_set out kv.1 e)) out items = Value out' →
  keys out' = keys out ++ keys items ∧
  ∀ k, match dict_get items k with
       | Some v => ∃ p, population_entry float_of_str int_of_str v = Value p ∧
                        dict_get out' k = Some p
       | None => dict_get out' k = dict_get out k
       end.
Proof.
  revert out. induction items as [|[k v] items IH]; intros out Hnd Hfresh.
  - intros [= <-]. split; [by rewrite app_nil_r|]. done.
  - unfold keys in Hnd. csimpl in Hnd. apply NoDup_cons in Hnd as [Hk Hnd].
    cbn [for_each]. cbv beta. cbn [fst snd].
    destruct (population_entry float_of_str int_of_str v) as [[pop dens]|e1] eqn:Hentry;
      simpl; [|done].
    assert (keys (dict_set out k (pop, dens)) = keys out ++ [k]) as Hkeys1.
    { rewrite keys_dict_set, bool_decide_eq_false_2; [done|].
      apply Hfresh. unfold keys. csimpl. by left. }
    intros Hloop. apply IH in Hloop as (Hkeys & Hget); [|done|].
    2: { intros k' Hk'. rewrite Hkeys1, not_elem_of_app. split.
         - apply Hfresh. unfold keys. csimpl. by right.
         - intros ->%list_elem_of_singleton. done. }
    split.
    { rewrite Hkeys, Hkeys1, <- app_assoc. done. }
    intros k'. specialize (Hget k'). cbn [dict_get].
    destruct (decide (k = k')) as [->|Hne].
    + rewrite bool_decide_eq_true_2 by done.
      rewrite (proj2 (dict_get_None items k')) in Hget by done.
      exists (pop, dens). split; [done|].
      by rewrite Hget, dict_get_set, bool_decide_eq_true_2.
    + rewrite bool_decide_eq_false_2 by done.
      destruct (dict_get items k'); [done|].
      by rewrite Hget, dict_get_set, bool_decide_eq_false_2.
Qed.

(** X15: when the population request is answered with JSON,
    [get_barangay_population_density] returns nothing for an answer that is
    not an object; otherwise one entry per key of the answer, in its order,
    holding the converted population and density of an entry that is an
    object, and 0 for both as soon as the entry is not an object or one of
    the two cannot be converted ([TypeError], [ValueError]).  It raises,
    and then [OverflowError], only when some entry whose population
    converts has as density an integer of [2^1024 - 2^970] or more in
    absolute value. *)
Theorem population_answer_converted backend r data :
  barangay_population backend = Some r →
  ¬ (400 ≤ status_code r < 600)%Z →
  body r = Some data →
  match get_barangay_population_density float_of_str int_of_str backend with
  | Value out =>
    (is_dict data = false → out = []) ∧
    ∀ d, data = JDict d → NoDup (keys d) →
      keys out = keys d ∧
      ∀ k v, (k, v) ∈ d →
        ∃ pop dens,
          dict_get out k = Some (pop, dens) ∧
          match v with
          | JDict e =>
            match py_int int_of_str
                    (py_or (default (JInt 0) (dict_get e "population")) (JInt 0)),
                  py_float float_of_str
                    (py_or (default (JInt 0) (dict_get e "density")) (JInt 0))
            with
            | Value p, Value x => pop = p ∧ dens = x
            | _, _ => pop = 0%Z ∧ dens = 0%Qc
            end
          | _ => pop = 0%Z ∧ dens = 0%Qc
          end
  | Except e =>
    e = OverflowError ∧
    ∃ d k entry p n,
      data = JDict d ∧ (k, JDict entry) ∈ d ∧
      py_int int_of_str (py_or (default (JInt 0) (dict_get entry "population")) (JInt 0))
      = Value p ∧
      dict_get entry "density" = Some (JInt n) ∧
      (2 ^ 1024 - 2 ^ 970 ≤ Z.abs n)%Z
  end.
Proof.
  intros Hr Hstatus Hbody.
  unfold get_barangay_population_density. rewrite Hr. cbn [request].
  rewrite bind_Value_l. unfold raise_for_status.
  rewrite bool_decide_eq_false_2, bind_Value_l by done.
  unfold json_of. rewrite Hbody, bind_Value_l.
  destruct (is_dict data) eqn:Hd; cbn [negb].
  2: { split; [done|]. intros d ->. done. }
  destruct data as [| | | | | |d]; try done. cbn [py_items]. rewrite bind_Value_l.
  destruct (for_each _ [] d) as [out|e] eqn:Hloop.
  - split; [done|]. intros d' [= <-] Hnd.
    apply population_loop in Hloop as (Hkeys & Hget); [|done|].
    2: { intros k _. apply not_elem_of_nil. }
    split; [done|]. intros k v Hin. specialize (Hget k).
    rewrite (dict_get_NoDup d k v) in Hget by done.
    destruct Hget as ([pop dens] & Hentry & Hlookup).
    exists pop, dens. split; [done|].
    pose proof (population_entry_spec v) as Hspec. by rewrite Hentry in Hspec.
  - apply population_loop_Except in Hloop
      as (-> & k & v & Hin & entry & p & n & -> & Hp & Hden & Hn).
    split; [done|]. exists d, k, entry, p, n. done.
Qed.

(** The exceptions of the population request. *)
Lemma get_population_raises backend e :
  get_barangay_population_density float_of_str int_of_str backend = Except e →
  e = RequestException ∨ e = JSONDecodeError ∨ e = OverflowError.
Proof.
  unfold get_barangay_population_density.
  destruct (barangay_population backend) as [r|]; cbn [request]; [|intros [= <-]; auto].
  rewrite bind_Value_l. unfold raise_for_status.
  case_bool_decide; [intros [= <-]; auto|]. rewrite bind_Value_l.
  unfold json_of. destruct (body r) as [data|]; [|intros [= <-]; auto].
  rewrite bind_Value_l.
  destruct (is_dict data) eqn:Hd; cbn [negb]; [|done].
  destruct data as [| | | | | |d]; try done. cbn [py_items]. rewrite bind_Value_l.
  intros (-> & _)%population_loop_Except. auto.
Qed.

(** The request for the population stops the script only by an
    [OverflowError]. *)
Lemma fetch_population_spec flag backend :
  fetch_population float_of_str int_of_str flag backend =
  match get_barangay_population_density float_of_str int_of_str backend with
  | Value pd => Value pd
  | Except e => if bool_decide (e = OverflowError) then Except OverflowError else Value []
  end.
Proof.
  unfold fetch_population.
  destruct (get_barangay_population_density float_of_str int_of_str backend)
    as [pd|e] eqn:Hget; simpl; [done|].
  destruct (get_population_raises _ _ Hget) as [->|[->| ->]]; simpl; try done.
  by rewrite orb_true_r.
Qed.

End Population.

(** ** Loops *)

Section Loops.
Import fetch_pipeline_data.

Lemma for_each_invariant {A S} (P : S → Prop) (body : S → A → py S) s l s' :
  (∀ s a s', P s → body s a = Value s' → P s') →
  P s → for_each body s l = Value s' → P s'.
Proof.
  intros Hbody. revert s. induction l as [|a l IH]; intros s Hs; simpl.
  - by intros [= <-].
  - intros (s1 & H1 & H)%bind_Value. eauto.
Qed.

Lemma comprehension_Forall2 {A B} (f : A → py B) l bs :
  comprehension f l = Value bs → Forall2 (λ a b, f a = Value b) l bs.
Proof.
  revert bs. induction l as [|a l IH]; intros bs; simpl.
  - intros [= <-]. constructor.
  - intros (b & Hb & (bs' & Hbs & [= <-])%bind_Value)%bind_Value. constructor; auto.
Qed.

Lemma foldl_add_column_id cols ks :
  Forall (λ k, k ∈ cols) ks → foldl (λ cols k, add_column k cols) cols ks = cols.
Proof.
  induction 1 as [|k ks Hk _ IH]; simpl; [done|].
  unfold add_column at 2. by rewrite bool_decide_eq_true_2.
Qed.

End Loops.

(** ** [main]: the table of today's rows *)

Section TodayRows.
Import fetch_pipeline_data.
Variable float_of_str : string → option Qc.
Variable int_of_str : string → option Z.
Variable json_error_is_request_exception : bool.
Variable as_completed : list string → list string.
Variable today : string.

Local Notation fetch_heat' b := (fetch_heat float_of_str json_error_is_request_exception b).
Local Notation fetch_population' b :=
  (fetch_population float_of_str int_of_str json_error_is_request_exception b).
Local Notation facility_counts_of' b :=
  (facility_counts_of int_of_str json_error_is_request_exception as_completed b).
Local Notation main_rows' b :=
  (main_rows float_of_str int_of_str json_error_is_request_exception as_completed today b).
Local Notation is_RequestException' := (is_RequestException json_error_is_request_exception).

(** The dict of temperatures and what is made of it. *)
Lemma main_rows_unfold backend temperatures u s pd :
  fetch_heat' backend = Value (temperatures, u, s) →
  fetch_population' backend = Value pd →
  temperatures ≠ [] →
  main_rows' backend =
    (fc ← facility_counts_of' backend (keys temperatures);
     recs ← comprehension (record today fc pd) temperatures;
     Value (Some (DataFrame_of_records recs))).
Proof.
  intros Hh Hp Hne. unfold main_rows. rewrite Hh, bind_Value_l. cbv beta iota.
  rewrite Hp, bind_Value_l. destruct temperatures; done.
Qed.

Lemma main_rows_unfold_fallback backend u s pd :
  fetch_heat' backend = Value ([], u, s) →
  fetch_population' backend = Value pd →
  main_rows' backend =
    match get_barangay_temperatures float_of_str backend with
    | Value [] => Value None
    | Value temperatures =>
      fc ← facility_counts_of' backend (keys temperatures);
      recs ← comprehension (record today fc pd) temperatures;
      Value (Some (DataFrame_of_records recs))
    | Except e => if is_RequestException' e then Value None else Except e
    end.
Proof.
  intros Hh Hp. unfold main_rows. rewrite Hh, bind_Value_l. cbv beta iota.
  rewrite Hp, bind_Value_l.
  destruct (get_barangay_temperatures float_of_str backend) as [[|kv t]|e]; simpl; try done.
  by destruct (is_RequestException' e).
Qed.


Lemma main_rows_Some backend df :
  main_rows' backend = Value (Some df) →
  ∃ temperatures pd fc recs,
    temperatures ≠ [] ∧
    ((∃ u s, fetch_heat' backend = Value (temperatures, u, s)) ∨
     (∃ u s, fetch_heat' backend = Value ([], u, s) ∧
             get_barangay_temperatures float_of_str backend = Value temperatures)) ∧
    fetch_population' backend = Value pd ∧
    facility_counts_of' backend (keys temperatures) = Value fc ∧
    comprehension (record today fc pd) temperatures = Value recs ∧
    df = DataFrame_of_records recs.
Proof.
  intros Hmain.
  destruct (fetch_heat' backend) as [[[temperatures u] s]|e] eqn:Hh.
  2: { unfold main_rows in Hmain. by rewrite Hh in Hmain. }
  destruct (fetch_population' backend) as [pd|e] eqn:Hp.
  2: { unfold main_rows in Hmain. by rewrite Hh, bind_Value_l, Hp in Hmain. }
  assert (∀ t, t ≠ [] →
            (fc ← facility_counts_of' backend (keys t);
             recs ← comprehension (record today fc pd) t;
             Value (Some (DataFrame_of_records recs))) = Value (Some df) →
            ∃ fc recs, facility_counts_of' backend (keys t) = Value fc ∧
                       comprehension (record today fc pd) t = Value recs ∧
                       df = DataFrame_of_records recs) as Hinv.
  { intros t _ (fc & Hfc & (recs & Hrecs & [= <-])%bind_Value)%bind_Value. eauto. }
  destruct temperatures as [|kv t].
  - rewrite (main_rows_unfold_fallback _ _ _ _ Hh Hp) in Hmain.
    destruct (get_barangay_temperatures float_of_str backend) as [[|kv t]|e] eqn:Ht;
      [done| |by destruct (is_RequestException' e)].
    destruct (Hinv (kv :: t)) as (fc & recs & ? & ? & ?); [done..|].
    exists (kv :: t), pd, fc, recs. split; [done|]. split; [right; eauto|]. done.
  - rewrite (main_rows_unfold _ _ _ _ _ Hh Hp) in Hmain by done.
    destruct (Hinv (kv :: t)) as (fc & recs & ? & ? & ?); [done..|].
    exists (kv :: t), pd, fc, recs. split; [done|]. split; [left; eauto|]. done.
Qed.


End TodayRows.

Section TodayTable.
Import fetch_pipeline_data.
Variable float_of_str : string → option Qc.
Variable int_of_str : string → option Z.
Variable json_error_is_request_exception : bool.
Variable as_completed : list string → list string.
Variable today : string.

Local Notation fetch_heat' b := (fetch_heat float_of_str json_error_is_request_exception b).
Local Notation fetch_population' b :=
  (fetch_population float_of_str int_of_str json_error_is_request_exception b).
Local Notation facility_counts_of' b :=
  (facility_counts_of int_of_str json_error_is_request_exception as_completed b).
Local Notation main_rows' b :=
  (main_rows float_of_str int_of_str json_error_is_request_exception as_completed today b).
Local Notation is_RequestException' := (is_RequestException json_error_is_request_exception).

(** The dicts of temperatures have no key twice. *)
Lemma heat_risk_keys_NoDup backend t u s :
  get_barangay_heat_risk float_of_str backend = Value (t, u, s) → NoDup (keys t).
Proof.
  unfold get_barangay_heat_risk.
  intros (r & _ & (? & _ & (data & _ & (rk & _ & (items & _ & H)%bind_Value)%bind_Value)
            %bind_Value)%bind_Value)%bind_Value.
  apply bind_Value in H as ([out used] & Hloop & H).
  apply bind_Value in H as (meta & _ & (src & _ & [= <- _ _])%bind_Value).
  apply (for_each_invariant (λ st : list (string * Qc) * bool, NoDup (keys st.1))) in Hloop;
    [done| |apply NoDup_nil_2].
  intros [o b] [k risk] [o' b']. rewrite heat_risk_entry_spec. simpl.
  intros Hnd. destruct (chosen_number risk) as [v|]; [|by intros [= <- _]].
  intros (y & _ & [= <- _])%bind_Value. by apply dict_set_NoDup.
Qed.

Lemma temperatures_keys_NoDup backend t :
  get_barangay_temperatures float_of_str backend = Value t → NoDup (keys t).
Proof.
  unfold get_barangay_temperatures.
  intros (r & _ & (? & _ & (data & _ & (rk & _ & (items & _ & Hloop)%bind_Value)%bind_Value)
            %bind_Value)%bind_Value)%bind_Value.
  apply (for_each_invariant (λ out : list (string * Qc), NoDup (keys out))) in Hloop;
    [done| |apply NoDup_nil_2].
  intros o [k v] o' Hnd. cbn [fst snd].
  assert (∀ m : py Qc, m ≫= (λ y, Value (dict_set o k y)) = Value o' →
                       NoDup (keys o')) as Hset.
  { intros m (y & _ & [= <-])%bind_Value. by apply dict_set_NoDup. }
  destruct v; first [by intros [= <-] | apply Hset].
Qed.

Lemma fetch_heat_keys_NoDup backend t u s :
  fetch_heat' backend = Value (t, u, s) → NoDup (keys t).
Proof.
  unfold fetch_heat.
  destruct (get_barangay_heat_risk float_of_str backend) as [[[t' u'] s']|e] eqn:Hg; simpl.
  - intros [= <- _ _]. by eapply heat_risk_keys_NoDup.
  - destruct (is_RequestException' e); [|done]. intros [= <- _ _]. apply NoDup_nil_2.
Qed.

Lemma py_round_0 ndigits : py_round 0 ndigits = 0%Qc.
Proof.
  unfold py_round. cbv zeta. rewrite Qcmult_0_l, <- Z2Qc_inj_0, round_half_even_Z.
  unfold Qcdiv. rewrite Z2Qc_inj_0, Qcmult_0_l. apply binary64_0.
Qed.

(** One dict of [rows]. *)
Lemma record_spec fc pd bid temp rec :
  record today fc pd (bid, temp) = Value rec →
  ∃ distance,
    facility_count_to_distance (default 0%Z (dict_get fc bid)) = Value distance ∧
    rec.*1 = canonical_columns ∧
    get (list_to_map rec) "barangay_id" = CStr bid ∧
    get (list_to_map rec) "date" = CStr today ∧
    get (list_to_map rec) "temperature" = CNum (py_round temp 2) ∧
    get (list_to_map rec) "facility_distance" = CNum (py_round distance 6) ∧
    get (list_to_map rec) "population"
      = CNum (Qc_of_Z (default 0%Z (fst <$> dict_get pd bid))) ∧
    get (list_to_map rec) "density"
      = CNum (py_round (default 0%Qc (snd <$> dict_get pd bid)) 4).
Proof.
  unfold record. intros (distance & Hd & [= <-])%bind_Value.
  exists distance. split; [done|]. split; [done|].
  rewrite !list_to_map_cons, list_to_map_nil. cbn [fst snd].
  repeat split;
    repeat (first [rewrite get_insert_eq; reflexivity
                  | rewrite get_insert_ne by done]).
Qed.

Lemma records_columns (recs : list (list (string * cell))) :
  recs ≠ [] → Forall (λ rec, rec.*1 = canonical_columns) recs →
  columns (DataFrame_of_records recs) = canonical_columns.
Proof.
  intros Hne Hall. destruct recs as [|rec recs]; [done|].
  apply Forall_cons in Hall as [Hrec Hall].
  unfold DataFrame_of_records. cbn [columns]. csimpl. rewrite foldl_app, Hrec.
  change (foldl (λ cols k, add_column k cols) [] canonical_columns)
    with canonical_columns.
  apply foldl_add_column_id. apply Forall_forall. intros k Hk.
  apply list_elem_of_join in Hk as (ks & Hk & Hks).
  apply list_elem_of_fmap in Hks as (rec' & -> & Hrec').
  rewrite Forall_forall in Hall. by rewrite (Hall rec' Hrec') in Hk.
Qed.

(** What a row of today's table holds, for the item of the temperature
    dict it comes from. *)
Local Notation row_of today :=
  (λ (kv : string * Qc) (rec : list (string * cell)),
     rec.*1 = canonical_columns ∧
     get (list_to_map rec) "barangay_id" = CStr kv.1 ∧
     get (list_to_map rec) "temperature" = CNum (py_round kv.2 2) ∧
     get (list_to_map rec) "date" = CStr today ∧
     is_number (get (list_to_map rec) "facility_distance") ∧
     is_number (get (list_to_map rec) "population") ∧
     is_number (get (list_to_map rec) "density")).

Lemma main_rows_records backend df :
  main_rows' backend = Value (Some df) →
  ∃ temperatures recs,
    ((∃ u s, fetch_heat' backend = Value (temperatures, u, s)) ∨
     (∃ u s, fetch_heat' backend = Value ([], u, s) ∧
             get_barangay_temperatures float_of_str backend = Value temperatures)) ∧
    temperatures ≠ [] ∧
    NoDup (keys temperatures) ∧
    Forall2 (row_of today) temperatures recs ∧
    df = DataFrame_of_records recs.
Proof.
  intros (temperatures & pd & fc & recs & Hne & Hsrc & Hp & Hfc & Hrecs & ->)%main_rows_Some.
  exists temperatures, recs. split; [done|]. split; [done|].
  apply comprehension_Forall2 in Hrecs. split.
  { destruct Hsrc as [(u & s & Hh)|(u & s & _ & Ht)].
    - by eapply fetch_heat_keys_NoDup.
    - by eapply temperatures_keys_NoDup. }
  split; [|done].
  eapply Forall2_impl; [exact Hrecs|]. simpl. intros [bid temp] rec Hrec.
  apply record_spec in Hrec as (dist & _ & ? & ? & ? & ? & Hf & Hpop & Hden).
  rewrite Hf, Hpop, Hden. unfold is_number. naive_solver.
Qed.

Lemma records_table_columns (temperatures : list (string * Qc)) recs :
  temperatures ≠ [] → Forall2 (row_of today) temperatures recs →
  columns (DataFrame_of_records recs) = canonical_columns.
Proof.
  intros Hne Hall. apply records_columns.
  - intros ->. apply Forall2_nil_inv_r in Hall. done.
  - eapply Forall2_Forall_r; [exact Hall|]. apply Forall_true. naive_solver.
Qed.

Lemma records_unit_ids (temperatures : list (string * Qc)) recs :
  Forall2 (row_of today) temperatures recs →
  column "barangay_id" (rows (DataFrame_of_records recs)) = CStr <$> keys temperatures.
Proof.
  intros Hall. unfold DataFrame_of_records, column, keys. cbn [rows].
  rewrite <- !list_fmap_compose.
  induction Hall as [|kv rec t recs' (_ & Hid & _) _ IH]; csimpl; [done|].
  by rewrite Hid, IH.
Qed.

Lemma records_temperatures (temperatures : list (string * Qc)) recs :
  Forall2 (row_of today) temperatures recs →
  column "temperature" (rows (DataFrame_of_records recs))
    = (λ kv, CNum (py_round kv.2 2)) <$> temperatures.
Proof.
  intros Hall. unfold DataFrame_of_records, column. cbn [rows].
  rewrite <- list_fmap_compose.
  induction Hall as [|kv rec t recs' (_ & _ & Ht & _) _ IH]; csimpl; [done|].
  by rewrite Ht, IH.
Qed.

Lemma records_rows (temperatures : list (string * Qc)) recs :
  Forall2 (row_of today) temperatures recs →
  Forall (λ r, get r "date" = CStr today ∧
               is_number (get r "facility_distance") ∧
               is_number (get r "population") ∧
               is_number (get r "density")) (rows (DataFrame_of_records recs)).
Proof.
  intros Hall. unfold DataFrame_of_records. cbn [rows]. apply Forall_fmap.
  eapply Forall2_Forall_r; [exact Hall|]. apply Forall_true. naive_solver.
Qed.

(** X17: when [main] gets as far as the table of today's rows, the table
    has the columns [barangay_id, date, temperature, facility_distance,
    population, density] and one row per barangay of the temperature dict,
    in its order: no barangay twice, today's date in every row, the
    temperature rounded to 2 places, and a number in every other column. *)
Theorem today_table_shape backend df :
  main_rows' backend = Value (Some df) →
  ∃ temperatures,
    ((∃ u s, fetch_heat' backend = Value (temperatures, u, s)) ∨
     (∃ u s, fetch_heat' backend = Value ([], u, s) ∧
             get_barangay_temperatures float_of_str backend = Value temperatures)) ∧
    temperatures ≠ [] ∧
    columns df = canonical_columns ∧
    column "barangay_id" (rows df) = CStr <$> keys temperatures ∧
    NoDup (column "barangay_id" (rows df)) ∧
    column "temperature" (rows df) = (λ kv, CNum (py_round kv.2 2)) <$> temperatures ∧
    Forall (λ r, get r "date" = CStr today ∧
                 is_number (get r "facility_distance") ∧
                 is_number (get r "population") ∧
                 is_number (get r "density")) (rows df).
Proof.
  intros (temperatures & recs & Hsrc & Hne & Hnd & Hall & ->)%main_rows_records.
  exists temperatures. split; [exact Hsrc|]. split; [exact Hne|].
  split; [by eapply records_table_columns|].
  split; [by apply records_unit_ids|].
  split.
  { rewrite (records_unit_ids _ _ Hall). apply NoDup_fmap_2; [|exact Hnd].
    by intros ?? [= ->]. }
  split; [by apply records_temperatures | by eapply records_rows].
Qed.

(** X18: a population request that fails (no answer, an error status, a
    body that is not JSON: every exception of the request but the
    [OverflowError] of a density too large for a float) changes nothing but
    the population and density columns: [main] does what it does when the
    answer is the empty object, and every row it writes has population 0
    and density 0. *)
Theorem population_failure_is_harmless backend e :
  get_barangay_population_density float_of_str int_of_str backend = Except e →
  e ≠ OverflowError →
  main_rows' backend =
    main_rows' {| barangay_temperatures := barangay_temperatures backend;
                  barangay_heat_risk := barangay_heat_risk backend;
                  facilities_by_barangay := facilities_by_barangay backend;
                  counts_by_barangays := counts_by_barangays backend;
                  barangay_population := Some (mkResponse 200 (Some (JDict []))) |} ∧
  ∀ df, main_rows' backend = Value (Some df) →
        Forall (λ r, get r "population" = CNum 0%Qc ∧ get r "density" = CNum 0%Qc)
               (rows df).
Proof.
  intros Hraise He.
  pose proof (fetch_population_spec float_of_str int_of_str
                json_error_is_request_exception backend) as Hp.
  rewrite Hraise, bool_decide_eq_false_2 in Hp by done. split.
  - unfold main_rows. rewrite Hp. reflexivity.
  - intros df (t & pd & fc & recs & _ & _ & Hp' & _ & Hrecs & ->)%main_rows_Some.
    rewrite Hp in Hp'. injection Hp' as <-.
    apply comprehension_Forall2 in Hrecs.
    unfold DataFrame_of_records. cbn [rows]. apply Forall_fmap.
    eapply Forall2_Forall_r; [exact Hrecs|]. apply Forall_true.
    intros [bid temp] rec Hrec. simpl.
    apply record_spec in Hrec as (dist & _ & _ & _ & _ & _ & _ & Hpop & Hden).
    rewrite Hpop, Hden. simpl. split; [by rewrite Z2Qc_inj_0|].
    by rewrite py_round_0.
Qed.

(** The counts of the facilities. *)
Lemma fill_missing_counts (batch : list (string * Z)) ids bid :
  default 0%Z (dict_get (foldl (λ fc b, if bool_decide (b ∈ keys fc) then fc
                                        else dict_set fc b 0%Z) batch ids) bid)
  = default 0%Z (dict_get batch bid).
Proof.
  revert batch. induction ids as [|b ids IH]; intros batch; simpl; [done|].
  rewrite IH. case_bool_decide as Hb; [done|].
  rewrite dict_get_set. case_bool_decide as Heq; [|done]. subst.
  by rewrite (proj2 (dict_get_None batch bid)).
Qed.

Lemma fetch_one_spec backend bid :
  (∀ e, get_facility_count int_of_str backend bid = Except e →
        is_RequestException' e = true) →
  fetch_one int_of_str json_error_is_request_exception backend bid
  = Value (bid, match get_facility_count int_of_str backend bid with
                | Value n => n
                | Except _ => 0%Z
                end).
Proof.
  intros Hreq. unfold fetch_one.
  destruct (get_facility_count int_of_str backend bid) as [n|e]; simpl; [done|].
  by rewrite (Hreq e).
Qed.

Lemma single_requests_loop backend l fc :
  (∀ bid e, bid ∈ l → get_facility_count int_of_str backend bid = Except e →
            is_RequestException' e = true) →
  ∃ fc',
    for_each (λ fc bid,
                '(barangay_id, count) ←
                  fetch_one int_of_str json_error_is_request_exception backend bid;
                Value (dict_set fc barangay_id count)) fc l = Value fc' ∧
    ∀ bid, dict_get fc' bid =
           if bool_decide (bid ∈ l)
           then Some (match get_facility_count int_of_str backend bid with
                      | Value n => n
                      | Except _ => 0%Z
                      end)
           else dict_get fc bid.
Proof.
  revert fc. induction l as [|b l IH]; intros fc Hreq.
  - exists fc. split; [done|]. intros bid.
    rewrite bool_decide_eq_false_2; [done|]. apply not_elem_of_nil.
  - cbn [for_each]. rewrite fetch_one_spec by (intros e; apply Hreq; by left).
    rewrite bind_Value_l. cbv beta iota. rewrite bind_Value_l.
    destruct (IH (dict_set fc b (match get_facility_count int_of_str backend b with
                                 | Value n => n | Except _ => 0%Z end)))
      as (fc' & -> & Hget).
    { intros bid e Hin. apply Hreq. by right. }
    exists fc'. split; [done|]. intros bid. rewrite Hget.
    destruct (decide (bid ∈ l)) as [Hin|Hin].
    + rewrite !bool_decide_eq_true_2; [done|by right|done].
    + rewrite (bool_decide_eq_false_2 (bid ∈ l)) by done. rewrite dict_get_set.
      destruct (decide (b = bid)) as [->|Hne].
      * rewrite !bool_decide_eq_true_2; [done|by left|done].
      * rewrite !bool_decide_eq_false_2; [done| |done].
        intros [?|?]%elem_of_cons; done.
Qed.

(** X19: the facility count [main] uses for a barangay.  When the batch
    request returns, it is the count of the batch answer, or 0 for a
    barangay the answer does not list.  When the batch request raises a
    [RequestException], every barangay is asked for by a request of its
    own, and the count is that request's, or 0 if it raises a
    [RequestException].  Any other exception of the batch request stops
    the script. *)
Theorem facility_counts_default_zero backend ids :
  (∀ batch, get_facility_counts_batch int_of_str backend ids = Value batch →
     ∃ fc, facility_counts_of' backend ids = Value fc ∧
           ∀ bid, default 0%Z (dict_get fc bid) = default 0%Z (dict_get batch bid)) ∧
  (∀ e, get_facility_counts_batch int_of_str backend ids = Except e →
     is_RequestException' e = true →
     as_completed ids ≡ₚ ids →
     (∀ bid e', bid ∈ ids → get_facility_count int_of_str backend bid = Except e' →
                is_RequestException' e' = true) →
     ∃ fc, facility_counts_of' backend ids = Value fc ∧
           ∀ bid, bid ∈ ids →
             dict_get fc bid = Some (match get_facility_count int_of_str backend bid with
                                     | Value n => n
                                     | Except _ => 0%Z
                                     end)) ∧
  (∀ e, get_facility_counts_batch int_of_str backend ids = Except e →
     is_RequestException' e = false →
     facility_counts_of' backend ids = Except e).
Proof.
  split; [|split].
  - intros batch Hb. unfold facility_counts_of. rewrite Hb.
    case_bool_decide; eexists; (split; [done|]); [|done].
    intros bid. apply fill_missing_counts.
  - intros e Hb He Hperm Hreq. unfold facility_counts_of. rewrite Hb, He.
    destruct (single_requests_loop backend (as_completed ids) []) as (fc & -> & Hget).
    { intros bid e' Hin. apply Hreq. by rewrite <- Hperm. }
    exists fc. split; [done|]. intros bid Hin. rewrite Hget.
    rewrite bool_decide_eq_true_2; [done|]. by rewrite Hperm.
  - intros e Hb He. unfold facility_counts_of. by rewrite Hb, He.
Qed.

End TodayTable.

(** ** From the fetch script to the pipeline *)

Lemma remove_dups_constant (x : cell) col :
  col ≠ [] → Forall (λ c, c = x) col → remove_dups col = [x].
Proof.
  intros Hne Hall. induction Hall as [|c col -> Hall IH]; [done|].
  destruct col as [|c' col]; [done|].
  change (remove_dups (x :: c' :: col))
    with (if decide_rel elem_of x (c' :: col) then remove_dups (c' :: col)
          else x :: remove_dups (c' :: col)).
  destruct (decide_rel elem_of x (c' :: col)) as [|Hn]; [by apply IH|].
  apply Forall_cons in Hall as [-> Hall]. destruct Hn. by left.
Qed.

Lemma nunique_constant (x : cell) col :
  is_null x = false → col ≠ [] → Forall (λ c, c = x) col → nunique col = 1.
Proof.
  intros Hx Hne Hall. unfold nunique.
  assert (filter (λ c, is_null c = false) col = col) as ->.
  { clear Hne. induction Hall as [|c col -> _ IH]; [done|].
    by rewrite filter_cons, decide_True, IH. }
  by rewrite (remove_dups_constant x).
Qed.

Lemma concat_columns a b c : c ∈ columns b → c ∈ columns (concat a b).
Proof.
  intros Hc. unfold concat. cbn [columns]. apply elem_of_app.
  destruct (decide (c ∈ columns a)); [by left|right].
  by apply list_elem_of_filter.
Qed.

Section FetchThenPipeline.
Import fetch_pipeline_data.
Variable float_of_str : string → option Qc.
Variable int_of_str : string → option Z.
Variable json_error_is_request_exception : bool.
Variable as_completed : list string → list string.
Variable today : string.
Variable parse_float : string → option Qc.

(** X20: whatever [main] of the fetch script writes is a table
    [load_data] returns unchanged, with or without [--append] and whatever
    the history held; and the snapshot of one run has a single date, so
    that [prepare_features] returns on it for every window and with
    rolling on or off. *)
Theorem fetched_table_is_accepted backend df :
  main_rows float_of_str int_of_str json_error_is_request_exception as_completed
            today backend = Value (Some df) →
  (∀ append, load_data (fetch_pipeline_data.main append df)
             = Ok (fetch_pipeline_data.main append df)) ∧
  nunique (column "date" (rows df)) = 1 ∧
  ∀ use_rolling window,
    ∃ df' fs cols w,
      prepare_features parse_float df use_rolling window = Ok (df', fs, cols, w).
Proof.
  intros Hmain.
  destruct (main_rows_records _ _ _ _ _ _ _ Hmain)
    as (t & recs & _ & Hne & _ & Hrel & Hdf).
  pose proof (records_table_columns today t recs Hne Hrel) as Hcols.
  pose proof (records_unit_ids today t recs Hrel) as Hids.
  pose proof (records_temperatures today t recs Hrel) as Htemp.
  pose proof (records_rows today t recs Hrel) as Hall.
  rewrite <- Hdf in Hcols, Hids, Htemp, Hall. clear Hdf Hrel recs.
  assert (rows df ≠ []) as Hrows.
  { intros Hnil. rewrite Hnil in Hids. destruct t; done. }
  assert (Forall (λ c, c ∈ columns df) canonical_columns) as Hhas.
  { rewrite Hcols. by apply Forall_forall. }
  assert (nunique (column "date" (rows df)) = 1) as Hdates.
  { apply (nunique_constant (CStr today)); [done| |].
    - unfold column. by intros ?%fmap_nil_inv.
    - unfold column. apply Forall_fmap. eapply Forall_impl; [exact Hall|].
      naive_solver. }
  split; [|split; [done|]].
  - intros [[existing|]|]; cbn [fetch_pipeline_data.main];
      [|by apply load_data_has_all..].
    apply load_data_has_all. eapply Forall_impl; [exact Hhas|]. simpl.
    intros c Hc. by apply concat_columns.
  - intros use_rolling window.
    apply prepare_features_conditions_Ok.
    + rewrite Hcols. unfold canonical_columns. repeat constructor; set_solver.
    + rewrite Htemp. apply existsb_false_Forall, Forall_fmap, Forall_true. done.
    + apply existsb_false_Forall. unfold column. apply Forall_fmap.
      eapply Forall_impl; [exact Hall|]. simpl. intros r (_ & [q ->] & _). done.
    + done.
    + intros _ Hlt. rewrite Hdates in Hlt. lia.
Qed.

End FetchThenPipeline.

(** * A window of one row *)

Lemma mean_list_singleton (q : Qc) : mean_list [q] = q.
Proof.
  unfold mean_list, sum_list. cbn [foldr length].
  change (Qc_of_Z (Z.of_nat 1)) with (Qc_of_Z 1). rewrite Z2Qc_inj_1.
  rewrite Qcplus_0_r. unfold Qcdiv. change (/ 1)%Qc with 1%Qc.
  apply Qcmult_1_r.
Qed.

Lemma nanmean_singleton (c : cell) : is_str c = false → nanmean [c] = c.
Proof.
  destruct c as [q| |]; [|done..]. intros _. unfold nanmean. cbn [omap num].
  csimpl. by rewrite mean_list_singleton.
Qed.

Lemma trailing_1_snoc {A} (l : list A) (x : A) : trailing 1 (l ++ [x]) = [x].
Proof.
  unfold trailing. rewrite length_app. cbn [length].
  replace (length l + 1 - 1) with (length l) by lia.
  by rewrite drop_app_length.
Qed.

Lemma rolling_window_1 (rs : list row) :
  Forall (λ r, is_null (get r "barangay_id") = false) rs →
  existsb is_str (column "temperature" rs) = false →
  groupby_transform "barangay_id" "temperature" (rolling_mean 1) rs
  = column "temperature" rs.
Proof.
  intros Hids Hstr. apply list_eq. intros i.
  destruct (rs !! i) as [r|] eqn:Hi.
  - rewrite (groupby_transform_rolling _ _ _ _ _ _ Hi).
    2: { rewrite Forall_forall in Hids. apply Hids. by eapply list_elem_of_lookup_2. }
    unfold column at 2. rewrite list_lookup_fmap, Hi. cbn [fmap option_fmap option_map].
    f_equal. rewrite (take_S_r _ _ _ Hi), filter_app, filter_cons, decide_True by done.
    rewrite filter_nil, trailing_1_snoc. unfold column. csimpl.
    apply nanmean_singleton.
    apply existsb_false_Forall in Hstr. rewrite Forall_forall in Hstr.
    apply Hstr. unfold column. apply list_elem_of_fmap. exists r. split; [done|].
    by eapply list_elem_of_lookup_2.
  - unfold column. rewrite list_lookup_fmap, Hi. cbn.
    apply lookup_ge_None. rewrite groupby_transform_length.
    by apply lookup_ge_None.
Qed.

Lemma zip_insert_column c c' (rs : list row) :
  zip_with (λ r v, <[c := v]> r) rs (column c' rs) = (λ r, <[c := get r c']> r) <$> rs.
Proof. unfold column. induction rs as [|r rs IH]; csimpl; [done|]. by rewrite IH. Qed.

Section WindowOne.
Variable parse_float : string → option Qc.

Lemma smooth_window_1 df window :
  Forall (λ r, is_null (get r "barangay_id") = false) (rows df) →
  existsb is_str (column "temperature" (rows df)) = false →
  smooth df true 1 = smooth df false window.
Proof.
  intros Hids Hstr. unfold smooth.
  destruct (sort_values sort_keys df) as [sorted|e] eqn:Hs; [|done].
  rewrite !bind_Ok_l. cbn [andb].
  destruct (bool_decide (1 < nunique (column "date" (rows sorted)))); [|done].
  destruct (require_column "temperature" sorted) as [[]|e]; [|done].
  rewrite !bind_Ok_l.
  apply sort_values_Ok in Hs as (_ & Hrows & _).
  assert (rows sorted ≡ₚ rows df) as Hperm.
  { rewrite Hrows. apply stable_sort_perm. }
  assert (existsb is_str (column "temperature" (rows sorted)) = false) as Hstr'.
  { eapply no_str_perm; [|exact Hstr]. apply column_perm. by symmetry. }
  cbv zeta. rewrite (bool_decide_eq_false_2 (1 < 1)%Z), andb_false_r by lia.
  rewrite (no_str_filter _ _ _ Hstr').
  change (Z.to_nat 1) with 1%nat.
  rewrite rolling_window_1; [|by rewrite Hperm|done].
  rewrite set_column_list_returns by (unfold column; by rewrite length_fmap).
  unfold set_column_with. by rewrite zip_insert_column.
Qed.

(** X21: on a table in which every row has a unit id and no temperature
    is a string, a rolling window of one row is no smoothing at all:
    [prepare_features] with rolling on and window 1 does what it does with
    rolling off, whether it returns or raises. *)
Theorem window_one_is_no_rolling df window :
  Forall (λ r, is_null (get r "barangay_id") = false) (rows df) →
  existsb is_str (column "temperature" (rows df)) = false →
  prepare_features parse_float df true 1 = prepare_features parse_float df false window.
Proof.
  intros Hids Hstr. unfold prepare_features.
  by rewrite (smooth_window_1 df window Hids Hstr).
Qed.

End WindowOne.

(** * The numbering of the clusters *)








Section ClusterNumbering.
Variable relabel : nat → nat.
Variable cols : list string.
Variable w : list Qc.
Variable labels : list nat.
Hypothesis relabel_inj :
  ∀ k1 k2, k1 ∈ labels → k2 ∈ labels → relabel k1 = relabel k2 → k1 = k2.








End ClusterNumbering.

Section Renumbering.
Variable fit_predict fit_predict' : nat → Z → list (list (option Qc)) → result (list nat).


End Renumbering.

(** * The fallback for the temperatures *)

Section TemperaturesFallback.
Import fetch_pipeline_data.
Variable float_of_str : string → option Qc.
Variable int_of_str : string → option Z.
Variable json_error_is_request_exception : bool.
Variable as_completed : list string → list string.
Variable today : string.

Local Notation temperatures_body :=
  (λ (out : dict Qc) (kv : string * json),
     match kv.2 with
     | JNull => Value out
     | v => x ← py_float float_of_str v; Value (dict_set out kv.1 x)
     end).

Local Notation kept_key :=
  (λ kv : string * json, match kv.2 with JNull => None | _ => Some kv.1 end).




End TemperaturesFallback.

(** * From the snapshot to the report *)

Lemma filter_all {A} (P : A → Prop) `{!∀ x, Decision (P x)} (l : list A) :
  Forall P l → filter P l = l.
Proof. induction 1 as [|x l Hx _ IH]; [done|]. by rewrite filter_cons, decide_True, IH. Qed.

Lemma series_max_constant (x : cell) col :
  is_null x = false → col ≠ [] → Forall (λ c, c = x) col → series_max col = x.
Proof.
  intros Hx Hne Hall. rewrite Forall_forall in Hall.
  destruct (series_max_spec col) as [[_ Hnull]|(_ & Hin & _)]; [|by apply Hall].
  destruct col as [|c col]; [done|]. apply Forall_cons in Hnull as [Hc _].
  rewrite (Hall c) in Hc by (by left). congruence.
Qed.

Section SnapshotReport.
Import fetch_pipeline_data.
Variable float_of_str : string → option Qc.
Variable int_of_str : string → option Z.
Variable json_error_is_request_exception : bool.
Variable as_completed : list string → list string.
Variable today : string.
Variable parse_float : string → option Qc.
Variable fit_predict : nat → Z → list (list (option Qc)) → result (list nat).

(** X23: the two programs in a row.  When the pipeline returns on the
    snapshot the fetch script has written, its report has exactly one row
    for every barangay the script got a temperature for, and no other
    row, whatever the estimator, the window and the rolling flag. *)
Theorem snapshot_report_one_row_per_barangay backend df no_rolling window clusters out :
  main_rows float_of_str int_of_str json_error_is_request_exception as_completed
            today backend = Value (Some df) →
  weighted_heat_risk_pipeline.main parse_float fit_predict df no_rolling window clusters
    = Ok out →
  ∃ temperatures,
    ((∃ u s, fetch_heat float_of_str json_error_is_request_exception backend
             = Value (temperatures, u, s)) ∨
     (∃ u s, fetch_heat float_of_str json_error_is_request_exception backend
             = Value ([], u, s) ∧
             get_barangay_temperatures float_of_str backend = Value temperatures)) ∧
    column "barangay_id" (rows out) ≡ₚ CStr <$> keys temperatures ∧
    NoDup (column "barangay_id" (rows out)) ∧
    length (rows out) = length temperatures.
Proof.
  intros Hmain Hpipe.
  destruct (main_rows_records _ _ _ _ _ _ _ Hmain)
    as (t & recs & Hsrc & Hne & Hnd & Hrel & Hdf).
  pose proof (records_unit_ids today t recs Hrel) as Hids.
  pose proof (records_rows today t recs Hrel) as Hall.
  rewrite <- Hdf in Hids, Hall. clear Hdf Hrel recs.
  exists t. split; [exact Hsrc|].
  apply pipeline_unit_dates in Hpipe as (scored & _ & Hrows & Hperm).
  assert (column "date" (rows scored) ≡ₚ column "date" (rows df)) as Hdates.
  { unfold column. change (λ r : row, get r "date") with (snd ∘ unit_date).
    rewrite !list_fmap_compose. by rewrite Hperm. }
  assert (column "barangay_id" (rows scored) ≡ₚ column "barangay_id" (rows df)) as Hunits.
  { unfold column. change (λ r : row, get r "barangay_id") with (fst ∘ unit_date).
    rewrite !list_fmap_compose. by rewrite Hperm. }
  assert (Forall (λ c, c = CStr today) (column "date" (rows scored))) as Htoday.
  { rewrite Hdates. unfold column. apply Forall_fmap.
    eapply Forall_impl; [exact Hall|]. by intros r [? _]. }
  assert (rows scored ≠ []) as Hrows_ne.
  { intros Hnil. rewrite Hnil, Hids in Hunits. symmetry in Hunits.
    apply Permutation_nil_r in Hunits. apply fmap_nil_inv in Hunits.
    apply fmap_nil_inv in Hunits. done. }
  assert (latest_rows (rows scored) = rows scored) as Hlatest.
  { unfold latest_rows.
    rewrite (series_max_constant (CStr today)); [|done| |done].
    2: { unfold column. by intros ?%fmap_nil_inv. }
    apply filter_all. unfold column in Htoday. rewrite Forall_fmap in Htoday.
    eapply Forall_impl; [exact Htoday|]. simpl. intros r ->. done. }
  assert (column "barangay_id" (rows out) = column "barangay_id" (rows scored)) as Hout.
  { rewrite Hrows, Hlatest. unfold column. rewrite <- list_fmap_compose.
    apply list_fmap_ext. intros i r _. simpl. apply get_reindex.
    unfold report_columns. set_solver. }
  assert (column "barangay_id" (rows out) ≡ₚ CStr <$> keys t) as Hreport.
  { by rewrite Hout, Hunits, Hids. }
  split; [exact Hreport|]. split.
  - rewrite Hreport. apply NoDup_fmap_2; [|exact Hnd]. by intros ?? [= ->].
  - apply Permutation_length in Hreport. unfold column, keys in Hreport.
    by rewrite !length_fmap in Hreport.
Qed.

End SnapshotReport.

(** ** More statements on the sample tables *)

Lemma load_data_idempotent_witness :
  ∃ df', load_data alias_only = Ok df' ∧
         load_data df' = Ok df' ∧ columns alias_only `prefix_of` columns df'.
Proof.
  assert (returned (load_data alias_only) (λ _, true) = true)
    as Hrun by (vm_compute; reflexivity).
  destruct (load_data alias_only) as [df'|e] eqn:E; [|discriminate Hrun].
  exists df'. split; [exact eq_refl|]. exact (load_data_idempotent alias_only df' E).
Defined.

Lemma prepared_table_is_sorted_witness :
  ∃ df' fs cols w,
    prepare_features no_parse two_days false 7 = Ok (df', fs, cols, w) ∧
    StronglySorted (λ a b, lex_leb sort_keys a b = true) (rows df').
Proof.
  assert (returned (prepare_features no_parse two_days false 7) (λ _, true) = true)
    as Hrun by (vm_compute; reflexivity).
  destruct (prepare_features no_parse two_days false 7)
    as [[[[df' fs] cols] w]|e] eqn:E; [|discriminate Hrun].
  exists df', fs, cols, w. split; [exact eq_refl|].
  exact (proj1 (prepared_table_is_sorted no_parse two_days false 7 df' fs cols w E)).
Defined.

Lemma density_is_coerced_witness :
  ∃ df' fs cols w,
    prepare_features no_parse two_days_density true 7 = Ok (df', fs, cols, w) ∧
    Forall (λ r, ∃ q, get r "density" = CNum q) (rows df').
Proof.
  assert (returned (prepare_features no_parse two_days_density true 7) (λ _, true) = true)
    as Hrun by (vm_compute; reflexivity).
  destruct (prepare_features no_parse two_days_density true 7)
    as [[[[df' fs] cols] w]|e] eqn:E; [|discriminate Hrun].
  exists df', fs, cols, w. split; [exact eq_refl|].
  exact (proj1 (density_is_coerced no_parse two_days_density true 7 df' fs cols w E)).
Defined.

Lemma scaled_features_not_negative_witness :
  ∃ df' fs cols w,
    prepare_features no_parse wide_range true 7 = Ok (df', fs, cols, w) ∧
    ∀ frow v, frow ∈ fs → Some v ∈ frow → (0 ≤ v)%Qc.
Proof.
  assert (returned (prepare_features no_parse wide_range true 7) (λ _, true) = true)
    as Hrun by (vm_compute; reflexivity).
  destruct (prepare_features no_parse wide_range true 7)
    as [[[[df' fs] cols] w]|e] eqn:E; [|discriminate Hrun].
  exists df', fs, cols, w. split; [exact eq_refl|].
  exact (scaled_features_not_negative no_parse wide_range true 7 df' fs cols w E).
Defined.

Lemma imputation_leaves_no_nan_witness :
  ∃ df' fs cols w,
    prepare_features no_parse two_days_density true 7 = Ok (df', fs, cols, w) ∧
    cols !! 2 = Some "density" ∧
    ((∃ q, CNum q ∈ column "density" (rows df')) →
     Forall is_Some ((λ frow, default None (frow !! 2)) <$> fs)).
Proof.
  assert (returned (prepare_features no_parse two_days_density true 7)
            (λ '(_, _, cols, _), bool_decide (cols !! 2 = Some "density")) = true)
    as Hrun by (vm_compute; reflexivity).
  destruct (prepare_features no_parse two_days_density true 7)
    as [[[[df' fs] cols] w]|e] eqn:E; [|discriminate Hrun].
  apply bool_decide_eq_true in Hrun.
  exists df', fs, cols, w. split; [exact eq_refl|]. split; [exact Hrun|].
  exact (proj1 (proj2 (imputation_leaves_no_nan no_parse two_days_density true 7
                         df' fs cols w E 2 "density" Hrun))).
Defined.

Lemma clustering_adds_two_columns_witness :
  ∃ df',
    run_kmeans_and_risk_levels labels_10 tied_rows tied_scaled
      two_features [half; half] 2 42 = Ok df' ∧
    columns df' = add_column "risk_level" (add_column "cluster" (columns tied_rows)).
Proof.
  assert (returned (run_kmeans_and_risk_levels labels_10 tied_rows tied_scaled
                      two_features [half; half] 2 42) (λ _, true) = true)
    as Hrun by (vm_compute; reflexivity).
  destruct (run_kmeans_and_risk_levels labels_10 tied_rows tied_scaled
              two_features [half; half] 2 42)
    as [df'|e] eqn:E; [|discriminate Hrun].
  exists df'. split; [exact eq_refl|].
  destruct (clustering_adds_two_columns labels_10 tied_rows tied_scaled
              two_features [half; half] 2 42%Z df' E)
    as (labels & levels & _ & _ & _ & Hcols & _).
  exact Hcols.
Defined.

Lemma risk_level_within_clusters_witness :
  ∃ df',
    run_kmeans_and_risk_levels labels_10 tied_rows tied_scaled
      two_features [half; half] 2 42 = Ok df' ∧
    ∃ levels, column "risk_level" (rows df') = of_nat <$> levels ∧
              length levels = length (rows tied_rows) ∧
              Forall (λ l, 1 ≤ l ≤ 2) levels.
Proof.
  assert (returned (run_kmeans_and_risk_levels labels_10 tied_rows tied_scaled
                      two_features [half; half] 2 42) (λ _, true) = true)
    as Hrun by (vm_compute; reflexivity).
  destruct (run_kmeans_and_risk_levels labels_10 tied_rows tied_scaled
              two_features [half; half] 2 42)
    as [df'|e] eqn:E; [|discriminate Hrun].
  exists df'. split; [exact eq_refl|].
  apply (risk_level_within_clusters labels_10 tied_rows tied_scaled
           two_features [half; half] 2 42%Z df' [1; 0] E eq_refl).
  repeat constructor.
Defined.

Lemma clustering_raises_iff_cluster_without_values_witness :
  raises (run_kmeans_and_risk_levels labels_10 tied_rows tied_scaled
            two_features [half; half] 2 42) ↔
  ∃ k c, k ∈ [1; 0] ∧ c ∈ two_features ∧
         Forall (λ r, num (get r c) = None) (members k [1; 0] (rows tied_rows)).
Proof.
  apply (clustering_raises_iff_cluster_without_values labels_10 tied_rows tied_scaled
           two_features [half; half] 2 42%Z [1; 0] eq_refl); [reflexivity..|].
  repeat constructor; try discriminate; compute_done.
Defined.

Lemma report_sorted_by_unit_witness :
  ∃ out,
    main no_parse one_cluster two_days false 7 1 = Ok out ∧
    StronglySorted (λ a b, cell_leb a b = true) (column "barangay_id" (rows out)).
Proof.
  assert (returned (main no_parse one_cluster two_days false 7 1) (λ _, true) = true)
    as Hrun by (vm_compute; reflexivity).
  destruct (main no_parse one_cluster two_days false 7 1)
    as [out|e] eqn:E; [|discriminate Hrun].
  exists out. split; [exact eq_refl|].
  exact (report_sorted_by_unit no_parse one_cluster two_days false 7 1 out E).
Defined.

Lemma report_empty_iff_no_date_witness :
  ∃ out,
    main no_parse one_cluster two_days false 7 1 = Ok out ∧
    rows two_days ≠ [] ∧
    (rows out = [] ↔ Forall (λ r, is_null (get r "date") = true) (rows two_days)).
Proof.
  assert (returned (main no_parse one_cluster two_days false 7 1) (λ _, true) = true)
    as Hrun by (vm_compute; reflexivity).
  destruct (main no_parse one_cluster two_days false 7 1)
    as [out|e] eqn:E; [|discriminate Hrun].
  exists out. split; [exact eq_refl|].
  exact (report_empty_iff_no_date no_parse one_cluster two_days false 7 1 out E).
Defined.

Lemma empty_table_raises_witness :
  rows no_rows = [] ∧ raises (main no_parse one_cluster no_rows false 7 1).
Proof.
  split; [exact eq_refl|].
  exact (empty_table_raises no_parse one_cluster no_rows false 7 1 eq_refl).
Defined.

(** ** The statements on the sample answers *)

Lemma window_one_is_no_rolling_witness :
  prepare_features no_parse two_days true 1 = prepare_features no_parse two_days false 7.
Proof.
  apply (window_one_is_no_rolling no_parse two_days 7).
  - repeat constructor.
  - reflexivity.
Defined.


Section BackendSamples.
Import fetch_pipeline_data backend_samples.

Lemma facility_distance_never_increases_witness :
  (∃ d d', facility_count_to_distance 0 = Value d ∧
           facility_count_to_distance 3 = Value d' ∧
           (0 < d')%Qc ∧ (d' ≤ d)%Qc ∧ (d ≤ 1)%Qc ∧ (d = 1%Qc ↔ 0%Z = 0%Z)) ∧
  (facility_count_to_distance (-1) = Except ZeroDivisionError ↔ (-1)%Z = (-1)%Z) ∧
  (facility_count_to_distance (-1) = Except OverflowError
   ↔ (2 ^ 1024 - 2 ^ 970 ≤ Z.abs (-1))%Z).
Proof. apply (facility_distance_never_increases 0 3 (-1)); [lia|lia|done]. Defined.


Lemma population_answer_converted_witness :
  ∃ out,
    get_barangay_population_density no_parse no_int sample_backend = Value out ∧
    keys out = ["A"; "B"; "C"] ∧
    ∃ pop dens, dict_get out "B" = Some (pop, dens) ∧ pop = 0%Z ∧ dens = 0%Qc.
Proof.
  pose proof (population_answer_converted no_parse no_int sample_backend
                (mkResponse 200 (Some population_answer)) population_answer) as H.
  assert (py_returned (get_barangay_population_density no_parse no_int sample_backend)
            (λ _, true) = true) as Hrun by (vm_compute; reflexivity).
  destruct (get_barangay_population_density no_parse no_int sample_backend)
    as [out|e] eqn:E; [|discriminate Hrun].
  destruct H as (_ & Hdict).
  - exact eq_refl.
  - simpl. lia.
  - exact eq_refl.
  - exists out. split; [exact eq_refl|].
    destruct (Hdict _ eq_refl) as [Hkeys Hentries].
    { compute_done. }
    split; [exact Hkeys|].
    destruct (Hentries "B" (JDict [("population", JStr "many");
                                   ("density", JFloat (Q2Qc 3))]))
      as (pop & dens & Hlookup & Hzero).
    { apply list_elem_of_further, list_elem_of_here. }
    exists pop, dens. split; [exact Hlookup | exact Hzero].
Defined.

Lemma today_table_shape_witness :
  ∃ df,
    main_rows no_parse no_int true in_order sample_day sample_backend = Value (Some df) ∧
    columns df = canonical_columns ∧
    NoDup (column "barangay_id" (rows df)) ∧
    Forall (λ r, get r "date" = CStr sample_day ∧
                 is_number (get r "facility_distance") ∧
                 is_number (get r "population") ∧
                 is_number (get r "density")) (rows df).
Proof.
  assert (py_returned (main_rows no_parse no_int true in_order sample_day sample_backend)
            (λ o, bool_decide (is_Some o)) = true) as Hrun by (vm_compute; reflexivity).
  destruct (main_rows no_parse no_int true in_order sample_day sample_backend)
    as [[df|]|e] eqn:E; try discriminate Hrun.
  exists df. split; [exact eq_refl|].
  destruct (today_table_shape no_parse no_int true in_order sample_day sample_backend df E)
    as (t & _ & _ & Hcols & _ & Hnd & _ & Hall).
  exact (conj Hcols (conj Hnd Hall)).
Defined.

Lemma population_failure_is_harmless_witness :
  ∃ df,
    main_rows no_parse no_int true in_order sample_day backend_without_population
      = Value (Some df) ∧
    Forall (λ r, get r "population" = CNum 0%Qc ∧ get r "density" = CNum 0%Qc) (rows df).
Proof.
  assert (py_returned (main_rows no_parse no_int true in_order sample_day
                         backend_without_population)
            (λ o, bool_decide (is_Some o)) = true) as Hrun by (vm_compute; reflexivity).
  destruct (main_rows no_parse no_int true in_order sample_day backend_without_population)
    as [[df|]|e] eqn:E; try discriminate Hrun.
  exists df. split; [exact eq_refl|].
  destruct (population_failure_is_harmless no_parse no_int true in_order sample_day
              backend_without_population RequestException eq_refl) as [_ Hrows].
  - discriminate.
  - exact (Hrows df E).
Defined.

Lemma fetched_table_is_accepted_witness :
  ∃ df,
    main_rows no_parse no_int true in_order sample_day sample_backend = Value (Some df) ∧
    load_data (fetch_pipeline_data.main (Some (Some two_days)) df)
      = Ok (fetch_pipeline_data.main (Some (Some two_days)) df) ∧
    ∃ df' fs cols w, prepare_features no_parse df true 7 = Ok (df', fs, cols, w).
Proof.
  assert (py_returned (main_rows no_parse no_int true in_order sample_day sample_backend)
            (λ o, bool_decide (is_Some o)) = true) as Hrun by (vm_compute; reflexivity).
  destruct (main_rows no_parse no_int true in_order sample_day sample_backend)
    as [[df|]|e] eqn:E; try discriminate Hrun.
  exists df. split; [exact eq_refl|].
  destruct (fetched_table_is_accepted no_parse no_int true in_order sample_day no_parse
              sample_backend df E) as (Hload & _ & Hprep).
  exact (conj (Hload (Some (Some two_days))) (Hprep true 7%Z)).
Defined.

Lemma snapshot_report_one_row_per_barangay_witness :
  ∃ df out,
    main_rows no_parse no_int true in_order sample_day sample_backend = Value (Some df) ∧
    weighted_heat_risk_pipeline.main no_parse one_cluster df false 7 1 = Ok out ∧
    column "barangay_id" (rows out) ≡ₚ [CStr "A"; CStr "B"].
Proof.
  assert (py_returned (main_rows no_parse no_int true in_order sample_day sample_backend)
            (λ o, match o with
                  | Some df =>
                    returned (weighted_heat_risk_pipeline.main no_parse one_cluster
                                df false 7 1) (λ _, true)
                  | None => false
                  end) = true) as Hrun by (vm_compute; reflexivity).
  destruct (main_rows no_parse no_int true in_order sample_day sample_backend)
    as [[df|]|e] eqn:E; try discriminate Hrun.
  simpl in Hrun.
  destruct (weighted_heat_risk_pipeline.main no_parse one_cluster df false 7 1)
    as [out|e] eqn:E'; [|discriminate Hrun].
  exists df, out. split; [exact eq_refl|]. split; [exact E'|].
  destruct (snapshot_report_one_row_per_barangay no_parse no_int true in_order sample_day
              no_parse one_cluster sample_backend df false 7%Z 1 out E E')
    as (t & Hsrc & Hperm & _).
  assert (py_returned (fetch_heat no_parse true sample_backend)
            (λ '(t, _, _), bool_decide (keys t = ["A"; "B"])) = true)
    as Hheat by (vm_compute; reflexivity).
  destruct (fetch_heat no_parse true sample_backend) as [[[t0 u0] s0]|e] eqn:Eh;
    [|discriminate Hheat].
  apply bool_decide_eq_true in Hheat.
  destruct Hsrc as [(u & s & Hh)|(u & s & Hh & _)].
  - injection Hh as <- _ _. rewrite Hheat in Hperm. exact Hperm.
  - injection Hh as -> _ _. discriminate Hheat.
Defined.


End BackendSamples.
